(** * User-scoped persistence layer: storage operations and HTTP handlers

    A shallow embedding of [shared/schema.ts] (the table declarations and
    the insert schemas derived from them), of [DatabaseStorage] (the
    storage class: one drizzle query per method, and the seeding procedure)
    and of the route handlers that call it.

    Rows and JavaScript objects are finite maps from property names to
    values.  The queries run against an explicit database state; a query
    that the backend refuses (constraint violation, malformed statement)
    throws, as the driver does.  The identifiers drawn by
    [gen_random_uuid()] and the two clocks (the application's [new Date()]
    and the backend's [now()]) are part of the world the program runs in,
    and so is what the backend makes of a parameter of another type than
    its column's, where the conversion is not one of the certain ones.
    The order in which the backend returns the rows of a table is its
    own: the state keeps the rows in the order a read finds them in, and
    the properties of reads after a write compare lists of rows up to
    their order. *)

From stdpp Require Import gmap strings list fin_maps pretty.
From Stdlib Require Import ZArith Lia.

Local Open Scope Z_scope.

(** ** Values *)

(** The values a column or an object property holds: [null], booleans,
    integral numbers, strings and time stamps (a time value, in
    milliseconds since the epoch).  An absent property ([undefined]) is an
    absent key.  Nested objects, arrays and fractional numbers, which no
    column of the schema holds, are left out; a string stands for text
    that the backend can store (it has no NUL character), a time stamp
    for a time that both [Date] and the backend represent. *)
Inductive Val : Type :=
  | VNull
  | VBool (b : bool)
  | VNum (n : Z)
  | VStr (s : string)
  | VDate (t : Z).

#[global] Instance Val_eq_dec : EqDecision Val.
Proof. solve_decision. Defined.

(** A JavaScript object with scalar properties; also a table row. *)
Abbreviation Obj := (gmap string Val).

(** ** Schema ([shared/schema.ts]) *)

Inductive ColType : Type := PgVarchar | PgText | PgBoolean | PgInteger | PgTimestamp.

Inductive ColDefault : Type :=
  | NoDefault
  | DefaultValue (v : Val)      (* .default(v) *)
  | DefaultRandomUuid           (* .default(sql`gen_random_uuid()`) *)
  | DefaultNow.                 (* .defaultNow() *)

Inductive TableName : Type := Users | Todos | ScheduleItems | Assignments | QuickTasks.

#[global] Instance TableName_eq_dec : EqDecision TableName.
Proof. solve_decision. Defined.

(** A column, under the property name the program uses for it. *)
Record Column : Type := mkColumn {
  name : string;
  ctype : ColType;
  primaryKey : bool;
  notNull : bool;
  unique : bool;
  default : ColDefault;
  references : option TableName   (* .references(() => t.id) *)
}.

Definition varchar (n : string) : Column := mkColumn n PgVarchar false false false NoDefault None.
Definition text (n : string) : Column := mkColumn n PgText false false false NoDefault None.
Definition boolean (n : string) : Column := mkColumn n PgBoolean false false false NoDefault None.
Definition integer (n : string) : Column := mkColumn n PgInteger false false false NoDefault None.
Definition timestamp (n : string) : Column := mkColumn n PgTimestamp false false false NoDefault None.

Definition withPrimaryKey (c : Column) : Column :=
  mkColumn (name c) (ctype c) true true (unique c) (default c) (references c).
Definition withNotNull (c : Column) : Column :=
  mkColumn (name c) (ctype c) (primaryKey c) true (unique c) (default c) (references c).
Definition withUnique (c : Column) : Column :=
  mkColumn (name c) (ctype c) (primaryKey c) (notNull c) true (default c) (references c).
Definition withDefault (d : ColDefault) (c : Column) : Column :=
  mkColumn (name c) (ctype c) (primaryKey c) (notNull c) (unique c) d (references c).
Definition withReferences (t : TableName) (c : Column) : Column :=
  mkColumn (name c) (ctype c) (primaryKey c) (notNull c) (unique c) (default c) (Some t).

Definition idColumn : Column :=
  withDefault DefaultRandomUuid (withPrimaryKey (varchar "id")).
Definition userIdColumn : Column :=
  withReferences Users (withNotNull (varchar "userId")).

Definition users : list Column :=
  [ idColumn;
    withUnique (varchar "email");
    varchar "firstName";
    varchar "lastName";
    varchar "profileImageUrl";
    withDefault DefaultNow (timestamp "createdAt");
    withDefault DefaultNow (timestamp "updatedAt") ].

(** The declared category tags. *)
Definition TaskCategory : list string :=
  [ "science"; "math"; "english"; "break"; "social"; "biology"; "pe"; "music"; "free"; "other" ].

Definition todos : list Column :=
  [ idColumn;
    userIdColumn;
    withNotNull (text "title");
    withDefault (DefaultValue (VBool false)) (withNotNull (boolean "completed"));
    withNotNull (integer "dayOfWeek");
    withDefault (DefaultValue (VStr "other")) (withNotNull (text "category"));
    withDefault (DefaultValue (VStr "medium")) (withNotNull (text "priority")) ].

Definition scheduleItems : list Column :=
  [ idColumn;
    userIdColumn;
    withNotNull (text "title");
    withNotNull (text "time");
    withNotNull (integer "dayOfWeek");
    withDefault (DefaultValue (VStr "other")) (withNotNull (text "category"));
    withDefault (DefaultValue (VBool false)) (withNotNull (boolean "completed")) ].

Definition assignments : list Column :=
  [ idColumn;
    userIdColumn;
    withNotNull (text "title");
    withNotNull (text "dueDate");
    withDefault (DefaultValue (VBool false)) (withNotNull (boolean "completed"));
    withDefault (DefaultValue (VStr "other")) (withNotNull (text "category")) ].

Definition quickTasks : list Column :=
  [ idColumn;
    userIdColumn;
    withNotNull (text "title");
    withDefault (DefaultValue (VBool false)) (withNotNull (boolean "completed"));
    withDefault (DefaultValue (VStr "medium")) (withNotNull (text "priority")) ].

Definition columns (t : TableName) : list Column :=
  match t with
  | Users => users
  | Todos => todos
  | ScheduleItems => scheduleItems
  | Assignments => assignments
  | QuickTasks => quickTasks
  end.

(** *** Insert schemas: [createInsertSchema(t).omit({ id: true })] *)

Definition omit (key : string) (shape : list Column) : list Column :=
  filter (λ c, name c ≠ key) shape.

Definition insertTodoSchema : list Column := omit "id" todos.
Definition insertScheduleItemSchema : list Column := omit "id" scheduleItems.
Definition insertAssignmentSchema : list Column := omit "id" assignments.
Definition insertQuickTaskSchema : list Column := omit "id" quickTasks.

(** A value of the column's type.  An [integer] column holds the
    integers of 32 bits, and its insert schema accepts no other. *)
Definition has_type (ty : ColType) (v : Val) : bool :=
  match ty, v with
  | (PgVarchar | PgText), VStr _ => true
  | PgBoolean, VBool _ => true
  | PgInteger, VNum n => (-2147483648 <=? n) && (n <=? 2147483647)
  | PgTimestamp, VDate _ => true
  | _, _ => false
  end.

Definition hasDefault (c : Column) : bool :=
  match default c with NoDefault => false | _ => true end.

(** What the insert schema accepts for one field: a column with a default
    or a nullable column may be omitted, only a nullable column may be
    [null], and a value must have the column's type. *)
Definition field_ok (c : Column) (o : option Val) : bool :=
  match o with
  | None => negb (notNull c) || hasDefault c
  | Some VNull => negb (notNull c)
  | Some v => has_type (ctype c) v
  end.

(** The known keys of the input, unknown keys stripped. *)
Definition strip (shape : list Column) (input : Obj) : Obj :=
  list_to_map (omap (λ c, (λ v, (name c, v)) <$> input !! name c) shape).

(** [schema.safeParse(input)]: the parsed data, or [None] for a failure. *)
Definition safeParse (shape : list Column) (input : Obj) : option Obj :=
  if forallb (λ c, field_ok c (input !! name c)) shape
  then Some (strip shape input)
  else None.

(** ** Database state *)

Record DB : Type := mkDB {
  users_rows : list Obj;
  todos_rows : list Obj;
  scheduleItems_rows : list Obj;
  assignments_rows : list Obj;
  quickTasks_rows : list Obj
}.

Definition table (t : TableName) (d : DB) : list Obj :=
  match t with
  | Users => users_rows d
  | Todos => todos_rows d
  | ScheduleItems => scheduleItems_rows d
  | Assignments => assignments_rows d
  | QuickTasks => quickTasks_rows d
  end.

Definition set_table (t : TableName) (rows : list Obj) (d : DB) : DB :=
  match t with
  | Users => mkDB rows (todos_rows d) (scheduleItems_rows d) (assignments_rows d) (quickTasks_rows d)
  | Todos => mkDB (users_rows d) rows (scheduleItems_rows d) (assignments_rows d) (quickTasks_rows d)
  | ScheduleItems => mkDB (users_rows d) (todos_rows d) rows (assignments_rows d) (quickTasks_rows d)
  | Assignments => mkDB (users_rows d) (todos_rows d) (scheduleItems_rows d) rows (quickTasks_rows d)
  | QuickTasks => mkDB (users_rows d) (todos_rows d) (scheduleItems_rows d) (assignments_rows d) rows
  end.

(** *** Declared constraints *)

(** A cell of a stored row: present, of the column's type, and [null]
    only where the column is nullable. *)
Definition cell_ok (c : Column) (o : option Val) : bool :=
  match o with
  | None => false
  | Some VNull => negb (notNull c)
  | Some v => has_type (ctype c) v
  end.

Definition row_ok (cols : list Column) (r : Obj) : Prop :=
  Forall (λ c, cell_ok c (r !! name c) = true) cols.

(** The non-null values a table holds in a column. *)
Definition column_values (k : string) (rows : list Obj) : list Val :=
  filter (λ v, v ≠ VNull) (omap (λ r : Obj, r !! k) rows).

(** Primary keys and unique columns hold no value twice. *)
Definition keys_ok (cols : list Column) (rows : list Obj) : Prop :=
  Forall (λ c, primaryKey c || unique c = true → NoDup (column_values (name c) rows)) cols.

(** A non-null foreign key is the id of a row of the referenced table. *)
Definition refs_ok (d : DB) (cols : list Column) (rows : list Obj) : Prop :=
  Forall (λ c, ∀ t, references c = Some t →
            Forall (λ v, v ∈ column_values "id" (table t d)) (column_values (name c) rows)) cols.

Definition table_ok (d : DB) (t : TableName) : Prop :=
  Forall (row_ok (columns t)) (table t d) ∧
  keys_ok (columns t) (table t d) ∧
  refs_ok d (columns t) (table t d).

Definition all_tables : list TableName := [Users; Todos; ScheduleItems; Assignments; QuickTasks].

(** The state satisfies every declared constraint. *)
Definition db_ok (d : DB) : Prop := Forall (table_ok d) all_tables.

#[global] Instance row_ok_dec cols r : Decision (row_ok cols r).
Proof. unfold row_ok. apply _. Defined.

#[global] Instance keys_ok_dec cols rows : Decision (keys_ok cols rows).
Proof. unfold keys_ok. apply _. Defined.

#[global] Instance refs_ok_dec d cols rows : Decision (refs_ok d cols rows).
Proof.
  unfold refs_ok. apply Forall_dec. intros c.
  destruct (references c) as [t|].
  - destruct (decide (Forall (λ v, v ∈ column_values "id" (table t d))
                        (column_values (name c) rows))) as [H|H].
    + left. intros t' [= <-]. exact H.
    + right. intros H'. apply H, H'. reflexivity.
  - left. intros t' [=].
Defined.

#[global] Instance table_ok_dec d t : Decision (table_ok d t).
Proof. unfold table_ok. apply _. Defined.

#[global] Instance db_ok_dec d : Decision (db_ok d).
Proof. unfold db_ok. apply _. Defined.

(** ** The world a request runs in *)

(** A [Date] object: its time value (milliseconds since the epoch) and the
    calendar fields of its local time ([getMonth] counts from 0). *)
Record JsDate : Type := mkDate {
  getTime : Z;
  getFullYear : Z;
  getMonth : Z;
  getDate : Z
}.

Record World : Type := mkWorld {
  db : DB;
  uuids : nat → string;   (* what gen_random_uuid() returns, draw by draw *)
  drawn : nat;            (* how many identifiers were drawn so far *)
  wall_clock : JsDate;    (* the application's clock: new Date() *)
  pg_clock : Z;           (* the backend's clock: now() *)
  pg_input : ColType → Val → option Val
                          (* what the backend reads a parameter of another
                             type than its column's as, if it accepts it,
                             where the model does not say *)
}.

Definition set_db (d : DB) (w : World) : World :=
  mkWorld d (uuids w) (drawn w) (wall_clock w) (pg_clock w) (pg_input w).

(** Time passes between two requests: both clocks move. *)
Definition set_clocks (date : JsDate) (pg : Z) (w : World) : World :=
  mkWorld (db w) (uuids w) (drawn w) date pg (pg_input w).

(** ** Computations that read and write the world and may throw *)

Inductive Err : Type :=
  | NoValuesToSet         (* the query builder's "No values to set" *)
  | SyntaxError           (* a statement the backend cannot parse *)
  | InvalidInput          (* a parameter the backend cannot read for its column *)
  | ConstraintViolation.  (* not-null, unique, primary or foreign key *)

Inductive Res (A : Type) : Type :=
  | Ok (a : A)
  | Throw (e : Err).
Arguments Ok {A} a.
Arguments Throw {A} e.

Definition M (A : Type) : Type := World → Res A * World.

#[global] Instance M_ret : MRet M := λ A a w, (Ok a, w).
#[global] Instance M_bind : MBind M := λ A B f m w,
  match m w with
  | (Ok a, w') => f a w'
  | (Throw e, w') => (Throw e, w')
  end.

Definition throw {A} (e : Err) : M A := λ w, (Throw e, w).
Definition get_db : M DB := λ w, (Ok (db w), w).

(** [for (const x of l) await body(x)] *)
Fixpoint for_of {A} (l : list A) (body : A → M unit) : M unit :=
  match l with
  | [] => mret tt
  | x :: xs => body x;; for_of xs body
  end.

(** One identifier is drawn. *)
Definition draw (w : World) : World :=
  mkWorld (db w) (uuids w) (S (drawn w)) (wall_clock w) (pg_clock w) (pg_input w).

Definition gen_random_uuid : M string := λ w, (Ok (uuids w (drawn w)), draw w).
Definition now : M Z := λ w, (Ok (pg_clock w), w).
Definition new_Date : M JsDate := λ w, (Ok (wall_clock w), w).

(** A statement takes effect when the resulting state satisfies every
    declared constraint, and is refused, changing nothing, otherwise. *)
Definition commit (d : DB) : M unit :=
  λ w, if decide (db_ok d) then (Ok tt, set_db d w) else (Throw ConstraintViolation, w).

(** ** The query builder *)

(** The statements of the PostgreSQL query builder that the storage class
    uses, with the meaning they have against the schema above. *)

(** Filters: [eq(column, value)] and [and(f, g)]. *)
Inductive Cond : Type :=
  | Eq (column : string) (value : string)
  | And (f g : Cond).

Fixpoint holds (c : Cond) (r : Obj) : bool :=
  match c with
  | Eq k v => bool_decide (r !! k = Some (VStr v))
  | And f g => holds f r && holds g r
  end.

(** [db.select().from(t).where(c)].  No query of the program asks for an
    order: the rows come in the order the backend has them in. *)
Definition select_from_where (t : TableName) (c : Cond) : M (list Obj) :=
  d ← get_db; mret (filter (λ r, holds c r = true) (table t d)).

(** The value a new row gets in a column: the supplied one, or the
    column's default, or [null]. *)
Definition default_value (c : Column) : M Val :=
  match default c with
  | NoDefault => mret VNull
  | DefaultValue v => mret v
  | DefaultRandomUuid => s ← gen_random_uuid; mret (VStr s)
  | DefaultNow => t ← now; mret (VDate t)
  end.

Fixpoint build_row (cols : list Column) (values : Obj) : M Obj :=
  match cols with
  | [] => mret ∅
  | c :: cs =>
      v ← match values !! name c with
          | Some v => mret v
          | None => default_value c
          end;
      r ← build_row cs values;
      mret (<[name c := v]> r)
  end.

(** [db.insert(t).values(values).returning()].  The values the program
    inserts are of their columns' types: the routes parse them with the
    insert schema and the seed data are literals. *)
Definition insert_values_returning (t : TableName) (values : Obj) : M (list Obj) :=
  row ← build_row (columns t) values;
  d ← get_db;
  commit (set_table t (table t d ++ [row]) d);;
  mret [row].

(** The number a string of decimal digits writes, with an optional minus
    sign before them. *)
Fixpoint digits (s : string) (acc : Z) : option Z :=
  match s with
  | EmptyString => Some acc
  | String a s' =>
      let n := Z.of_nat (Ascii.nat_of_ascii a) - 48 in
      if (0 <=? n) && (n <=? 9) then digits s' (10 * acc + n) else None
  end.

Definition numeral (s : string) : option Z :=
  match s with
  | EmptyString => None
  | String a s' =>
      if (Ascii.nat_of_ascii a =? 45)%nat
      then match s' with
           | EmptyString => None
           | _ => Z.opp <$> digits s' 0
           end
      else digits s 0
  end.

(** What the backend says of a parameter whose conversion the model does
    not know: the value it reads, which is of the column's type, or a
    refusal. *)
Definition other_input (w : World) (ty : ColType) (v : Val) : option Val :=
  match pg_input w ty v with
  | Some v' => if has_type ty v' then Some v' else None
  | None => None
  end.

(** What the backend stores for a parameter sent for a column of type
    [ty], or [None] when it refuses the parameter.  [null] and a value of
    the column's type are taken as they are, and a number outside the
    range of an [integer] column is refused.  A value of another type
    reaches the backend as text, which it converts to the column's type
    or refuses.  The conversions that are certain are written out: a
    decimal numeral sent for an integer column is the number, if it is
    in range; [true] and [false] sent for a boolean column are the
    booleans; a boolean or a number that JavaScript prints exactly, sent
    for a text column, is its text.  For the others (white space, other
    spellings, dates) the backend decides: [pg_input]. *)
Definition coerce (w : World) (ty : ColType) (v : Val) : option Val :=
  match v with
  | VNull => Some VNull
  | _ =>
      if has_type ty v then Some v
      else match ty, v with
           | PgInteger, VNum _ => None
           | PgInteger, VStr s =>
               match numeral s with
               | Some n => if has_type PgInteger (VNum n) then Some (VNum n) else None
               | None => other_input w ty v
               end
           | PgBoolean, VStr s =>
               if decide (s = "true") then Some (VBool true)
               else if decide (s = "false") then Some (VBool false)
               else other_input w ty v
           | (PgText | PgVarchar), VBool b => Some (VStr (if b then "true" else "false"))
           | (PgText | PgVarchar), VNum n =>
               if Z.abs n <=? 9007199254740992 then Some (VStr (pretty n))
               else other_input w ty v
           | _, _ => other_input w ty v
           end
  end.

(** The columns a [set] object assigns: the builder throws when the
    object has no property at all, the backend when none of them is a
    column of the table or when it cannot read a value for its column. *)
Definition set_columns (t : TableName) (values : Obj) : M (list Column) :=
  λ w,
    if decide (values = ∅) then (Throw NoValuesToSet, w)
    else
      let cols := filter (λ c, is_Some (values !! name c)) (columns t) in
      if decide (cols = []) then (Throw SyntaxError, w)
      else if forallb (λ c, match values !! name c with
                            | Some v => bool_decide (is_Some (coerce w (ctype c) v))
                            | None => true
                            end) cols
           then (Ok cols, w)
           else (Throw InvalidInput, w).

(** The [set] object as the backend reads it: the value of each column
    is the one the backend stores for it. *)
Definition as_read (w : World) (t : TableName) (values : Obj) : Obj :=
  foldr (λ c m, match values !! name c ≫= coerce w (ctype c) with
                | Some v' => <[name c := v']> m
                | None => m
                end) values (columns t).

Definition parameters (t : TableName) (values : Obj) : M Obj :=
  λ w, (Ok (as_read w t values), w).

Definition apply_set (cols : list Column) (values : Obj) (r : Obj) : Obj :=
  foldr (λ c r, match values !! name c with
                | Some v => <[name c := v]> r
                | None => r
                end) r cols.

(** The rows of a table after the rows that [hit] selects were rewritten
    with [upd].  The backend writes a new version of each row it
    updates: a later read finds the rows left alone in the order they
    had, and the new versions after them. *)
Definition rewritten (hit : Obj → bool) (upd : Obj → Obj) (rows : list Obj) : list Obj :=
  filter (λ r, hit r ≠ true) rows ++ (upd <$> filter (λ r, hit r = true) rows).

(** [db.update(t).set(values).where(c).returning()] *)
Definition update_set_where_returning (t : TableName) (values : Obj) (c : Cond)
  : M (list Obj) :=
  cols ← set_columns t values;
  params ← parameters t values;
  d ← get_db;
  let upd := apply_set cols params in
  commit (set_table t (rewritten (holds c) upd (table t d)) d);;
  mret (upd <$> filter (λ r, holds c r = true) (table t d)).

(** [db.delete(t).where(c).returning()] *)
Definition delete_where_returning (t : TableName) (c : Cond) : M (list Obj) :=
  d ← get_db;
  commit (set_table t (filter (λ r, holds c r ≠ true) (table t d)) d);;
  mret (filter (λ r, holds c r = true) (table t d)).

(** [db.insert(t).values(values).onConflictDoUpdate({ target, set }).returning()]:
    a row whose target column already holds the new row's value is
    updated with [set] instead. *)
Definition insert_values_onConflictDoUpdate_returning
    (t : TableName) (values : Obj) (target : string) (set : Obj) : M (list Obj) :=
  cols ← set_columns t set;
  params ← parameters t set;
  row ← build_row (columns t) values;
  d ← get_db;
  let conflicts (r : Obj) := bool_decide (r !! target = row !! target) in
  if existsb conflicts (table t d)
  then
    let upd := apply_set cols params in
    commit (set_table t (rewritten conflicts upd (table t d)) d);;
    mret (upd <$> filter (λ r, conflicts r = true) (table t d))
  else
    commit (set_table t (table t d ++ [row]) d);;
    mret [row].

(** ** Calendar arithmetic of [Date] *)

Definition isLeapYear (y : Z) : bool :=
  (y mod 4 =? 0) && (negb (y mod 100 =? 0) || (y mod 400 =? 0)).

Definition daysInMonth (y m : Z) : Z :=
  if m =? 1 then (if isLeapYear y then 29 else 28)
  else if (m =? 3) || (m =? 5) || (m =? 8) || (m =? 10) then 30
  else 31.

(** A day number past the end of the month rolls over into the following
    months. *)
Fixpoint roll (fuel : nat) (y m d : Z) : Z * Z * Z :=
  match fuel with
  | O => (y, m, d)
  | S fuel' =>
      if daysInMonth y m <? d
      then (if m <? 11
            then roll fuel' y (m + 1) (d - daysInMonth y m)
            else roll fuel' (y + 1) 0 (d - daysInMonth y m))
      else (y, m, d)
  end.

(** [date.setDate(dayValue)], for the day values the program passes
    (the current day of the month plus a positive offset).  The time
    value moves by whole days; the program reads only the calendar
    fields of the result. *)
Definition setDate (date : JsDate) (dayValue : Z) : JsDate :=
  let '(y, m, d) := roll (Z.to_nat dayValue) (getFullYear date) (getMonth date) dayValue in
  mkDate (getTime date + (dayValue - getDate date) * 86400000) y m d.

(** [s.padStart(n, fill)] for a one-character [fill]. *)
Definition padStart (n : nat) (fill : string) (s : string) : string :=
  foldr String.app s (replicate (n - String.length s) fill).

(** ** The storage class *)

Module DatabaseStorage.

(** *** User operations *)

Definition getUser (id : string) : M (option Obj) :=
  rows ← select_from_where Users (Eq "id" id);
  mret (head rows).

Definition upsertUser (userData : Obj) : M (option Obj) :=
  date ← new_Date;
  rows ← insert_values_onConflictDoUpdate_returning Users userData "id"
           (<["updatedAt" := VDate (getTime date)]> userData);
  mret (head rows).

(** *** Todo operations *)

Definition getTodos (userId : string) : M (list Obj) :=
  select_from_where Todos (Eq "userId" userId).

Definition getTodo (id userId : string) : M (option Obj) :=
  rows ← select_from_where Todos (And (Eq "id" id) (Eq "userId" userId));
  mret (head rows).

Definition createTodo (todo : Obj) : M (option Obj) :=
  rows ← insert_values_returning Todos todo;
  mret (head rows).

Definition updateTodo (id userId : string) (updates : Obj) : M (option Obj) :=
  rows ← update_set_where_returning Todos updates (And (Eq "id" id) (Eq "userId" userId));
  mret (head rows).

Definition deleteTodo (id userId : string) : M bool :=
  result ← delete_where_returning Todos (And (Eq "id" id) (Eq "userId" userId));
  mret (bool_decide (0 < length result)%nat).

(** *** Schedule operations *)

Definition getScheduleItems (userId : string) : M (list Obj) :=
  select_from_where ScheduleItems (Eq "userId" userId).

Definition getScheduleItem (id userId : string) : M (option Obj) :=
  rows ← select_from_where ScheduleItems (And (Eq "id" id) (Eq "userId" userId));
  mret (head rows).

Definition createScheduleItem (item : Obj) : M (option Obj) :=
  rows ← insert_values_returning ScheduleItems item;
  mret (head rows).

Definition updateScheduleItem (id userId : string) (updates : Obj) : M (option Obj) :=
  rows ← update_set_where_returning ScheduleItems updates
           (And (Eq "id" id) (Eq "userId" userId));
  mret (head rows).

Definition deleteScheduleItem (id userId : string) : M bool :=
  result ← delete_where_returning ScheduleItems (And (Eq "id" id) (Eq "userId" userId));
  mret (bool_decide (0 < length result)%nat).

(** *** Assignment operations *)

Definition getAssignments (userId : string) : M (list Obj) :=
  select_from_where Assignments (Eq "userId" userId).

Definition getAssignment (id userId : string) : M (option Obj) :=
  rows ← select_from_where Assignments (And (Eq "id" id) (Eq "userId" userId));
  mret (head rows).

Definition createAssignment (assignment : Obj) : M (option Obj) :=
  rows ← insert_values_returning Assignments assignment;
  mret (head rows).

Definition updateAssignment (id userId : string) (updates : Obj) : M (option Obj) :=
  rows ← update_set_where_returning Assignments updates
           (And (Eq "id" id) (Eq "userId" userId));
  mret (head rows).

Definition deleteAssignment (id userId : string) : M bool :=
  result ← delete_where_returning Assignments (And (Eq "id" id) (Eq "userId" userId));
  mret (bool_decide (0 < length result)%nat).

(** *** Quick task operations *)

Definition getQuickTasks (userId : string) : M (list Obj) :=
  select_from_where QuickTasks (Eq "userId" userId).

Definition getQuickTask (id userId : string) : M (option Obj) :=
  rows ← select_from_where QuickTasks (And (Eq "id" id) (Eq "userId" userId));
  mret (head rows).

Definition createQuickTask (task : Obj) : M (option Obj) :=
  rows ← insert_values_returning QuickTasks task;
  mret (head rows).

Definition updateQuickTask (id userId : string) (updates : Obj) : M (option Obj) :=
  rows ← update_set_where_returning QuickTasks updates
           (And (Eq "id" id) (Eq "userId" userId));
  mret (head rows).

Definition deleteQuickTask (id userId : string) : M bool :=
  result ← delete_where_returning QuickTasks (And (Eq "id" id) (Eq "userId" userId));
  mret (bool_decide (0 < length result)%nat).

(** *** Seed data for new users *)

Definition todo (title : string) (completed : bool) (dayOfWeek : Z)
    (category priority : string) : Obj :=
  {[ "title" := VStr title; "completed" := VBool completed;
     "dayOfWeek" := VNum dayOfWeek; "category" := VStr category;
     "priority" := VStr priority ]}.

Definition defaultTodos : list Obj :=
  [ todo "Wake up at 6:30AM" false 1 "daily" "high";
    todo "Morning Routine" false 1 "daily" "medium";
    todo "Pack Bag" true 1 "daily" "medium";
    todo "Check Planner" false 1 "daily" "medium";
    todo "Attend Classes" false 1 "daily" "high";
    todo "Take Notes" false 1 "daily" "medium";
    todo "Lunch" false 1 "daily" "low";
    todo "Homework" false 1 "daily" "high";
    todo "Complete Math Worksheets" false 1 "monthly" "high";
    todo "Study for Midterms" false 1 "monthly" "high";
    todo "Work on English Essay" false 1 "monthly" "medium" ].

Definition scheduleItem (title time : string) (dayOfWeek : Z) (category : string)
    (completed : bool) : Obj :=
  {[ "title" := VStr title; "time" := VStr time; "dayOfWeek" := VNum dayOfWeek;
     "category" := VStr category; "completed" := VBool completed ]}.

Definition defaultSchedule : list Obj :=
  [ scheduleItem "Science" "7:30" 1 "science" false;
    scheduleItem "Math" "9:55" 1 "math" true;
    scheduleItem "Break" "11:00" 1 "break" true;
    scheduleItem "Social" "11:55" 1 "social" false;
    scheduleItem "Music" "12:50" 1 "music" false;
    scheduleItem "Free time" "7:30" 2 "free" false;
    scheduleItem "PE" "9:55" 2 "pe" false;
    scheduleItem "Break" "11:00" 2 "break" false;
    scheduleItem "Biology" "11:55" 2 "biology" false;
    scheduleItem "English" "12:50" 2 "english" false;
    scheduleItem "Biology" "7:30" 3 "biology" false;
    scheduleItem "Social" "9:55" 3 "social" false;
    scheduleItem "Break" "11:00" 3 "break" false;
    scheduleItem "PE" "11:55" 3 "pe" false;
    scheduleItem "Math" "12:50" 3 "math" false;
    scheduleItem "Science" "7:30" 4 "science" false;
    scheduleItem "Math" "9:55" 4 "math" false;
    scheduleItem "Break" "11:00" 4 "break" false;
    scheduleItem "Social" "11:55" 4 "social" false;
    scheduleItem "Biology" "12:50" 4 "biology" false ].

Definition getDateString (today : JsDate) (daysFromNow : Z) : string :=
  let date := setDate today (getDate today + daysFromNow) in
  pretty (getFullYear date) +:+ "-" +:+ padStart 2 "0" (pretty (getMonth date + 1))
    +:+ "-" +:+ padStart 2 "0" (pretty (getDate date)).

Definition assignment (title dueDate : string) (completed : bool) (category : string)
    : Obj :=
  {[ "title" := VStr title; "dueDate" := VStr dueDate;
     "completed" := VBool completed; "category" := VStr category ]}.

Definition defaultAssignments (today : JsDate) : list Obj :=
  [ assignment "Math Homework" (getDateString today 5) false "math";
    assignment "Science Project" (getDateString today 10) false "science";
    assignment "English Essay" (getDateString today 3) false "english" ].

Definition seedUserData (userId : string) : M unit :=
  existingTodos ← getTodos userId;
  if bool_decide (0 < length existingTodos)%nat then mret tt
  else
    for_of defaultTodos
      (λ todo, _ ← createTodo (<["userId" := VStr userId]> todo); mret tt);;
    for_of defaultSchedule
      (λ item, _ ← createScheduleItem (<["userId" := VStr userId]> item); mret tt);;
    today ← new_Date;
    for_of (defaultAssignments today)
      (λ assignment, _ ← createAssignment (<["userId" := VStr userId]> assignment);
                     mret tt).

End DatabaseStorage.

(** ** The route handlers *)

Module Routes.
Import DatabaseStorage.

(** What a handler reads from a request that passed [isAuthenticated]:
    the caller ([req.user.claims.sub]), the [:id] path parameter, and
    the parsed JSON body. *)
Record Request : Type := mkRequest {
  sub : string;
  params_id : string;
  body : Obj
}.

Inductive Payload : Type :=
  | JsonRows (rows : list Obj)
  | JsonRow (row : option Obj)
  | JsonError (error : string)
  | JsonMessage (message : string)
  | JsonParseError               (* { error: parsed.error.message } *)
  | NoPayload.

Record Response : Type := mkResponse {
  status : nat;
  payload : Payload
}.

(** [try { ... } catch (error) { ... }] around a handler body. *)
Definition try_catch (body : M Response) (handler : Response) : World → Response * World :=
  λ w, match body w with
       | (Ok r, w') => (r, w')
       | (Throw _, w') => (handler, w')
       end.

Definition get_auth_user (req : Request) : World → Response * World :=
  try_catch
    (let userId := sub req in
     user ← getUser userId;
     seedUserData userId;;
     mret (mkResponse 200 (JsonRow user)))
    (mkResponse 500 (JsonMessage "Failed to fetch user")).

(** *** Todo routes *)

Definition get_todos (req : Request) : World → Response * World :=
  try_catch
    (let userId := sub req in
     todos ← getTodos userId;
     mret (mkResponse 200 (JsonRows todos)))
    (mkResponse 500 (JsonError "Failed to fetch todos")).

Definition post_todos (req : Request) : World → Response * World :=
  try_catch
    (let userId := sub req in
     match safeParse insertTodoSchema (<["userId" := VStr userId]> (body req)) with
     | None => mret (mkResponse 400 JsonParseError)
     | Some data =>
         todo ← createTodo data;
         mret (mkResponse 201 (JsonRow todo))
     end)
    (mkResponse 500 (JsonError "Failed to create todo")).

Definition patch_todos (req : Request) : World → Response * World :=
  try_catch
    (let userId := sub req in
     let id := params_id req in
     let updates := body req in
     todo ← updateTodo id userId updates;
     match todo with
     | None => mret (mkResponse 404 (JsonError "Todo not found"))
     | Some _ => mret (mkResponse 200 (JsonRow todo))
     end)
    (mkResponse 500 (JsonError "Failed to update todo")).

Definition delete_todos (req : Request) : World → Response * World :=
  try_catch
    (let userId := sub req in
     let id := params_id req in
     deleted ← deleteTodo id userId;
     if negb deleted then mret (mkResponse 404 (JsonError "Todo not found"))
     else mret (mkResponse 204 NoPayload))
    (mkResponse 500 (JsonError "Failed to delete todo")).

(** *** Schedule routes *)

Definition get_schedule (req : Request) : World → Response * World :=
  try_catch
    (let userId := sub req in
     items ← getScheduleItems userId;
     mret (mkResponse 200 (JsonRows items)))
    (mkResponse 500 (JsonError "Failed to fetch schedule")).

Definition post_schedule (req : Request) : World → Response * World :=
  try_catch
    (let userId := sub req in
     match safeParse insertScheduleItemSchema (<["userId" := VStr userId]> (body req)) with
     | None => mret (mkResponse 400 JsonParseError)
     | Some data =>
         item ← createScheduleItem data;
         mret (mkResponse 201 (JsonRow item))
     end)
    (mkResponse 500 (JsonError "Failed to create schedule item")).

Definition patch_schedule (req : Request) : World → Response * World :=
  try_catch
    (let userId := sub req in
     let id := params_id req in
     let updates := body req in
     item ← updateScheduleItem id userId updates;
     match item with
     | None => mret (mkResponse 404 (JsonError "Schedule item not found"))
     | Some _ => mret (mkResponse 200 (JsonRow item))
     end)
    (mkResponse 500 (JsonError "Failed to update schedule item")).

Definition delete_schedule (req : Request) : World → Response * World :=
  try_catch
    (let userId := sub req in
     let id := params_id req in
     deleted ← deleteScheduleItem id userId;
     if negb deleted then mret (mkResponse 404 (JsonError "Schedule item not found"))
     else mret (mkResponse 204 NoPayload))
    (mkResponse 500 (JsonError "Failed to delete schedule item")).

(** *** Assignment routes *)

Definition get_assignments (req : Request) : World → Response * World :=
  try_catch
    (let userId := sub req in
     assignments ← getAssignments userId;
     mret (mkResponse 200 (JsonRows assignments)))
    (mkResponse 500 (JsonError "Failed to fetch assignments")).

Definition post_assignments (req : Request) : World → Response * World :=
  try_catch
    (let userId := sub req in
     match safeParse insertAssignmentSchema (<["userId" := VStr userId]> (body req)) with
     | None => mret (mkResponse 400 JsonParseError)
     | Some data =>
         assignment ← createAssignment data;
         mret (mkResponse 201 (JsonRow assignment))
     end)
    (mkResponse 500 (JsonError "Failed to create assignment")).

Definition patch_assignments (req : Request) : World → Response * World :=
  try_catch
    (let userId := sub req in
     let id := params_id req in
     let updates := body req in
     assignment ← updateAssignment id userId updates;
     match assignment with
     | None => mret (mkResponse 404 (JsonError "Assignment not found"))
     | Some _ => mret (mkResponse 200 (JsonRow assignment))
     end)
    (mkResponse 500 (JsonError "Failed to update assignment")).

Definition delete_assignments (req : Request) : World → Response * World :=
  try_catch
    (let userId := sub req in
     let id := params_id req in
     deleted ← deleteAssignment id userId;
     if negb deleted then mret (mkResponse 404 (JsonError "Assignment not found"))
     else mret (mkResponse 204 NoPayload))
    (mkResponse 500 (JsonError "Failed to delete assignment")).

(** *** Quick task routes *)

Definition get_quick_tasks (req : Request) : World → Response * World :=
  try_catch
    (let userId := sub req in
     tasks ← getQuickTasks userId;
     mret (mkResponse 200 (JsonRows tasks)))
    (mkResponse 500 (JsonError "Failed to fetch quick tasks")).

Definition post_quick_tasks (req : Request) : World → Response * World :=
  try_catch
    (let userId := sub req in
     match safeParse insertQuickTaskSchema (<["userId" := VStr userId]> (body req)) with
     | None => mret (mkResponse 400 JsonParseError)
     | Some data =>
         task ← createQuickTask data;
         mret (mkResponse 201 (JsonRow task))
     end)
    (mkResponse 500 (JsonError "Failed to create quick task")).

Definition patch_quick_tasks (req : Request) : World → Response * World :=
  try_catch
    (let userId := sub req in
     let id := params_id req in
     let updates := body req in
     task ← updateQuickTask id userId updates;
     match task with
     | None => mret (mkResponse 404 (JsonError "Quick task not found"))
     | Some _ => mret (mkResponse 200 (JsonRow task))
     end)
    (mkResponse 500 (JsonError "Failed to update quick task")).

Definition delete_quick_tasks (req : Request) : World → Response * World :=
  try_catch
    (let userId := sub req in
     let id := params_id req in
     deleted ← deleteQuickTask id userId;
     if negb deleted then mret (mkResponse 404 (JsonError "Quick task not found"))
     else mret (mkResponse 204 NoPayload))
    (mkResponse 500 (JsonError "Failed to delete quick task")).

End Routes.

(** ** The four user-scoped entity kinds *)

Inductive Entity : Type := Todo | ScheduleItem | Assignment | QuickTask.

#[global] Instance Entity_eq_dec : EqDecision Entity.
Proof. solve_decision. Defined.

Definition entity_table (k : Entity) : TableName :=
  match k with
  | Todo => Todos
  | ScheduleItem => ScheduleItems
  | Assignment => Assignments
  | QuickTask => QuickTasks
  end.

Definition insertSchema (k : Entity) : list Column :=
  match k with
  | Todo => insertTodoSchema
  | ScheduleItem => insertScheduleItemSchema
  | Assignment => insertAssignmentSchema
  | QuickTask => insertQuickTaskSchema
  end.

(** The storage operations of a kind, under the names the specification
    uses for them. *)
Definition getAll (k : Entity) : string → M (list Obj) :=
  match k with
  | Todo => DatabaseStorage.getTodos
  | ScheduleItem => DatabaseStorage.getScheduleItems
  | Assignment => DatabaseStorage.getAssignments
  | QuickTask => DatabaseStorage.getQuickTasks
  end.

Definition getOne (k : Entity) : string → string → M (option Obj) :=
  match k with
  | Todo => DatabaseStorage.getTodo
  | ScheduleItem => DatabaseStorage.getScheduleItem
  | Assignment => DatabaseStorage.getAssignment
  | QuickTask => DatabaseStorage.getQuickTask
  end.

Definition create (k : Entity) : Obj → M (option Obj) :=
  match k with
  | Todo => DatabaseStorage.createTodo
  | ScheduleItem => DatabaseStorage.createScheduleItem
  | Assignment => DatabaseStorage.createAssignment
  | QuickTask => DatabaseStorage.createQuickTask
  end.

Definition update (k : Entity) : string → string → Obj → M (option Obj) :=
  match k with
  | Todo => DatabaseStorage.updateTodo
  | ScheduleItem => DatabaseStorage.updateScheduleItem
  | Assignment => DatabaseStorage.updateAssignment
  | QuickTask => DatabaseStorage.updateQuickTask
  end.

Definition delete (k : Entity) : string → string → M bool :=
  match k with
  | Todo => DatabaseStorage.deleteTodo
  | ScheduleItem => DatabaseStorage.deleteScheduleItem
  | Assignment => DatabaseStorage.deleteAssignment
  | QuickTask => DatabaseStorage.deleteQuickTask
  end.

Definition patch (k : Entity) : Routes.Request → World → Routes.Response * World :=
  match k with
  | Todo => Routes.patch_todos
  | ScheduleItem => Routes.patch_schedule
  | Assignment => Routes.patch_assignments
  | QuickTask => Routes.patch_quick_tasks
  end.

Definition post (k : Entity) : Routes.Request → World → Routes.Response * World :=
  match k with
  | Todo => Routes.post_todos
  | ScheduleItem => Routes.post_schedule
  | Assignment => Routes.post_assignments
  | QuickTask => Routes.post_quick_tasks
  end.

(** The messages of the routes of a kind. *)
Definition post_failure (k : Entity) : string :=
  match k with
  | Todo => "Failed to create todo"
  | ScheduleItem => "Failed to create schedule item"
  | Assignment => "Failed to create assignment"
  | QuickTask => "Failed to create quick task"
  end.

Definition patch_failure (k : Entity) : string :=
  match k with
  | Todo => "Failed to update todo"
  | ScheduleItem => "Failed to update schedule item"
  | Assignment => "Failed to update assignment"
  | QuickTask => "Failed to update quick task"
  end.

Definition not_found (k : Entity) : string :=
  match k with
  | Todo => "Todo not found"
  | ScheduleItem => "Schedule item not found"
  | Assignment => "Assignment not found"
  | QuickTask => "Quick task not found"
  end.

(** The scoped filter every single-item operation uses. *)
Definition scoped (id userId : string) : Cond := And (Eq "id" id) (Eq "userId" userId).

(** The rows of a kind that a user owns. *)
Definition owned (k : Entity) (userId : string) (d : DB) : list Obj :=
  filter (λ r : Obj, r !! "userId" = Some (VStr userId)) (table (entity_table k) d).

(** The identifiers in use in a table. *)
Definition ids (t : TableName) (d : DB) : list Val := column_values "id" (table t d).

(** What the declared constraints ask of the rows of an entity table:
    well-formed rows, distinct identifiers, and owners that exist. *)
Definition entity_rows_ok (d : DB) (k : Entity) (rows : list Obj) : Prop :=
  Forall (row_ok (columns (entity_table k))) rows ∧
  NoDup (column_values "id" rows) ∧
  Forall (λ v, v ∈ ids Users d) (column_values "userId" rows).

(** And of the rows of the users table: well-formed rows, distinct
    identifiers, distinct e-mail addresses. *)
Definition user_rows_ok (rows : list Obj) : Prop :=
  Forall (row_ok users) rows ∧
  NoDup (column_values "id" rows) ∧
  NoDup (column_values "email" rows).

(** The row an insert builds for an entity, given the identifier drawn
    for it: the supplied values, and the declared defaults elsewhere. *)
Definition plain_cell (c : Column) (values : Obj) : Val :=
  match values !! name c with
  | Some v => v
  | None => match default c with DefaultValue v => v | _ => VNull end
  end.

Definition plain_row (cols : list Column) (values : Obj) : Obj :=
  foldr (λ c r, <[name c := plain_cell c values]> r) ∅ cols.

Definition new_row (k : Entity) (uuid : string) (values : Obj) : Obj :=
  <["id" := VStr uuid]> (plain_row (insertSchema k) values).

(** A record of the kind's insert type: what its insert schema accepts
    and leaves as it is. *)
Definition conforms (k : Entity) (record : Obj) : Prop :=
  safeParse (insertSchema k) record = Some record.

(** A value for one of the data fields of a kind, the columns other than
    its identifier and its owner. *)
Definition data_value (k : Entity) (f : string) (v : Val) : bool :=
  existsb (λ c, bool_decide (name c = f) && has_type (ctype c) v)
    (insertSchema k) && bool_decide (f ≠ "userId").

(** What the backend reads a value as, for a field of a table: [f] names
    a column, and the backend stores [v'] for the parameter [v]. *)
Definition reads_as (w : World) (t : TableName) (f : string) (v v' : Val) : bool :=
  existsb (λ c, bool_decide (name c = f) &&
                bool_decide (coerce w (ctype c) v = Some v')) (columns t).

(** The rows a loop of [create] calls appends for a user, the [n]-th
    identifier of the world going to the first item. *)
Fixpoint rows_for (k : Entity) (userId : string) (uu : nat → string) (n : nat)
    (items : list Obj) : list Obj :=
  match items with
  | [] => []
  | item :: rest =>
      new_row k (uu n) (<["userId" := VStr userId]> item)
        :: rows_for k userId uu (S n) rest
  end.

(** The world after such a loop. *)
Definition after_loop (k : Entity) (userId : string) (items : list Obj) (w : World) : World :=
  mkWorld
    (set_table (entity_table k)
       (table (entity_table k) (db w) ++ rows_for k userId (uuids w) (drawn w) items)
       (db w))
    (uuids w) (drawn w + length items) (wall_clock w) (pg_clock w) (pg_input w).

(** The [n] identifiers drawn from position [start] on are distinct and
    not in use in the table. *)
Definition fresh_at (w : World) (t : TableName) (start n : nat) : Prop :=
  NoDup (uuids w <$> seq start n) ∧
  Forall (λ j, VStr (uuids w j) ∉ ids t (db w)) (seq start n).

#[global] Instance fresh_at_dec w t start n : Decision (fresh_at w t start n).
Proof. unfold fresh_at. apply _. Defined.

(** The world after the three seeding loops. *)
Definition seeded (userId : string) (w : World) : World :=
  let w1 := after_loop Todo userId DatabaseStorage.defaultTodos w in
  let w2 := after_loop ScheduleItem userId DatabaseStorage.defaultSchedule w1 in
  after_loop Assignment userId (DatabaseStorage.defaultAssignments (wall_clock w)) w2.

(** ** A small world to run the program in *)

Definition example_uuids (n : nat) : string := "uuid-" +:+ pretty n.

(** A backend for the examples: it refuses every parameter whose
    conversion is not among the certain ones. *)
Definition no_other_input (ty : ColType) (v : Val) : option Val := None.

Definition user_row (id email firstName : string) (t : Z) : Obj :=
  {[ "id" := VStr id; "email" := VStr email; "firstName" := VStr firstName;
     "lastName" := VNull; "profileImageUrl" := VNull;
     "createdAt" := VDate t; "updatedAt" := VDate t ]}.

Definition todo_row (id userId title : string) : Obj :=
  {[ "id" := VStr id; "userId" := VStr userId; "title" := VStr title;
     "completed" := VBool false; "dayOfWeek" := VNum 1;
     "category" := VStr "other"; "priority" := VStr "medium" ]}.

(** Two users; Alice owns one todo.  The clocks show 27 February 2024. *)
Definition two_users : World :=
  mkWorld
    (mkDB [ user_row "alice" "alice@example.com" "Alice" 1709000000000;
            user_row "bob" "bob@example.com" "Bob" 1709000000000 ]
          [ todo_row "t1" "alice" "Read" ] [] [] [])
    example_uuids 0 (mkDate 1709030000000 2024 1 27) 1709030000000 no_other_input.

(** The same two users, with no entity yet. *)
Definition new_users : World :=
  mkWorld
    (mkDB [ user_row "alice" "alice@example.com" "Alice" 1709000000000;
            user_row "bob" "bob@example.com" "Bob" 1709000000000 ]
          [] [] [] [])
    example_uuids 0 (mkDate 1709030000000 2024 1 27) 1709030000000 no_other_input.

(** ** Upserting users *)

(** The row an insert builds when no identifier has to be drawn: the
    supplied values, the declared defaults elsewhere, the backend's clock
    for [defaultNow()]. *)
Definition stamped_cell (pg : Z) (c : Column) (values : Obj) : Val :=
  match values !! name c with
  | Some v => v
  | None =>
      match default c with
      | DefaultValue v => v
      | DefaultNow => VDate pg
      | _ => VNull
      end
  end.

Definition stamped_row (pg : Z) (cols : list Column) (values : Obj) : Obj :=
  foldr (λ c r, <[name c := stamped_cell pg c values]> r) ∅ cols.

(** A value of the type [UpsertUser]: every property that is present is
    of its column's type, or [null] where the column is nullable. *)
Definition user_data_ok (userData : Obj) : bool :=
  forallb (λ c, field_ok c (userData !! name c)) users.

(** The e-mail address of the data, if it has one, belongs to no other
    user. *)
Definition email_free (id : string) (userData : Obj) (d : DB) : Prop :=
  match userData !! "email" with
  | Some (VStr e) =>
      Forall (λ r : Obj, r !! "email" = Some (VStr e) → r !! "id" = Some (VStr id))
        (table Users d)
  | _ => True
  end.

#[global] Instance email_free_dec id userData d : Decision (email_free id userData d).
Proof. unfold email_free. destruct (userData !! "email") as [[]|]; apply _. Defined.

(** The [set] object of [upsertUser]: [{ ...userData, updatedAt: new Date() }]. *)
Definition upsert_set (date : JsDate) (userData : Obj) : Obj :=
  <["updatedAt" := VDate (getTime date)]> userData.

(** ** The list and delete routes of a kind *)

Definition list_route (k : Entity) : Routes.Request → World → Routes.Response * World :=
  match k with
  | Todo => Routes.get_todos
  | ScheduleItem => Routes.get_schedule
  | Assignment => Routes.get_assignments
  | QuickTask => Routes.get_quick_tasks
  end.

Definition delete_route (k : Entity) : Routes.Request → World → Routes.Response * World :=
  match k with
  | Todo => Routes.delete_todos
  | ScheduleItem => Routes.delete_schedule
  | Assignment => Routes.delete_assignments
  | QuickTask => Routes.delete_quick_tasks
  end.

Definition delete_failure (k : Entity) : string :=
  match k with
  | Todo => "Failed to delete todo"
  | ScheduleItem => "Failed to delete schedule item"
  | Assignment => "Failed to delete assignment"
  | QuickTask => "Failed to delete quick task"
  end.

(** ** Calendar days *)

(** The calendar fields of a date: year, month (from 0) and day. *)
Definition calendar (date : JsDate) : Z * Z * Z :=
  (getFullYear date, getMonth date, getDate date).

(** A day of the calendar. *)
Definition valid_date (ymd : Z * Z * Z) : Prop :=
  let '(y, m, d) := ymd in 0 ≤ m ≤ 11 ∧ 1 ≤ d ≤ daysInMonth y m.

#[global] Instance valid_date_dec ymd : Decision (valid_date ymd).
Proof. destruct ymd as [[y m] d]. unfold valid_date. apply _. Defined.

(** The day after a day of the calendar. *)
Definition next_day (ymd : Z * Z * Z) : Z * Z * Z :=
  let '(y, m, d) := ymd in
  if d <? daysInMonth y m then (y, m, d + 1)
  else if m <? 11 then (y, m + 1, 1)
  else (y + 1, 0, 1).

(** How [getDateString] writes calendar fields. *)
Definition format_date (ymd : Z * Z * Z) : string :=
  let '(y, m, d) := ymd in
  pretty y +:+ "-" +:+ padStart 2 "0" (pretty (m + 1)) +:+ "-" +:+ padStart 2 "0" (pretty d).

(** ** A world in which an identifier is taken *)

Definition schedule_row (id userId title time : string) : Obj :=
  {[ "id" := VStr id; "userId" := VStr userId; "title" := VStr title;
     "time" := VStr time; "dayOfWeek" := VNum 1;
     "category" := VStr "other"; "completed" := VBool false ]}.

(** The two users with no todo; Bob owns a schedule item whose
    identifier is the twelfth the generator will return. *)
Definition taken_uuid : World :=
  mkWorld
    (mkDB [ user_row "alice" "alice@example.com" "Alice" 1709000000000;
            user_row "bob" "bob@example.com" "Bob" 1709000000000 ]
          [] [ schedule_row "uuid-11" "bob" "Math" "9:55" ] [] [])
    example_uuids 0 (mkDate 1709030000000 2024 1 27) 1709030000000 no_other_input.

(** * Properties *)

(** ** Running computations *)

Lemma bind_ok {A B} (m : M A) (f : A → M B) w a w1 :
  m w = (Ok a, w1) → (m ≫= f) w = f a w1.
Proof. intros H. unfold mbind, M_bind. by rewrite H. Qed.

Lemma set_db_same w : set_db (db w) w = w.
Proof. by destruct w. Qed.

Lemma set_table_same t d : set_table t (table t d) d = d.
Proof. by destruct t, d. Qed.

Lemma table_set_table t rows d : table t (set_table t rows d) = rows.
Proof. by destruct t. Qed.

Lemma table_set_table_ne t t' rows d : t ≠ t' → table t' (set_table t rows d) = table t' d.
Proof. by destruct t, t'. Qed.

(** ** Keys *)

Lemma column_values_cons k (r : Obj) rows :
  column_values k (r :: rows) =
  match r !! k with
  | Some v => if decide (v ≠ VNull) then v :: column_values k rows else column_values k rows
  | None => column_values k rows
  end.
Proof.
  unfold column_values. cbn [omap list_omap].
  destruct (r !! k) as [v|]; [|done].
  rewrite filter_cons. by destruct (decide (v ≠ VNull)).
Qed.

Lemma column_values_elem k (r : Obj) rows s :
  r ∈ rows → r !! k = Some (VStr s) → VStr s ∈ column_values k rows.
Proof.
  intros Hin Hk. unfold column_values. apply list_elem_of_filter. split; [done|].
  apply list_elem_of_omap. eauto.
Qed.

Lemma column_values_app k rows rows' :
  column_values k (rows ++ rows') = column_values k rows ++ column_values k rows'.
Proof. unfold column_values. by rewrite omap_app, filter_app. Qed.

Lemma filter_none {A} (P : A → Prop) `{!∀ x, Decision (P x)} (l : list A) :
  (∀ x, x ∈ l → ¬ P x) → filter P l = [].
Proof.
  induction l as [|x xs IH]; intros Hall; [done|].
  rewrite filter_cons_False by (apply Hall; left).
  apply IH. intros y Hy. apply Hall. by right.
Qed.

(** In a column without duplicates a value selects at most one row. *)
Lemma filter_key_unique k rows (r : Obj) s :
  NoDup (column_values k rows) → r ∈ rows → r !! k = Some (VStr s) →
  filter (λ x : Obj, x !! k = Some (VStr s)) rows = [r].
Proof.
  induction rows as [|x xs IH]; intros Hnd Hin Hk.
  - by apply not_elem_of_nil in Hin.
  - rewrite column_values_cons in Hnd. rewrite filter_cons.
    destruct (decide (x !! k = Some (VStr s))) as [Hx|Hx].
    + rewrite Hx in Hnd. rewrite decide_True in Hnd by done.
      apply NoDup_cons in Hnd as [Hnotin _].
      assert (Hnone : ∀ y : Obj, y ∈ xs → y !! k ≠ Some (VStr s)).
      { intros y Hy Hyk. apply Hnotin. by eapply column_values_elem. }
      apply elem_of_cons in Hin as [->|Hin]; [|by destruct (Hnone r)].
      f_equal. by apply filter_none.
    + apply elem_of_cons in Hin as [->|Hin]; [done|].
      apply IH; [|done..].
      destruct (x !! k) as [v|]; [|done].
      case_decide; [|done]. by apply NoDup_cons in Hnd as [_ ?].
Qed.

Lemma db_ok_table d t : db_ok d → table_ok d t.
Proof.
  intros H. unfold db_ok in H. rewrite Forall_forall in H. apply H.
  destruct t; unfold all_tables; set_solver.
Qed.

(** The primary key: no identifier is in use twice in a table. *)
Lemma db_ok_ids_NoDup d t : db_ok d → NoDup (ids t d).
Proof.
  intros H. destruct (db_ok_table d t H) as (_ & Hkeys & _).
  unfold keys_ok in Hkeys. rewrite Forall_forall in Hkeys.
  apply (Hkeys idColumn); [|done].
  destruct t; cbn; left.
Qed.

(** ** Scoped filters *)

Lemma holds_scoped id userId (r : Obj) :
  holds (scoped id userId) r = true ↔
  r !! "id" = Some (VStr id) ∧ r !! "userId" = Some (VStr userId).
Proof.
  cbn. rewrite andb_true_iff, !bool_decide_eq_true. done.
Qed.

Lemma filter_scoped id userId (rows : list Obj) :
  filter (λ r, holds (scoped id userId) r = true) rows =
  filter (λ r : Obj, r !! "userId" = Some (VStr userId))
    (filter (λ r : Obj, r !! "id" = Some (VStr id)) rows).
Proof.
  rewrite list_filter_filter. apply list_filter_iff. intros r.
  rewrite holds_scoped. tauto.
Qed.

(** The rows a scoped filter selects: the one row with that identifier,
    when its owner is the caller, and none otherwise. *)
Lemma select_scoped_row d t (r : Obj) id owner userId :
  db_ok d → r ∈ table t d →
  r !! "id" = Some (VStr id) → r !! "userId" = Some (VStr owner) →
  filter (λ r, holds (scoped id userId) r = true) (table t d) =
  if decide (userId = owner) then [r] else [].
Proof.
  intros Hok Hin Hid Hown. rewrite filter_scoped.
  rewrite (filter_key_unique "id" _ r id); [|by apply db_ok_ids_NoDup|done..].
  rewrite filter_singleton; [|exact []]. rewrite Hown.
  destruct (decide (userId = owner)) as [->|Hne].
  - by rewrite decide_True.
  - rewrite decide_False; [done|]. intros [= ->]. done.
Qed.

Lemma getOne_run k id userId w :
  getOne k id userId w =
  (Ok (head (filter (λ r, holds (scoped id userId) r = true) (table (entity_table k) (db w)))), w).
Proof. by destruct k. Qed.

(** ** Single-item lookup *)

(** C1. A scoped lookup of an entity's identifier by any other user
    reports absence; by its owner it returns the entity; and whatever a
    scoped lookup returns is a stored row that carries both the requested
    identifier and the requesting user as its owner. *)
Theorem getOne_owner_only (k : Entity) (w : World) (E : Obj) (id A : string) :
  db_ok (db w) →
  E ∈ table (entity_table k) (db w) →
  E !! "id" = Some (VStr id) →
  E !! "userId" = Some (VStr A) →
  (∀ B, B ≠ A → getOne k id B w = (Ok None, w)) ∧
  getOne k id A w = (Ok (Some E), w) ∧
  (∀ i u r w', getOne k i u w = (Ok (Some r), w') →
     w' = w ∧ r ∈ table (entity_table k) (db w) ∧
     r !! "id" = Some (VStr i) ∧ r !! "userId" = Some (VStr u) ∧
     (r = E → i = id ∧ u = A)).
Proof.
  intros Hok Hin Hid Hown. split; [|split].
  - intros B HB. rewrite getOne_run.
    rewrite (select_scoped_row _ _ E id A B) by done.
    by rewrite decide_False.
  - rewrite getOne_run.
    rewrite (select_scoped_row _ _ E id A A) by done.
    by rewrite decide_True.
  - intros i u r w'. rewrite getOne_run. intros [= Hhead <-].
    apply head_Some_elem_of in Hhead.
    apply list_elem_of_filter in Hhead as [[Hi Hu]%holds_scoped Hr].
    do 4 (split; [done|]). intros ->. split; congruence.
Qed.

(** ** The constraints, table by table *)

Lemma entity_table_ok d k :
  table_ok d (entity_table k) ↔ entity_rows_ok d k (table (entity_table k) d).
Proof.
  unfold table_ok, entity_rows_ok, keys_ok, refs_ok, ids.
  destruct k; cbn [entity_table columns]; unfold todos, scheduleItems, assignments, quickTasks.
  all: rewrite !Forall_cons, !Forall_nil; cbn -[column_values table].
  all: split; intros (Hrows & Hkeys & Hrefs); (split; [done|]).
  all: try (split; [apply Hkeys; done | apply (proj1 (proj2 Hrefs) Users); done]).
  all: split; repeat split; try done; try (intros ? [=]); try (intros; by simplify_eq).
Qed.

Lemma users_table_ok d : table_ok d Users ↔ user_rows_ok (table Users d).
Proof.
  unfold table_ok, user_rows_ok, keys_ok, refs_ok.
  cbn [columns]; unfold users.
  rewrite !Forall_cons, !Forall_nil; cbn -[column_values table].
  split; intros (Hrows & Hkeys & Hrefs); (split; [done|]).
  - split; [apply Hkeys; done | apply (proj1 (proj2 Hkeys)); done].
  - split; repeat split; try done; try (intros ? [=]); try (intros; by simplify_eq).
Qed.

Lemma db_ok_iff d :
  db_ok d ↔ user_rows_ok (table Users d) ∧ ∀ k, entity_rows_ok d k (table (entity_table k) d).
Proof.
  unfold db_ok, all_tables. rewrite !Forall_cons, Forall_nil.
  rewrite users_table_ok.
  rewrite (entity_table_ok d Todo), (entity_table_ok d ScheduleItem),
    (entity_table_ok d Assignment), (entity_table_ok d QuickTask).
  split.
  - intros (? & ? & ? & ? & ? & _). split; [done|]. by intros [].
  - intros [? H]. split; [done|]. repeat (split; [apply H|]). done.
Qed.

Lemma db_ok_set_entity d k rows :
  db_ok d →
  (db_ok (set_table (entity_table k) rows d) ↔ entity_rows_ok d k rows).
Proof.
  intros Hd. rewrite db_ok_iff in Hd. destruct Hd as [Hu He].
  rewrite db_ok_iff. split.
  - intros [_ H]. specialize (H k). rewrite table_set_table in H.
    destruct H as (? & ? & H). repeat split; try done.
    unfold ids in *. by rewrite table_set_table_ne in H by (by destruct k).
  - intros Hk. split.
    + by rewrite table_set_table_ne by (by destruct k).
    + intros k'. unfold entity_rows_ok, ids.
      rewrite (table_set_table_ne _ Users) by (by destruct k).
      destruct (decide (k' = k)) as [->|Hne].
      * by rewrite table_set_table.
      * rewrite table_set_table_ne by (by destruct k, k'). apply He.
Qed.

Lemma column_values_snoc k rows (r : Obj) v :
  r !! k = Some v → v ≠ VNull →
  column_values k (rows ++ [r]) = column_values k rows ++ [v].
Proof.
  intros Hk Hv. rewrite column_values_app. f_equal.
  rewrite column_values_cons, Hk. by rewrite decide_True.
Qed.

Lemma entity_rows_ok_snoc d k rows (r : Obj) id owner :
  r !! "id" = Some (VStr id) → r !! "userId" = Some (VStr owner) →
  entity_rows_ok d k rows →
  (entity_rows_ok d k (rows ++ [r]) ↔
    row_ok (columns (entity_table k)) r ∧
    (VStr id ∉ column_values "id" rows) ∧
    (VStr owner ∈ ids Users d)).
Proof.
  intros Hid Hown (Hrows & Hnd & Hfk). unfold entity_rows_ok.
  rewrite (column_values_snoc "id" rows r (VStr id) Hid) by done.
  rewrite (column_values_snoc "userId" rows r (VStr owner) Hown) by done.
  rewrite !Forall_app, !Forall_singleton, NoDup_app.
  split.
  - intros ((_ & ?) & (_ & Hnotin & _) & (_ & ?)). repeat split; try done.
    intros Hin. apply (Hnotin _ Hin). by left.
  - intros (? & Hnotin & ?). repeat split; try done.
    + intros x Hx ->%list_elem_of_singleton. done.
    + apply NoDup_singleton.
Qed.

Lemma build_row_plain cols values w :
  Forall (λ c, default c ≠ DefaultRandomUuid ∧ default c ≠ DefaultNow) cols →
  build_row cols values w = (Ok (plain_row cols values), w).
Proof.
  induction 1 as [|c cs [Hc1 Hc2] _ IH]; [done|].
  cbn [build_row plain_row foldr]. unfold plain_cell.
  destruct (values !! name c) as [v|].
  - erewrite bind_ok by reflexivity. erewrite bind_ok by exact IH. done.
  - unfold default_value.
    destruct (default c); try done;
      (erewrite bind_ok by reflexivity; erewrite bind_ok by exact IH; done).
Qed.

Lemma insertSchema_plain k :
  Forall (λ c, default c ≠ DefaultRandomUuid ∧ default c ≠ DefaultNow) (insertSchema k).
Proof. destruct k; repeat constructor; done. Qed.

Lemma columns_entity k : columns (entity_table k) = idColumn :: insertSchema k.
Proof. by destruct k. Qed.

(** What [create] does, in one step: an identifier is drawn, and the new
    row is appended if the resulting state is consistent. *)
Lemma create_run k values w :
  values !! "id" = None →
  create k values w =
    let t := entity_table k in
    let row := new_row k (uuids w (drawn w)) values in
    let d := set_table t (table t (db w) ++ [row]) (db w) in
    if decide (db_ok d) then (Ok (Some row), set_db d (draw w))
    else (Throw ConstraintViolation, draw w).
Proof.
  intros Hid.
  assert (Hb : build_row (columns (entity_table k)) values w =
               (Ok (new_row k (uuids w (drawn w)) values), draw w)).
  { rewrite columns_entity. cbn [build_row]. cbn [idColumn name withDefault withPrimaryKey varchar].
    rewrite Hid. unfold default_value. cbn [default idColumn withDefault].
    erewrite bind_ok; [|erewrite bind_ok by reflexivity; reflexivity].
    erewrite bind_ok by apply build_row_plain, insertSchema_plain. done. }
  assert (Hi : insert_values_returning (entity_table k) values w =
    let t := entity_table k in
    let row := new_row k (uuids w (drawn w)) values in
    let d := set_table t (table t (db w) ++ [row]) (db w) in
    if decide (db_ok d) then (Ok [row], set_db d (draw w))
    else (Throw ConstraintViolation, draw w)).
  { unfold insert_values_returning. erewrite bind_ok by exact Hb.
    erewrite bind_ok by reflexivity. cbn zeta.
    unfold mbind at 1, M_bind, commit. change (db (draw w)) with (db w).
    by case_decide. }
  destruct k; cbn [create]; unfold DatabaseStorage.createTodo,
    DatabaseStorage.createScheduleItem, DatabaseStorage.createAssignment,
    DatabaseStorage.createQuickTask; unfold mbind at 1, M_bind;
    cbn [entity_table] in Hi; rewrite Hi; cbn zeta;
    destruct (decide _); reflexivity.
Qed.

(** ** Records of an insert type *)

Lemma strip_lookup_None shape (input : Obj) key :
  key ∉ name <$> shape → strip shape input !! key = None.
Proof.
  intros Hk. unfold strip. apply not_elem_of_list_to_map_1.
  intros Hin. apply Hk.
  apply list_elem_of_fmap in Hin as ([k' v] & -> & Hin).
  apply list_elem_of_omap in Hin as (c & Hc & Heq).
  destruct (input !! name c); [|done]. cbn in Heq. injection Heq as <- <-.
  cbn [fst]. by apply (list_elem_of_fmap_2 name).
Qed.

Lemma insertSchema_tail k : insertSchema k = tail (columns (entity_table k)).
Proof. by destruct k. Qed.

Lemma conforms_fields k record :
  conforms k record →
  forallb (λ c, field_ok c (record !! name c)) (insertSchema k) = true.
Proof.
  unfold conforms, safeParse. by destruct (forallb _ _).
Qed.

Lemma conforms_no_id k record : conforms k record → record !! "id" = None.
Proof.
  unfold conforms, safeParse. destruct (forallb _ _); [|done].
  intros [= H]. rewrite <- H. apply strip_lookup_None.
  destruct k; apply (bool_decide_unpack _); vm_compute; exact I.
Qed.

Lemma conforms_userId k record :
  conforms k record → ∃ u, record !! "userId" = Some (VStr u).
Proof.
  intros H%conforms_fields.
  rewrite insertSchema_tail in H.
  destruct k; cbn -[lookup] in H;
    destruct (record !! "userId") as [[]|]; try done; eauto.
Qed.

Lemma new_row_id k u values : new_row k u values !! "id" = Some (VStr u).
Proof. apply lookup_insert_eq. Qed.

Lemma field_ok_plain_cell c values :
  default c ≠ DefaultRandomUuid → default c ≠ DefaultNow →
  (∀ v, default c = DefaultValue v → has_type (ctype c) v = true) →
  field_ok c (values !! name c) = true →
  cell_ok c (Some (plain_cell c values)) = true.
Proof.
  intros Hu Hn Hd. unfold field_ok, cell_ok, plain_cell, hasDefault.
  destruct (values !! name c) as [v|]; [done|].
  destruct (default c) as [|v| |] eqn:Ed; try done.
  - by rewrite orb_false_r.
  - intros _. specialize (Hd v eq_refl). by destruct v, (ctype c).
Qed.

Lemma new_row_ok k u values :
  forallb (λ c, field_ok c (values !! name c)) (insertSchema k) = true →
  row_ok (columns (entity_table k)) (new_row k u values).
Proof.
  intros H. unfold row_ok. rewrite columns_entity.
  apply Forall_cons. split; [by rewrite new_row_id|].
  unfold new_row. rewrite insertSchema_tail in H |- *.
  destruct k; cbn -[lookup insert] in H |- *;
    rewrite ?andb_true_iff in H; destruct_and!;
    repeat (apply Forall_cons; split); try (by constructor);
    cbn [name userIdColumn withReferences withNotNull withDefault varchar text
         boolean integer];
    (repeat (rewrite lookup_insert_ne by done)); rewrite lookup_insert_eq;
    (apply field_ok_plain_cell; [done|done| |done]);
    intros v [= <-]; done.
Qed.

Lemma new_row_userId k u values owner :
  values !! "userId" = Some owner → new_row k u values !! "userId" = Some owner.
Proof.
  intros H. unfold new_row. rewrite insertSchema_tail.
  destruct k; cbn -[lookup insert];
    rewrite lookup_insert_ne by done; rewrite lookup_insert_eq;
    unfold plain_cell; cbn [name userIdColumn withReferences withNotNull varchar];
    by rewrite H.
Qed.

Lemma db_set_db d w : db (set_db d w) = d.
Proof. done. Qed.

(** ** Creation *)

(** C5. Whenever [create] returns, it returns a stored row whose
    identifier is the one just drawn, which no row of the kind carried
    before; the stored rows are the prior ones and the new row, the
    state stays consistent and the next identifier will be drawn from
    the next position; and a scoped lookup with that identifier and the
    record's owner immediately afterwards returns the same row.  For a
    record of the insert type, [create] returns exactly when the owner
    exists and the identifier drawn is not in use; otherwise it throws,
    and nothing is stored. *)
Theorem create_fresh_id_then_getOne (k : Entity) (record : Obj) (w : World) :
  db_ok (db w) →
  conforms k record →
  (∀ ro w', create k record w = (Ok ro, w') →
     ∃ r id userId,
       ro = Some r ∧
       r !! "id" = Some (VStr id) ∧ id = uuids w (drawn w) ∧
       (VStr id ∉ ids (entity_table k) (db w)) ∧
       record !! "userId" = Some (VStr userId) ∧
       table (entity_table k) (db w') ≡ₚ r :: table (entity_table k) (db w) ∧
       (∀ t, t ≠ entity_table k → table t (db w') = table t (db w)) ∧
       drawn w' = S (drawn w) ∧ uuids w' = uuids w ∧
       db_ok (db w') ∧
       getOne k id userId w' = (Ok (Some r), w')) ∧
  (∀ userId,
     record !! "userId" = Some (VStr userId) →
     ((∃ r w', create k record w = (Ok (Some r), w')) ↔
      VStr userId ∈ ids Users (db w) ∧
      VStr (uuids w (drawn w)) ∉ ids (entity_table k) (db w))) ∧
  (∀ e w', create k record w = (Throw e, w') →
     e = ConstraintViolation ∧ db w' = db w).
Proof.
  intros Hok Hrec.
  pose proof (conforms_no_id _ _ Hrec) as Hnoid.
  destruct (conforms_userId _ _ Hrec) as [owner Howner].
  pose proof (new_row_userId k (uuids w (drawn w)) record _ Howner) as Hrow_owner.
  pose proof (new_row_id k (uuids w (drawn w)) record) as Hrow_id.
  assert (Hold : entity_rows_ok (db w) k (table (entity_table k) (db w))).
  { apply db_ok_iff in Hok as [_ H]. apply H. }
  rewrite create_run by done. cbn zeta. split; [|split].
  - intros ro w'. case_decide as Hnew; [|discriminate]. intros [= <- <-].
    pose proof Hnew as Hnew'.
    apply db_ok_set_entity in Hnew'; [|done].
    apply (entity_rows_ok_snoc _ _ _ _ _ _ Hrow_id Hrow_owner Hold) in Hnew'
      as (_ & Hfresh & _).
    eexists _, _, owner. split; [done|]. split; [done|]. split; [done|].
    split; [done|]. split; [done|].
    rewrite db_set_db, table_set_table.
    split; [by rewrite <- Permutation_cons_append|].
    split; [intros t Ht; by rewrite table_set_table_ne|].
    do 3 (split; [done|]).
    rewrite getOne_run.
    erewrite (select_scoped_row _ _ _ _ owner owner); rewrite ?db_set_db; try done.
    + by rewrite decide_True.
    + rewrite table_set_table. apply elem_of_app. right. by left.
  - intros userId Hu. rewrite Howner in Hu. injection Hu as ->.
    split.
    + intros (r & w' & Hrun). case_decide as Hnew; [|discriminate].
      apply db_ok_set_entity in Hnew; [|done].
      apply (entity_rows_ok_snoc _ _ _ _ _ _ Hrow_id Hrow_owner Hold) in Hnew
        as (_ & Hfresh & Hu).
      done.
    + intros [Hexists Hfresh]. rewrite decide_True; [eauto|].
      apply db_ok_set_entity; [done|].
      apply (entity_rows_ok_snoc _ _ _ _ _ _ Hrow_id Hrow_owner Hold).
      split; [|done]. apply new_row_ok. by apply conforms_fields.
  - intros e w'. case_decide; [discriminate|]. by intros [= <- <-].
Qed.
(** ** Partial updates *)

Lemma set_columns_world t values w : (set_columns t values w).2 = w.
Proof.
  unfold set_columns. case_decide; [done|]. case_decide; [done|].
  by destruct (forallb _ _).
Qed.

(** What [update] does, in one step. *)
Lemma update_run k id userId updates w :
  update k id userId updates w =
    let t := entity_table k in
    match set_columns t updates w with
    | (Ok cols, _) =>
        let upd := apply_set cols (as_read w t updates) in
        let d := set_table t (rewritten (holds (scoped id userId)) upd (table t (db w)))
                   (db w) in
        if decide (db_ok d)
        then (Ok (head (upd <$> filter (λ r, holds (scoped id userId) r = true)
                                  (table t (db w)))), set_db d w)
        else (Throw ConstraintViolation, w)
    | (Throw e, _) => (Throw e, w)
    end.
Proof.
  pose proof (set_columns_world (entity_table k) updates w) as Hw.
  destruct k; cbn [update entity_table] in *;
    unfold DatabaseStorage.updateTodo, DatabaseStorage.updateScheduleItem,
      DatabaseStorage.updateAssignment, DatabaseStorage.updateQuickTask,
      update_set_where_returning, parameters, mbind, M_bind, get_db, commit, scoped;
    destruct (set_columns _ updates w) as [[cols|e] w1]; cbn [snd] in Hw; subst w1;
    cbn zeta; try done; destruct (decide _); reflexivity.
Qed.

Lemma NoDup_fmap_eq {A B} (f : A → B) (l : list A) x y :
  NoDup (f <$> l) → x ∈ l → y ∈ l → f x = f y → x = y.
Proof.
  induction l as [|a l IH]; intros Hnd Hx Hy Hf; [by apply not_elem_of_nil in Hx|].
  rewrite fmap_cons in Hnd. apply NoDup_cons in Hnd as [Ha Hnd].
  apply elem_of_cons in Hx as [->|Hx]; apply elem_of_cons in Hy as [->|Hy]; try done.
  - destruct Ha. rewrite Hf. by apply list_elem_of_fmap_2.
  - destruct Ha. rewrite <- Hf. by apply list_elem_of_fmap_2.
  - by apply IH.
Qed.

Lemma columns_names_NoDup t : NoDup (name <$> columns t).
Proof. destruct t; apply (bool_decide_unpack _); vm_compute; exact I. Qed.

(** *** What the backend reads *)

Lemma coerce_typed w ty v : has_type ty v = true → coerce w ty v = Some v.
Proof. intros H. unfold coerce. rewrite H. by destruct v. Qed.

Lemma coerce_settable w ty v :
  v = VNull ∨ has_type ty v = true → coerce w ty v = Some v.
Proof. intros [->|H]; [done|by apply coerce_typed]. Qed.

(** What the backend accepts for a column is [null], for [null], or a
    value of the column's type. *)
Lemma other_input_has_type w ty v v' :
  other_input w ty v = Some v' → has_type ty v' = true.
Proof.
  unfold other_input. destruct (pg_input w ty v) as [y|]; [|done].
  destruct (has_type ty y) eqn:Hy; [|done]. by intros [= <-].
Qed.

Lemma coerce_has_type w ty v v' :
  coerce w ty v = Some v' →
  (v = VNull ∧ v' = VNull) ∨ (v ≠ VNull ∧ has_type ty v' = true).
Proof.
  unfold coerce. destruct v as [|b|n|s|t]; [intros [= <-]; by left|..];
    intros H; (right; split; [done|]).
  - destruct (has_type ty (VBool b)) eqn:Hty; [by injection H as <-|].
    destruct ty; try (by eapply other_input_has_type); by injection H as <-.
  - destruct (has_type ty (VNum n)) eqn:Hty; [by injection H as <-|].
    destruct ty; try done; try (by eapply other_input_has_type);
      (destruct (Z.abs n <=? 9007199254740992);
       [by injection H as <-|by eapply other_input_has_type]).
  - destruct (has_type ty (VStr s)) eqn:Hty; [by injection H as <-|].
    destruct ty; try (by eapply other_input_has_type).
    + repeat case_decide; try (by injection H as <-). by eapply other_input_has_type.
    + destruct (numeral s) as [z|]; [|by eapply other_input_has_type].
      destruct (has_type PgInteger (VNum z)) eqn:Hz; [|done]. by injection H as <-.
  - destruct (has_type ty (VDate t)) eqn:Hty; [by injection H as <-|].
    destruct ty; by eapply other_input_has_type.
Qed.

(** The conversions the runs of the program show: a numeric string for
    an integer column, a number for a text column; and what is out of
    range is refused, as a number and as a string. *)
Example coerce_conversions w :
  coerce w PgInteger (VStr "3") = Some (VNum 3) ∧
  coerce w PgText (VNum 5) = Some (VStr "5") ∧
  coerce w PgBoolean (VStr "true") = Some (VBool true) ∧
  coerce w PgInteger (VNum 2147483648) = None ∧
  coerce w PgInteger (VStr "2147483648") = None.
Proof. repeat split; vm_compute; reflexivity. Qed.

Lemma reads_as_column w t f v v' :
  reads_as w t f v v' = true ↔
  ∃ c, c ∈ columns t ∧ name c = f ∧ coerce w (ctype c) v = Some v'.
Proof.
  unfold reads_as. rewrite existsb_exists. split.
  - intros (c & Hc & H). apply andb_true_iff in H as [Hn%bool_decide_eq_true Hv%bool_decide_eq_true].
    exists c. split; [by apply list_elem_of_In|done].
  - intros (c & Hc & Hn & Hv). exists c. split; [by apply list_elem_of_In|].
    apply andb_true_iff. split; by apply bool_decide_eq_true.
Qed.

(** The columns a one-field [set] object assigns. *)
Lemma filter_is_Some_singleton t c (v : Val) :
  c ∈ columns t →
  filter (λ c', is_Some (({[name c := v]} : Obj) !! name c')) (columns t) = [c].
Proof.
  intros Hc. pose proof (columns_names_NoDup t) as Hnd.
  revert Hc Hnd. generalize (columns t). intros l Hc Hnd.
  induction l as [|a l IH]; [by apply not_elem_of_nil in Hc|].
  rewrite fmap_cons in Hnd. apply NoDup_cons in Hnd as [Ha Hnd].
  rewrite filter_cons.
  apply elem_of_cons in Hc as [Hc|Hc].
  - subst a. rewrite decide_True by (rewrite lookup_singleton_eq; eauto). f_equal.
    apply filter_none. intros x Hx [? [Heq _]%lookup_singleton_Some].
    apply Ha. rewrite Heq. by apply list_elem_of_fmap_2.
  - rewrite decide_False; [by apply IH|].
    intros [? [Heq _]%lookup_singleton_Some]. apply Ha. rewrite <- Heq.
    by apply list_elem_of_fmap_2.
Qed.

Lemma set_columns_one t c v w :
  c ∈ columns t →
  set_columns t {[name c := v]} w =
    match coerce w (ctype c) v with
    | Some _ => (Ok [c], w)
    | None => (Throw InvalidInput, w)
    end.
Proof.
  intros Hc. unfold set_columns.
  rewrite decide_False by apply insert_non_empty.
  rewrite filter_is_Some_singleton by done. rewrite decide_False by done.
  cbn [forallb]. rewrite lookup_singleton_eq, andb_true_r.
  destruct (coerce w (ctype c) v) as [v'|] eqn:Hv.
  - by rewrite bool_decide_eq_true_2 by eauto.
  - rewrite bool_decide_eq_false_2; [done|]. by intros [? ?].
Qed.

Lemma set_columns_singleton t c v w :
  c ∈ columns t →
  v = VNull ∨ has_type (ctype c) v = true →
  set_columns t {[name c := v]} w = (Ok [c], w).
Proof.
  intros Hc Hv. rewrite set_columns_one by done. by rewrite coerce_settable.
Qed.

Lemma apply_set_singleton c v (r : Obj) :
  apply_set [c] {[name c := v]} r = <[name c := v]> r.
Proof. unfold apply_set. cbn [foldr]. by rewrite lookup_singleton_eq. Qed.

Lemma set_columns_singleton_inv t f v w cols w' :
  set_columns t {[f := v]} w = (Ok cols, w') →
  ∃ c v', c ∈ columns t ∧ name c = f ∧ cols = [c] ∧ w' = w ∧
          coerce w (ctype c) v = Some v'.
Proof.
  intros H.
  pose proof (set_columns_world t {[f := v]} w) as Hw. rewrite H in Hw. cbn in Hw. subst w'.
  pose proof H as H0.
  unfold set_columns in H. case_decide; [done|]. case_decide as Hne; [done|].
  destruct (filter _ (columns t)) as [|c cols'] eqn:Hf; [done|].
  assert (Hin : c ∈ filter (λ c', is_Some (({[f := v]} : Obj) !! name c')) (columns t)).
  { rewrite Hf. by left. }
  apply list_elem_of_filter in Hin as [[? [Hname _]%lookup_singleton_Some] Hc].
  subst f. rewrite set_columns_one in H0 by done.
  destruct (coerce w (ctype c) v) as [v'|] eqn:Hv; [|done].
  exists c, v'. injection H0 as <-. done.
Qed.

(** The [set] object as the backend reads it. *)
Lemma as_read_id w t (values : Obj) :
  (∀ c v, c ∈ columns t → values !! name c = Some v → coerce w (ctype c) v = Some v) →
  as_read w t values = values.
Proof.
  unfold as_read. generalize (columns t). intros l Hall.
  induction l as [|a l IH]; [done|].
  cbn [foldr]. rewrite IH by (intros c v Hc; apply Hall; by right).
  destruct (values !! name a) as [v|] eqn:Hv; [|done].
  cbn. rewrite (Hall a v) by (done || by left). by apply insert_id.
Qed.

Lemma as_read_singleton w t c v v' :
  c ∈ columns t → coerce w (ctype c) v = Some v' →
  as_read w t {[name c := v]} = {[name c := v']}.
Proof.
  intros Hc Hv. unfold as_read. pose proof (columns_names_NoDup t) as Hnd.
  revert Hc Hnd. generalize (columns t). intros l Hc Hnd.
  match goal with |- foldr ?F _ _ = _ => set (step := F) end.
  assert (Hout : ∀ l' : list Column, name c ∉ name <$> l' →
            foldr step ({[name c := v]} : Obj) l' = {[name c := v]}).
  { intros l'. induction l' as [|a l' IH]; intros Hnot; [done|].
    rewrite fmap_cons in Hnot. apply not_elem_of_cons in Hnot as [Hne Hnot].
    cbn [foldr]. rewrite IH by done. subst step. cbn beta.
    by rewrite lookup_singleton_ne. }
  induction l as [|a l IH]; [by apply not_elem_of_nil in Hc|].
  rewrite fmap_cons in Hnd. apply NoDup_cons in Hnd as [Ha Hnd].
  cbn [foldr]. apply elem_of_cons in Hc as [<-|Hc].
  - rewrite Hout by done. subst step. cbn beta. rewrite lookup_singleton_eq. cbn.
    rewrite Hv. apply insert_singleton_eq.
  - rewrite IH by done. subst step. cbn beta.
    rewrite lookup_singleton_ne; [done|].
    intros Heq. apply Ha. rewrite <- Heq. by apply list_elem_of_fmap_2.
Qed.

(** *** Rows rewritten *)

Lemma filter_all {A} (P : A → Prop) `{!∀ x, Decision (P x)} (l : list A) :
  (∀ x, x ∈ l → P x) → filter P l = l.
Proof.
  induction l as [|x xs IH]; intros Hall; [done|].
  rewrite filter_cons_True by (apply Hall; left).
  f_equal. apply IH. intros y Hy. apply Hall. by right.
Qed.

(** A statement that selects no row leaves the rows as they are. *)
Lemma rewritten_none (hit : Obj → bool) (g : Obj → Obj) (rows : list Obj) :
  (∀ r, r ∈ rows → hit r ≠ true) → rewritten hit g rows = rows.
Proof.
  intros H. unfold rewritten. rewrite filter_all by done.
  rewrite (filter_none (λ r, hit r = true)) by done. apply app_nil_r.
Qed.

(** A statement that selects one row takes it out and puts its new
    version after the others. *)
Lemma rewritten_single (hit : Obj → bool) (g : Obj → Obj) (rows : list Obj) idx (E : Obj) :
  rows !! idx = Some E →
  filter (λ r, hit r = true) rows = [E] →
  rewritten hit g rows = base.delete idx rows ++ [g E].
Proof.
  intros Hidx Hsel. unfold rewritten. rewrite Hsel. cbn [fmap list_fmap]. f_equal.
  revert idx Hidx Hsel. induction rows as [|x xs IH]; intros idx Hidx Hsel; [done|].
  assert (Hrest : ∀ l : list Obj, filter (λ r, hit r = true) l = [] →
                    filter (λ r, hit r ≠ true) l = l).
  { intros l Hl. apply filter_all. intros r Hr Hh.
    assert (r ∈ filter (λ r, hit r = true) l) as Hin by (by apply list_elem_of_filter).
    rewrite Hl in Hin. by apply not_elem_of_nil in Hin. }
  rewrite filter_cons in Hsel. rewrite filter_cons.
  destruct idx as [|n]; cbn in Hidx.
  - injection Hidx as ->. destruct (decide (hit E = true)) as [HE|HE].
    + injection Hsel as Hsel. rewrite decide_False by (by intros ?).
      cbn [base.delete list_delete]. by apply Hrest.
    + assert (E ∈ filter (λ r, hit r = true) xs) as Hin by (rewrite Hsel; by left).
      by apply list_elem_of_filter in Hin as [? _].
  - destruct (decide (hit x = true)) as [Hx|Hx].
    + injection Hsel as -> Hsel.
      assert (E ∈ filter (λ r, hit r = true) xs) as Hin.
      { apply list_elem_of_filter. split; [done|]. by eapply list_elem_of_lookup_2. }
      rewrite Hsel in Hin. by apply not_elem_of_nil in Hin.
    + rewrite decide_True by done. cbn [base.delete list_delete]. f_equal. by apply IH.
Qed.

Lemma delete_snoc_insert {A} (l : list A) idx (x y : A) :
  l !! idx = Some x → base.delete idx l ++ [y] ≡ₚ <[idx := y]> l.
Proof.
  revert idx. induction l as [|a l IH]; intros idx Hidx; [done|].
  destruct idx as [|n]; cbn in Hidx.
  - cbn. by rewrite <- Permutation_cons_append.
  - cbn. f_equal. apply Permutation_skip. by apply IH.
Qed.

Lemma rewritten_length (hit : Obj → bool) (g : Obj → Obj) (rows : list Obj) :
  length (rewritten hit g rows) = length rows.
Proof.
  unfold rewritten. rewrite length_app, length_fmap, Nat.add_comm.
  induction rows as [|x xs IH]; [done|].
  rewrite !filter_cons. destruct (decide (hit x = true)) as [Hx|Hx].
  - rewrite decide_False by (by intros ?). cbn. by rewrite IH.
  - rewrite decide_True by done. cbn. rewrite <- IH. lia.
Qed.

Lemma rewritten_keeps (hit : Obj → bool) (g : Obj → Obj) (rows : list Obj) r :
  r ∈ rows → hit r ≠ true → r ∈ rewritten hit g rows.
Proof.
  intros Hr Hh. unfold rewritten. apply elem_of_app. left.
  by apply list_elem_of_filter.
Qed.

Lemma column_values_sublist k (rows' rows : list Obj) :
  rows' `sublist_of` rows → column_values k rows' `sublist_of` column_values k rows.
Proof.
  induction 1 as [|x l1 l2 _ IH|x l1 l2 _ IH]; [done| |];
    rewrite ?column_values_cons; destruct (x !! k) as [v|]; try done;
    case_decide; try done.
  - by apply sublist_skip.
  - by apply sublist_cons.
Qed.

Lemma entity_rows_ok_sublist d k (rows' rows : list Obj) :
  rows' `sublist_of` rows → entity_rows_ok d k rows → entity_rows_ok d k rows'.
Proof.
  intros Hsub (Hrows & Hnd & Hfk). split; [|split].
  - rewrite Forall_forall in Hrows |- *. intros r Hr. apply Hrows.
    by eapply elem_of_sublist.
  - eapply sublist_NoDup; [done|]. by apply column_values_sublist.
  - rewrite Forall_forall in Hfk |- *. intros v Hv. apply Hfk.
    eapply elem_of_sublist; [done|]. by apply column_values_sublist.
Qed.

(** The identifier of a row is carried by no other row. *)
Lemma column_values_delete_notin k (rows : list Obj) idx (E : Obj) s :
  NoDup (column_values k rows) → rows !! idx = Some E → E !! k = Some (VStr s) →
  VStr s ∉ column_values k (base.delete idx rows).
Proof.
  revert idx. induction rows as [|x xs IH]; intros idx Hnd Hidx Hk; [done|].
  rewrite column_values_cons in Hnd.
  destruct idx as [|n]; cbn in Hidx.
  - injection Hidx as ->. rewrite Hk, decide_True in Hnd by done.
    cbn [base.delete list_delete]. by apply NoDup_cons in Hnd as [? _].
  - cbn [base.delete list_delete]. rewrite column_values_cons.
    assert (Hxs : NoDup (column_values k xs)).
    { destruct (x !! k) as [v|]; [|done]. case_decide; [|done].
      by apply NoDup_cons in Hnd as [_ ?]. }
    specialize (IH n Hxs Hidx Hk).
    destruct (x !! k) as [v|] eqn:Hx; [|done]. case_decide as Hv; [|done].
    apply not_elem_of_cons. split; [|done]. intros <-.
    apply NoDup_cons in Hnd as [Hnot _]. apply Hnot.
    apply (column_values_elem k E xs s); [by eapply list_elem_of_lookup_2|done].
Qed.

Lemma column_values_insert k rows idx (r r' : Obj) :
  rows !! idx = Some r → r' !! k = r !! k →
  column_values k (<[idx := r']> rows) = column_values k rows.
Proof.
  revert idx. induction rows as [|x xs IH]; intros idx Hidx Hk; [done|].
  destruct idx as [|n]; cbn in Hidx.
  - injection Hidx as ->. change (<[0%nat := r']> (r :: xs)) with (r' :: xs).
    by rewrite !column_values_cons, Hk.
  - change (<[S n := r']> (x :: xs)) with (x :: <[n := r']> xs).
    rewrite !column_values_cons. by rewrite (IH n).
Qed.

Lemma row_ok_insert cols c v (r : Obj) :
  NoDup (name <$> cols) → c ∈ cols →
  has_type (ctype c) v = true →
  row_ok cols r → row_ok cols (<[name c := v]> r).
Proof.
  intros Hnd Hc Hv. unfold row_ok. rewrite !Forall_forall. intros Hr c' Hc'.
  destruct (decide (name c = name c')) as [Heq|Hne].
  - assert (c = c') as <- by (by eapply NoDup_fmap_eq).
    rewrite lookup_insert_eq. cbn. by destruct v, (ctype c).
  - rewrite lookup_insert_ne by done. by apply Hr.
Qed.

(** The table after one row was replaced by a new version with the same
    identifier and owner. *)
Lemma entity_rows_ok_replace d k (rows : list Obj) idx (E E' : Obj) id A :
  entity_rows_ok d k rows →
  rows !! idx = Some E →
  E !! "id" = Some (VStr id) → E !! "userId" = Some (VStr A) →
  E' !! "id" = Some (VStr id) → E' !! "userId" = Some (VStr A) →
  row_ok (columns (entity_table k)) E' →
  entity_rows_ok d k (base.delete idx rows ++ [E']).
Proof.
  intros Hrows Hidx Hid Hown Hid' Hown' Hrow.
  pose proof Hrows as (_ & Hnd & Hfk).
  apply (entity_rows_ok_snoc d k _ E' id A Hid' Hown').
  - eapply entity_rows_ok_sublist; [apply sublist_delete|done].
  - split; [done|]. split; [by eapply column_values_delete_notin|].
    rewrite Forall_forall in Hfk. apply Hfk.
    apply (column_values_elem "userId" E rows A); [by eapply list_elem_of_lookup_2|done].
Qed.

Lemma data_value_column k f v :
  data_value k f v = true →
  ∃ c, c ∈ columns (entity_table k) ∧ name c = f ∧ f ≠ "id" ∧ f ≠ "userId" ∧
       has_type (ctype c) v = true.
Proof.
  unfold data_value. intros [(c & Hc & H)%existsb_exists Hu%bool_decide_eq_true]%andb_true_iff.
  apply andb_true_iff in H as [Hn%bool_decide_eq_true Hv].
  apply list_elem_of_In in Hc.
  exists c. rewrite columns_entity. split; [by right|]. split; [done|]. split; [|done].
  subst f. intros Hid.
  assert ("id" ∈ name <$> insertSchema k) as Hin.
  { rewrite <- Hid. by apply list_elem_of_fmap_2. }
  revert Hin. destruct k; apply (bool_decide_unpack _); vm_compute; exact I.
Qed.

(** An update by the owner of one field other than the identifier and
    the owner, with a value the backend reads as [v'], not [null]: it
    returns the row with that field set to [v'], and the row's new
    version is stored instead of the old one. *)
Lemma update_field_run k w idx (E : Obj) id A c v v' :
  db_ok (db w) →
  table (entity_table k) (db w) !! idx = Some E →
  E !! "id" = Some (VStr id) →
  E !! "userId" = Some (VStr A) →
  c ∈ columns (entity_table k) → name c ≠ "id" → name c ≠ "userId" →
  coerce w (ctype c) v = Some v' → v' ≠ VNull →
  let d := set_table (entity_table k)
             (base.delete idx (table (entity_table k) (db w)) ++ [<[name c := v']> E]) (db w) in
  db_ok d ∧ update k id A {[name c := v]} w = (Ok (Some (<[name c := v']> E)), set_db d w).
Proof.
  intros Hok Hidx Hid Hown Hc Hnid Hnown Hv Hv' d.
  assert (Hin : E ∈ table (entity_table k) (db w)) by (by eapply list_elem_of_lookup_2).
  assert (Hsel : filter (λ r, holds (scoped id A) r = true) (table (entity_table k) (db w)) = [E]).
  { rewrite (select_scoped_row _ _ E id A A) by done. by rewrite decide_True. }
  assert (Hd : db_ok d).
  { apply db_ok_set_entity; [done|].
    apply db_ok_iff in Hok as [_ He]. pose proof (He k) as Hk. destruct Hk as (Hrows & _ & _).
    apply (entity_rows_ok_replace _ _ _ _ E _ id A); try done.
    - by rewrite lookup_insert_ne.
    - by rewrite lookup_insert_ne.
    - apply row_ok_insert; [apply columns_names_NoDup|done| |].
      + apply coerce_has_type in Hv as [[_ ->]|[_ ?]]; done.
      + rewrite Forall_forall in Hrows. by apply Hrows. }
  split; [done|].
  rewrite update_run. cbn zeta.
  rewrite set_columns_one, Hv by done.
  rewrite (as_read_singleton _ _ _ _ v') by done.
  rewrite Hsel, (rewritten_single _ _ _ idx E) by done.
  cbn [head fmap list_fmap]. rewrite apply_set_singleton.
  by rewrite decide_True.
Qed.

(** An update by a user who does not own the row changes nothing,
    whether it returns or throws. *)
Lemma update_other_run k w (E : Obj) id A B updates :
  db_ok (db w) →
  E ∈ table (entity_table k) (db w) →
  E !! "id" = Some (VStr id) →
  E !! "userId" = Some (VStr A) →
  B ≠ A →
  update k id B updates w =
    match (set_columns (entity_table k) updates w).1 with
    | Ok _ => (Ok None, w)
    | Throw e => (Throw e, w)
    end.
Proof.
  intros Hok Hin Hid Hown HB. rewrite update_run. cbn zeta.
  destruct (set_columns _ _ w) as [[cols|e] w1]; [|done]. cbn [fst].
  rewrite (select_scoped_row _ _ E id A B) by done.
  rewrite (decide_False (P := B = A)) by done.
  rewrite rewritten_none.
  - rewrite set_table_same, decide_True by done. by rewrite set_db_same.
  - intros r Hr [Hrid Hrown]%holds_scoped.
    assert (r ∈ filter (λ r, holds (scoped id B) r = true) (table (entity_table k) (db w))) as Hf.
    { apply list_elem_of_filter. split; [by apply holds_scoped|done]. }
    rewrite (select_scoped_row _ _ E id A B) in Hf by done.
    rewrite decide_False in Hf by done. by apply not_elem_of_nil in Hf.
Qed.

(** C3. An update of one field by the owner, whenever it returns,
    returns the row with that field set, to the value the backend read
    for it, and every other field as it was; the stored rows are the
    prior ones with that row replaced, no other table changes and the
    state stays consistent.  It does return for a value of the type of
    a data field, and for any value that the backend reads as a value,
    not [null], of a field other than the identifier and the owner.  An
    update by any other user changes nothing, whether it returns or
    throws; when it returns it returns absence, and it does return for a
    field and a value that the backend can read. *)
Theorem update_changes_only_field (k : Entity) (w : World) (idx : nat) (E : Obj)
    (id A f : string) (v : Val) :
  db_ok (db w) →
  table (entity_table k) (db w) !! idx = Some E →
  E !! "id" = Some (VStr id) →
  E !! "userId" = Some (VStr A) →
  (∀ ro w', update k id A {[f := v]} w = (Ok ro, w') →
     ∃ v', reads_as w (entity_table k) f v v' = true ∧
       ro = Some (<[f := v']> E) ∧
       (∀ g, g ≠ f → <[f := v']> E !! g = E !! g) ∧
       table (entity_table k) (db w')
         ≡ₚ <[idx := <[f := v']> E]> (table (entity_table k) (db w)) ∧
       (∀ t, t ≠ entity_table k → table t (db w') = table t (db w)) ∧
       w' = set_db (db w') w ∧
       db_ok (db w')) ∧
  (data_value k f v = true →
     ∃ w', update k id A {[f := v]} w = (Ok (Some (<[f := v]> E)), w')) ∧
  (∀ v', f ≠ "id" → f ≠ "userId" → v' ≠ VNull →
     reads_as w (entity_table k) f v v' = true →
     ∃ w', update k id A {[f := v]} w = (Ok (Some (<[f := v']> E)), w')) ∧
  (∀ B res w', B ≠ A → update k id B {[f := v]} w = (res, w') →
     w' = w ∧ ∀ ro, res = Ok ro → ro = None) ∧
  (∀ B v', B ≠ A → reads_as w (entity_table k) f v v' = true →
     update k id B {[f := v]} w = (Ok None, w)).
Proof.
  intros Hok Hidx Hid Hown.
  assert (Hin : E ∈ table (entity_table k) (db w)) by (by eapply list_elem_of_lookup_2).
  assert (Hsel : filter (λ r, holds (scoped id A) r = true) (table (entity_table k) (db w)) = [E]).
  { rewrite (select_scoped_row _ _ E id A A) by done. by rewrite decide_True. }
  split; [|split; [|split; [|split]]].
  - intros ro w'. rewrite update_run. cbn zeta.
    destruct (set_columns _ _ w) as [[cols|e] w1] eqn:Hcols; [|discriminate].
    apply set_columns_singleton_inv in Hcols as (c & v' & Hc & <- & -> & -> & Hv).
    rewrite (as_read_singleton _ _ _ _ v') by done.
    rewrite Hsel, (rewritten_single _ _ _ idx E) by done.
    cbn [head fmap list_fmap]. rewrite !apply_set_singleton.
    case_decide as Hd; [|discriminate]. intros [= <- <-].
    exists v'. split; [apply reads_as_column; eauto|]. split; [done|].
    split; [intros g Hg; by rewrite lookup_insert_ne|].
    rewrite db_set_db, table_set_table.
    split; [by apply (delete_snoc_insert _ _ E)|].
    split; [intros t Ht; by rewrite table_set_table_ne|]. done.
  - intros (c & Hc & <- & Hnid & Hnown & Hv)%data_value_column.
    destruct (update_field_run k w idx E id A c v v) as [_ Hrun]; try done.
    + by apply coerce_typed.
    + intros ->. by destruct (ctype c).
    + eauto.
  - intros v' Hnid Hnown Hv' (c & Hc & <- & Hv)%reads_as_column.
    destruct (update_field_run k w idx E id A c v v') as [_ Hrun]; try done. eauto.
  - intros B res w' HB. rewrite (update_other_run k w E id A B) by done.
    destruct (set_columns _ _ w) as [[cols|e] w1]; cbn [fst]; intros [= <- <-].
    + split; [done|]. by intros ro [= <-].
    + split; [done|]. by intros ro [=].
  - intros B v' HB (c & Hc & <- & Hv)%reads_as_column.
    rewrite (update_other_run k w E id A B) by done.
    rewrite set_columns_one, Hv by done. done.
Qed.

(** ** Deletion *)

(** What [delete] does, in one step: on a consistent state it never
    throws. *)
Lemma delete_run k id userId w :
  db_ok (db w) →
  delete k id userId w =
    let t := entity_table k in
    (Ok (bool_decide (0 < length (filter (λ r, holds (scoped id userId) r = true)
                                    (table t (db w))))%nat),
     set_db (set_table t (filter (λ r, holds (scoped id userId) r ≠ true)
                            (table t (db w))) (db w)) w).
Proof.
  intros Hok.
  assert (Hnew : db_ok (set_table (entity_table k)
            (filter (λ r, holds (scoped id userId) r ≠ true)
               (table (entity_table k) (db w))) (db w))).
  { apply db_ok_set_entity; [done|].
    eapply entity_rows_ok_sublist; [apply sublist_filter|].
    apply db_ok_iff in Hok as [_ H]. apply H. }
  destruct k; cbn [delete entity_table] in *;
    unfold DatabaseStorage.deleteTodo, DatabaseStorage.deleteScheduleItem,
      DatabaseStorage.deleteAssignment, DatabaseStorage.deleteQuickTask,
      delete_where_returning, mbind, M_bind, get_db, commit, scoped in *;
    cbn zeta; rewrite decide_True by done; reflexivity.
Qed.

(** C6. Deleting an existing row by its identifier and owner returns
    true and removes that row and no other; the same call again returns
    false and changes nothing.  In general [delete] returns true exactly
    when a row with that identifier and owner was stored, which is then
    gone, and a call that returns false changes nothing. *)
Theorem delete_true_exactly_once (k : Entity) (w : World) (E : Obj) (id A : string) :
  db_ok (db w) →
  E ∈ table (entity_table k) (db w) →
  E !! "id" = Some (VStr id) →
  E !! "userId" = Some (VStr A) →
  (∃ w1, delete k id A w = (Ok true, w1) ∧
         (E ∉ table (entity_table k) (db w1)) ∧
         (∀ r, r ∈ table (entity_table k) (db w1) ↔
               r ∈ table (entity_table k) (db w) ∧ r ≠ E) ∧
         delete k id A w1 = (Ok false, w1)) ∧
  (∀ i u, ∃ b w', delete k i u w = (Ok b, w') ∧
     (b = true ↔ ∃ r, r ∈ table (entity_table k) (db w) ∧
                      r !! "id" = Some (VStr i) ∧ r !! "userId" = Some (VStr u) ∧
                      r ∉ table (entity_table k) (db w')) ∧
     (b = false → w' = w)).
Proof.
  intros Hok Hin Hid Hown. split.
  - eexists. rewrite delete_run by done. cbn zeta.
    rewrite (select_scoped_row _ _ E id A A), decide_True by done.
    split; [done|]. rewrite db_set_db, table_set_table.
    assert (Hmem : ∀ r, r ∈ filter (λ r, holds (scoped id A) r ≠ true)
                          (table (entity_table k) (db w)) ↔
                        r ∈ table (entity_table k) (db w) ∧ r ≠ E).
    { intros r. rewrite list_elem_of_filter. split.
      - intros [Hno Hr]. split; [done|]. intros ->. apply Hno. by apply holds_scoped.
      - intros [Hr Hne]. split; [|done]. intros Hh. apply Hne.
        assert (r ∈ filter (λ r, holds (scoped id A) r = true)
                      (table (entity_table k) (db w))) as Hf
          by (by apply list_elem_of_filter).
        rewrite (select_scoped_row _ _ E id A A), decide_True in Hf by done.
        by apply list_elem_of_singleton in Hf. }
    split; [|split; [done|]].
    + intros [_ ?]%Hmem. done.
    + set (w1 := set_db _ w).
      assert (Hok1 : db_ok (db w1)).
      { subst w1. rewrite db_set_db. apply db_ok_set_entity; [done|].
        eapply entity_rows_ok_sublist; [apply sublist_filter|].
        apply db_ok_iff in Hok as [_ H]. apply H. }
      rewrite delete_run by done. cbn zeta. subst w1.
      rewrite db_set_db, table_set_table.
      rewrite (filter_none (λ r, holds (scoped id A) r = true)).
      2:{ intros r [Hno _]%list_elem_of_filter. done. }
      rewrite (filter_all (λ r, holds (scoped id A) r ≠ true)).
      2:{ intros r [Hno _]%list_elem_of_filter. done. }
      f_equal. destruct w, k; reflexivity.
  - intros i u. eexists _, _. rewrite delete_run by done. cbn zeta.
    split; [done|]. rewrite db_set_db, table_set_table. split; [split|].
    + intros Hb%bool_decide_eq_true.
      destruct (filter _ _) as [|r rs] eqn:Hf; [cbn in Hb; lia|].
      assert (r ∈ filter (λ r, holds (scoped i u) r = true)
                    (table (entity_table k) (db w))) as Hr by (rewrite Hf; by left).
      apply list_elem_of_filter in Hr as [[? ?]%holds_scoped Hr].
      exists r. do 3 (split; [done|]).
      intros [Hno _]%list_elem_of_filter. apply Hno. by apply holds_scoped.
    + intros (r & Hr & Hi & Hu & _). apply bool_decide_eq_true.
      assert (r ∈ filter (λ r, holds (scoped i u) r = true)
                    (table (entity_table k) (db w))) as Hf.
      { apply list_elem_of_filter. split; [by apply holds_scoped|done]. }
      destruct (filter _ _); [by apply not_elem_of_nil in Hf|cbn; lia].
    + intros Hb%bool_decide_eq_false.
      rewrite filter_all.
      * by rewrite set_table_same, set_db_same.
      * intros r Hr Hh. apply Hb.
        assert (r ∈ filter (λ r, holds (scoped i u) r = true)
                      (table (entity_table k) (db w))) as Hf
          by (by apply list_elem_of_filter).
        destruct (filter _ _); [by apply not_elem_of_nil in Hf|cbn; lia].
Qed.

(** ** Empty updates *)

(** C10. A partial update with no field throws, whatever the identifier
    and the user: the builder refuses an empty [set] object.  The route
    answers with status 500 and its failure message, and nothing is
    written. *)
Theorem update_empty_throws (k : Entity) (id userId : string) (w : World) :
  update k id userId ∅ w = (Throw NoValuesToSet, w) ∧
  patch k (Routes.mkRequest userId id ∅) w =
    (Routes.mkResponse 500 (Routes.JsonError (patch_failure k)), w).
Proof.
  split.
  - by rewrite update_run.
  - by destruct k.
Qed.

(** ** Seeding *)

Lemma after_loop_nil k userId w : after_loop k userId [] w = w.
Proof.
  unfold after_loop. cbn [rows_for length]. rewrite app_nil_r, set_table_same.
  rewrite Nat.add_0_r. by destruct w.
Qed.

Lemma fresh_at_S w t start n :
  fresh_at w t start (S n) →
  (VStr (uuids w start) ∉ ids t (db w)) ∧
  fresh_at w t (S start) n ∧
  Forall (λ j, uuids w j ≠ uuids w start) (seq (S start) n).
Proof.
  intros [Hnd Hall]. cbn [seq] in Hnd, Hall. rewrite fmap_cons in Hnd.
  apply NoDup_cons in Hnd as [Hhd Hnd]. apply Forall_cons in Hall as [H0 Hall].
  split; [done|]. split; [done|].
  apply Forall_forall. intros j Hj Heq. apply Hhd. rewrite <- Heq.
  by apply list_elem_of_fmap_2.
Qed.

Lemma create_ok k record w userId :
  db_ok (db w) →
  conforms k record →
  record !! "userId" = Some (VStr userId) →
  VStr userId ∈ ids Users (db w) →
  VStr (uuids w (drawn w)) ∉ ids (entity_table k) (db w) →
  let row := new_row k (uuids w (drawn w)) record in
  let d := set_table (entity_table k) (table (entity_table k) (db w) ++ [row]) (db w) in
  db_ok d ∧ create k record w = (Ok (Some row), set_db d (draw w)).
Proof.
  intros Hok Hrec Hown Hu Hfresh row d.
  assert (Hd : db_ok d).
  { apply db_ok_set_entity; [done|].
    apply (entity_rows_ok_snoc _ _ _ _ (uuids w (drawn w)) userId).
    - apply new_row_id.
    - by apply new_row_userId.
    - apply db_ok_iff in Hok as [_ H]. apply H.
    - split; [|done]. apply new_row_ok. by apply conforms_fields. }
  split; [done|].
  rewrite create_run by (by eapply conforms_no_id). cbn zeta.
  by rewrite decide_True.
Qed.

(** A loop of [create] calls over records of the insert type appends one
    row per record, when the owner exists and the identifiers drawn are
    fresh. *)
Lemma for_of_create k userId (items : list Obj) w :
  db_ok (db w) →
  VStr userId ∈ ids Users (db w) →
  Forall (λ item, conforms k (<["userId" := VStr userId]> item)) items →
  fresh_at w (entity_table k) (drawn w) (length items) →
  for_of items (λ item, _ ← create k (<["userId" := VStr userId]> item); mret tt) w =
    (Ok tt, after_loop k userId items w) ∧
  db_ok (db (after_loop k userId items w)).
Proof.
  intros Hok Hu Hitems. revert w Hok Hu.
  induction Hitems as [|item items Hitem _ IH]; intros w Hok Hu Hfresh.
  { rewrite after_loop_nil. done. }
  cbn [length] in Hfresh. apply fresh_at_S in Hfresh as (Hf0 & Hfresh & Hne).
  destruct (create_ok k _ w userId Hok Hitem) as [Hok1 Hcreate];
    [apply lookup_insert_eq|done|done|].
  set (r := new_row k (uuids w (drawn w)) (<["userId" := VStr userId]> item)) in *.
  set (d1 := set_table (entity_table k) (table (entity_table k) (db w) ++ [r]) (db w)) in *.
  set (w1 := set_db d1 (draw w)) in *.
  cbn [for_of]. erewrite bind_ok; [|erewrite bind_ok by exact Hcreate; reflexivity].
  destruct (IH w1) as [Hloop Hok2].
  - done.
  - unfold ids. subst w1 d1. rewrite db_set_db, table_set_table_ne by (by destruct k). done.
  - change (drawn w1) with (S (drawn w)). change (uuids w1) with (uuids w).
    destruct Hfresh as [Hnd Hall]. split; [done|].
    rewrite Forall_forall in Hall, Hne |- *. intros j Hj.
    unfold ids. subst w1 d1. rewrite db_set_db, table_set_table.
    rewrite (column_values_snoc "id" _ _ (VStr (uuids w (drawn w)))) by (done || apply new_row_id).
    intros [Hin|Hin%list_elem_of_singleton]%elem_of_app.
    + by apply (Hall j).
    + injection Hin as Hin. by apply (Hne j).
  - assert (Heq : after_loop k userId items w1 = after_loop k userId (item :: items) w).
    { unfold after_loop. subst w1 d1. cbn [rows_for length uuids drawn wall_clock pg_clock set_db draw].
      rewrite db_set_db, table_set_table, <- app_assoc. cbn [app].
      f_equal; [|lia]. by destruct k, (db w). }
    rewrite <- Heq. done.
Qed.

Lemma defaultTodos_conform userId :
  Forall (λ item, conforms Todo (<["userId" := VStr userId]> item))
    DatabaseStorage.defaultTodos.
Proof. repeat constructor; vm_compute; reflexivity. Qed.

Lemma defaultSchedule_conform userId :
  Forall (λ item, conforms ScheduleItem (<["userId" := VStr userId]> item))
    DatabaseStorage.defaultSchedule.
Proof. repeat constructor; vm_compute; reflexivity. Qed.

Lemma assignment_conform userId title dueDate completed category :
  conforms Assignment
    (<["userId" := VStr userId]> (DatabaseStorage.assignment title dueDate completed category)).
Proof. vm_compute. reflexivity. Qed.

Lemma defaultAssignments_conform userId today :
  Forall (λ item, conforms Assignment (<["userId" := VStr userId]> item))
    (DatabaseStorage.defaultAssignments today).
Proof. repeat constructor; apply assignment_conform. Qed.

Lemma getAll_run k userId w : getAll k userId w = (Ok (owned k userId (db w)), w).
Proof.
  assert (H : ∀ rows : list Obj,
             filter (λ r, holds (Eq "userId" userId) r = true) rows =
             filter (λ r : Obj, r !! "userId" = Some (VStr userId)) rows).
  { intros rows. apply list_filter_iff. intros r. cbn. apply bool_decide_eq_true. }
  destruct k; cbn [getAll];
    unfold DatabaseStorage.getTodos, DatabaseStorage.getScheduleItems,
      DatabaseStorage.getAssignments, DatabaseStorage.getQuickTasks,
      select_from_where, mbind, M_bind, get_db, mret, M_ret, owned;
    by rewrite H.
Qed.

Lemma rows_for_length k userId uu n items :
  length (rows_for k userId uu n items) = length items.
Proof. revert n. induction items as [|i rest IH]; intros n; cbn; [done|]. by rewrite IH. Qed.

Lemma rows_for_owned k userId uu n items :
  filter (λ r : Obj, r !! "userId" = Some (VStr userId)) (rows_for k userId uu n items)
  = rows_for k userId uu n items.
Proof.
  revert n. induction items as [|i rest IH]; intros n; [done|].
  cbn [rows_for]. rewrite filter_cons_True.
  - by rewrite IH.
  - apply new_row_userId, lookup_insert_eq.
Qed.

Lemma owned_after_loop k userId items w :
  owned k userId (db (after_loop k userId items w)) =
  owned k userId (db w) ++ rows_for k userId (uuids w) (drawn w) items.
Proof.
  unfold owned, after_loop. cbn [db]. rewrite table_set_table, filter_app.
  by rewrite rows_for_owned.
Qed.

Lemma table_after_loop_ne k userId items w t :
  t ≠ entity_table k → table t (db (after_loop k userId items w)) = table t (db w).
Proof. intros H. unfold after_loop. cbn [db]. by rewrite table_set_table_ne. Qed.

Lemma owned_after_loop_ne k k' userId u items w :
  k' ≠ k → owned k' u (db (after_loop k userId items w)) = owned k' u (db w).
Proof.
  intros H. unfold owned. rewrite table_after_loop_ne; [done|]. by destruct k, k'.
Qed.

Lemma seedUserData_guard userId w :
  owned Todo userId (db w) ≠ [] → DatabaseStorage.seedUserData userId w = (Ok tt, w).
Proof.
  intros H. unfold DatabaseStorage.seedUserData.
  erewrite bind_ok by apply (getAll_run Todo).
  rewrite bool_decide_eq_true_2; [done|].
  destruct (owned Todo userId (db w)); [done|cbn; lia].
Qed.


(** Seeding a user who exists and owns no todo runs the three loops, when
    the identifiers drawn are fresh. *)
Lemma seedUserData_run (w : World) (userId : string) :
  db_ok (db w) →
  VStr userId ∈ ids Users (db w) →
  owned Todo userId (db w) = [] →
  fresh_at w Todos (drawn w) 11 →
  fresh_at w ScheduleItems (drawn w + 11) 20 →
  fresh_at w Assignments (drawn w + 31) 3 →
  DatabaseStorage.seedUserData userId w = (Ok tt, seeded userId w).
Proof.
  intros Hok Hu Ht Hf1 Hf2 Hf3. unfold seeded.
  set (w1 := after_loop Todo userId DatabaseStorage.defaultTodos w).
  set (w2 := after_loop ScheduleItem userId DatabaseStorage.defaultSchedule w1).
  destruct (for_of_create Todo userId DatabaseStorage.defaultTodos w)
    as [Hl1 Hok1]; [done|done|apply defaultTodos_conform|done|].
  destruct (for_of_create ScheduleItem userId DatabaseStorage.defaultSchedule w1)
    as [Hl2 Hok2]; [done| |apply defaultSchedule_conform| |].
  { unfold ids. subst w1. by rewrite table_after_loop_ne. }
  { destruct Hf2 as [Hnd Hall]. split; [done|].
    unfold ids. subst w1. rewrite table_after_loop_ne by done. exact Hall. }
  destruct (for_of_create Assignment userId
              (DatabaseStorage.defaultAssignments (wall_clock w)) w2)
    as [Hl3 Hok3]; [done| |apply defaultAssignments_conform| |].
  { unfold ids. subst w2 w1. by rewrite !table_after_loop_ne. }
  { change (drawn w2) with (drawn w + 11 + 20)%nat.
    replace (drawn w + 11 + 20)%nat with (drawn w + 31)%nat by lia.
    destruct Hf3 as [Hnd Hall]. split; [done|].
    unfold ids. subst w2 w1. rewrite !table_after_loop_ne by done. exact Hall. }
  fold w1 in Hl1, Hok1. fold w2 in Hl2, Hok2.
  unfold DatabaseStorage.seedUserData.
  erewrite bind_ok by apply (getAll_run Todo).
  rewrite Ht. cbn [length]. rewrite bool_decide_eq_false_2 by lia.
  erewrite bind_ok by exact Hl1.
  erewrite bind_ok by exact Hl2.
  erewrite bind_ok by reflexivity.
  exact Hl3.
Qed.


(** ** The validation boundary *)

Lemma strip_lookup shape (input : Obj) key :
  strip shape input !! key =
  if decide (key ∈ name <$> shape) then input !! key else None.
Proof.
  case_decide as Hk; [|by apply strip_lookup_None].
  unfold strip. induction shape as [|c cs IH]; [by apply not_elem_of_nil in Hk|].
  cbn [omap list_omap]. destruct (input !! name c) as [v|] eqn:Hc; cbn [fmap option_fmap option_map].
  - cbn [list_to_map foldr uncurry fst snd]. change (<[name c := v]> ?m !! key) with (<[name c := v]> m !! key).
    destruct (decide (name c = key)) as [<-|Hne].
    + by rewrite lookup_insert_eq.
    + rewrite lookup_insert_ne by done. apply IH.
      rewrite fmap_cons in Hk. apply elem_of_cons in Hk as [?|?]; [congruence|done].
  - destruct (decide (name c = key)) as [<-|Hne].
    + rewrite Hc. apply not_elem_of_list_to_map_1. intros Hin.
      apply list_elem_of_fmap in Hin as ([k' v] & Heq & Hin). cbn in Heq.
      apply list_elem_of_omap in Hin as (c' & _ & Hv).
      destruct (input !! name c') eqn:Hc'; [|done]. cbn in Hv. injection Hv as <- <-.
      congruence.
    + apply IH. rewrite fmap_cons in Hk.
      apply elem_of_cons in Hk as [?|?]; [congruence|done].
Qed.

Lemma strip_idemp shape (input : Obj) : strip shape (strip shape input) = strip shape input.
Proof.
  apply map_eq. intros key. rewrite !strip_lookup. by case_decide.
Qed.

(** Parsed data is a record of the insert type, and agrees with the input
    on every field of the schema. *)
Lemma safeParse_data k input data :
  safeParse (insertSchema k) input = Some data →
  conforms k data ∧ ∀ c, c ∈ insertSchema k → data !! name c = input !! name c.
Proof.
  unfold conforms, safeParse.
  destruct (forallb _ _) eqn:Hall; [|done]. intros [= <-].
  assert (Hagree : ∀ c, c ∈ insertSchema k →
            strip (insertSchema k) input !! name c = input !! name c).
  { intros c Hc. rewrite strip_lookup, decide_True; [done|]. by apply list_elem_of_fmap_2. }
  split; [|done]. rewrite strip_idemp.
  replace (forallb _ (insertSchema k)) with true; [done|].
  symmetry. rewrite forallb_forall in Hall |- *. intros c Hc.
  rewrite Hagree by (by apply list_elem_of_In). by apply Hall.
Qed.

Lemma userIdColumn_insertSchema k : userIdColumn ∈ insertSchema k.
Proof. rewrite insertSchema_tail. destruct k; left. Qed.

(** What a create route does, in one step. *)
Lemma post_run k req w :
  post k req w =
    match safeParse (insertSchema k) (<["userId" := VStr (Routes.sub req)]> (Routes.body req)) with
    | None => (Routes.mkResponse 400 Routes.JsonParseError, w)
    | Some data =>
        match create k data w with
        | (Ok ro, w') => (Routes.mkResponse 201 (Routes.JsonRow ro), w')
        | (Throw _, w') =>
            (Routes.mkResponse 500 (Routes.JsonError (post_failure k)), w')
        end
    end.
Proof.
  destruct k; cbn [post create insertSchema];
    unfold Routes.post_todos, Routes.post_schedule, Routes.post_assignments,
      Routes.post_quick_tasks, Routes.try_catch;
    destruct (safeParse _ _) as [data|]; try done;
    unfold mbind, M_bind;
    match goal with |- context [?f data w] => destruct (f data w) as [[ro|e] w'] end; done.
Qed.

(** The create routes: the owner of a created row is the caller, whatever
    the body carries, and its identifier is the one the store drew. *)
Lemma post_owner_is_caller k req w r w' :
  post k req w = (Routes.mkResponse 201 (Routes.JsonRow (Some r)), w') →
  r !! "userId" = Some (VStr (Routes.sub req)) ∧
  r !! "id" = Some (VStr (uuids w (drawn w))).
Proof.
  rewrite post_run. destruct (safeParse _ _) as [data|] eqn:Hparse; [|done].
  apply safeParse_data in Hparse as [Hconf Hagree].
  specialize (Hagree userIdColumn (userIdColumn_insertSchema k)).
  cbn [name userIdColumn withReferences withNotNull varchar] in Hagree.
  rewrite lookup_insert_eq in Hagree.
  rewrite create_run by (by eapply conforms_no_id). cbn zeta.
  case_decide.
  - intros [= <- _]. split; [by apply new_row_userId|apply new_row_id].
  - discriminate.
Qed.

(** What an update route does, in one step. *)
Lemma patch_run k req w :
  patch k req w =
    match update k (Routes.params_id req) (Routes.sub req) (Routes.body req) w with
    | (Ok None, w') => (Routes.mkResponse 404 (Routes.JsonError (not_found k)), w')
    | (Ok (Some r), w') => (Routes.mkResponse 200 (Routes.JsonRow (Some r)), w')
    | (Throw _, w') => (Routes.mkResponse 500 (Routes.JsonError (patch_failure k)), w')
    end.
Proof.
  destruct k; cbn [patch update];
    unfold Routes.patch_todos, Routes.patch_schedule, Routes.patch_assignments,
      Routes.patch_quick_tasks, Routes.try_catch;
    unfold mbind at 1, M_bind at 1;
    match goal with |- context [?f (Routes.params_id req) (Routes.sub req) (Routes.body req) w] =>
      destruct (f (Routes.params_id req) (Routes.sub req) (Routes.body req) w) as [[[r|]|e] w']
    end; done.
Qed.

(** ** Categories *)

Lemma rows_for_defaultTodos_category userId uu n :
  Forall (λ r : Obj, r !! "category" = Some (VStr "daily") ∨
                     r !! "category" = Some (VStr "monthly"))
    (rows_for Todo userId uu n DatabaseStorage.defaultTodos).
Proof.
  unfold DatabaseStorage.defaultTodos. cbn [rows_for].
  repeat (apply Forall_cons; split); try (by constructor);
    unfold new_row; rewrite lookup_insert_ne by done;
    vm_compute; auto.
Qed.

Lemma new_row_category k u values :
  (k = Todo ∨ k = ScheduleItem ∨ k = Assignment) →
  new_row k u values !! "category" =
  Some (match values !! "category" with Some v => v | None => VStr "other" end).
Proof.
  unfold new_row. rewrite insertSchema_tail.
  intros [-> | [-> | ->]]; cbn -[lookup insert];
    repeat (rewrite lookup_insert_ne by done); rewrite lookup_insert_eq;
    unfold plain_cell;
    cbn [name default withReferences withNotNull withDefault text]; done.
Qed.

(** The insert schema of todos asks of a category that it be a string:
    a body that it accepts, it accepts with any other string as its
    category. *)
Lemma safeParse_any_category (input data : Obj) c :
  safeParse insertTodoSchema input = Some data →
  safeParse insertTodoSchema (<["category" := VStr c]> input)
    = Some (<["category" := VStr c]> data).
Proof.
  unfold safeParse.
  destruct (forallb _ _) eqn:Hall; [|done]. intros [= <-].
  replace (forallb _ insertTodoSchema) with true.
  - f_equal. apply map_eq. intros key.
    destruct (decide (key = "category")) as [->|Hne].
    + rewrite lookup_insert_eq, strip_lookup, decide_True, lookup_insert_eq; [done|].
      apply (bool_decide_unpack _). vm_compute. exact I.
    + rewrite lookup_insert_ne by done. rewrite !strip_lookup.
      case_decide; [|done]. by rewrite lookup_insert_ne.
  - symmetry. rewrite forallb_forall in Hall |- *. intros c0 Hc0.
    specialize (Hall c0 Hc0). apply list_elem_of_In in Hc0.
    change insertTodoSchema with (insertSchema Todo) in Hc0.
    rewrite insertSchema_tail in Hc0. cbn [tail columns entity_table todos] in Hc0.
    repeat (apply elem_of_cons in Hc0 as [->|Hc0]); try (by apply not_elem_of_nil in Hc0);
      cbn [name userIdColumn withReferences withNotNull withDefault varchar text
           boolean integer] in Hall |- *;
      try (by rewrite lookup_insert_ne by done).
    by rewrite lookup_insert_eq.
Qed.

(** C9, as the code has it.  The category of a todo is free text.  The
    insert schema accepts any string as a category, a declared tag or
    not.  A todo created from a record of the insert type carries the
    string of its record, or "other" when the record has none; and a
    create request that the route accepts, it accepts with any string
    as its category, and the created todo carries that string.  The
    todos that the seeding procedure inserts carry "daily" or "monthly",
    which are not among the declared tags. *)
Theorem todo_category_is_free_text (w : World) :
  db_ok (db w) →
  (∀ input data c,
     safeParse insertTodoSchema input = Some data →
     safeParse insertTodoSchema (<["category" := VStr c]> input)
       = Some (<["category" := VStr c]> data)) ∧
  (∀ record ro w',
     conforms Todo record →
     DatabaseStorage.createTodo record w = (Ok ro, w') →
     ∃ r c, ro = Some r ∧ r ∈ table Todos (db w') ∧
            r !! "category" = Some (VStr c) ∧
            (record !! "category" = None → c = "other") ∧
            (∀ v, record !! "category" = Some v → v = VStr c)) ∧
  (∀ req c,
     is_Some (safeParse insertTodoSchema
                (<["userId" := VStr (Routes.sub req)]> (Routes.body req))) →
     VStr (Routes.sub req) ∈ ids Users (db w) →
     VStr (uuids w (drawn w)) ∉ ids Todos (db w) →
     ∃ r w',
       Routes.post_todos
         (Routes.mkRequest (Routes.sub req) (Routes.params_id req)
            (<["category" := VStr c]> (Routes.body req))) w
         = (Routes.mkResponse 201 (Routes.JsonRow (Some r)), w') ∧
       r ∈ table Todos (db w') ∧
       r !! "category" = Some (VStr c)) ∧
  (∀ userId r,
     VStr userId ∈ ids Users (db w) →
     owned Todo userId (db w) = [] →
     fresh_at w Todos (drawn w) 11 →
     fresh_at w ScheduleItems (drawn w + 11) 20 →
     fresh_at w Assignments (drawn w + 31) 3 →
     r ∈ owned Todo userId (db (DatabaseStorage.seedUserData userId w).2) →
     r !! "category" = Some (VStr "daily") ∨
     r !! "category" = Some (VStr "monthly")) ∧
  ("daily" ∉ TaskCategory) ∧ ("monthly" ∉ TaskCategory).
Proof.
  intros Hok. split; [|split; [|split; [|split]]].
  - intros input data c. apply safeParse_any_category.
  - intros record ro w' Hrec Hcreate.
    change (create Todo record w = (Ok ro, w')) in Hcreate.
    rewrite create_run in Hcreate by (by eapply conforms_no_id). cbn zeta in Hcreate.
    case_decide; [|discriminate]. injection Hcreate as <- <-.
    pose proof (new_row_category Todo (uuids w (drawn w)) record (or_introl eq_refl)) as Hcat.
    apply conforms_fields in Hrec. rewrite insertSchema_tail in Hrec.
    cbn -[lookup] in Hrec. rewrite !andb_true_iff in Hrec. destruct_and!.
    destruct (record !! "category") as [v|] eqn:Hv.
    + destruct v as [| | |c|]; try done.
      exists (new_row Todo (uuids w (drawn w)) record), c. split; [done|]. split.
      { cbn [table db set_db todos_rows]. apply elem_of_app. right. by left. }
      split; [done|]. split; [done|]. by intros ? [= <-].
    + exists (new_row Todo (uuids w (drawn w)) record), "other". split; [done|]. split.
      { cbn [table db set_db todos_rows]. apply elem_of_app. right. by left. }
      done.
  - intros req c [data Hparse] Hu Hfresh.
    pose proof (safeParse_any_category _ _ c Hparse) as Hparse'.
    rewrite insert_insert_ne in Hparse' by done.
    pose proof Hparse' as [Hconf Hagree]%(safeParse_data Todo).
    pose proof (Hagree userIdColumn (userIdColumn_insertSchema Todo)) as Hown.
    cbn [name userIdColumn withReferences withNotNull varchar] in Hown.
    rewrite lookup_insert_eq in Hown.
    destruct (create_ok Todo _ w (Routes.sub req) Hok Hconf Hown Hu Hfresh) as [_ Hrun].
    eexists _, _. split; [|split].
    + change Routes.post_todos with (post Todo). rewrite post_run.
      cbn [Routes.sub Routes.body insertSchema]. rewrite Hparse', Hrun. reflexivity.
    + rewrite db_set_db, table_set_table. apply elem_of_app. right. by left.
    + rewrite (new_row_category Todo) by auto. by rewrite lookup_insert_eq.
  - intros userId r Hu Ht Hf1 Hf2 Hf3.
    rewrite seedUserData_run by done. cbn [snd]. unfold seeded.
    rewrite !owned_after_loop_ne by done. rewrite owned_after_loop, Ht. cbn [app].
    intros Hr.
    pose proof (rows_for_defaultTodos_category userId (uuids w) (drawn w)) as Hall.
    rewrite Forall_forall in Hall. by apply Hall.
  - split; apply (bool_decide_unpack _); vm_compute; exact I.
Qed.

(** The specification's sentence, that every persisted todo has one of
    the enumerated tags as its category, fails on the first todo the
    seeding procedure inserts: its category is "daily". *)
Lemma seeded_todo_category_not_a_tag :
  ¬ (∀ r : Obj,
       r ∈ table Todos (db (DatabaseStorage.seedUserData "alice" new_users).2) →
       ∃ c, r !! "category" = Some (VStr c) ∧ c ∈ TaskCategory).
Proof.
  intros H.
  destruct (H (new_row Todo "uuid-0"
                 (<["userId" := VStr "alice"]>
                    (DatabaseStorage.todo "Wake up at 6:30AM" false 1 "daily" "high"))))
    as (c & Hc & Hin).
  - apply (bool_decide_unpack _). vm_compute. exact I.
  - vm_compute in Hc. injection Hc as <-.
    revert Hin. apply (bool_decide_unpack _). vm_compute. exact I.
Qed.

(** ** Upserting users *)

Lemma build_row_stamped cols values w :
  Forall (λ c, default c = DefaultRandomUuid → is_Some (values !! name c)) cols →
  build_row cols values w = (Ok (stamped_row (pg_clock w) cols values), w).
Proof.
  induction 1 as [|c cs Hc _ IH]; [done|].
  cbn [build_row stamped_row foldr]. unfold stamped_cell.
  destruct (values !! name c) as [v|].
  - erewrite bind_ok by reflexivity. erewrite bind_ok by exact IH. done.
  - unfold default_value.
    destruct (default c); try (by destruct Hc as [? [=]]);
      try (erewrite bind_ok by reflexivity; erewrite bind_ok by exact IH; done).
Qed.

Lemma apply_set_filter cols (values r : Obj) :
  apply_set (filter (λ c, is_Some (values !! name c)) cols) values r =
  apply_set cols values r.
Proof.
  induction cols as [|c cs IH]; [done|].
  rewrite filter_cons. case_decide as Hc.
  - unfold apply_set in *. cbn [foldr]. by rewrite IH.
  - rewrite IH. unfold apply_set. cbn [foldr].
    destruct (values !! name c) eqn:E; [|done]. destruct Hc. eauto.
Qed.

Lemma apply_set_cons c cs (values r : Obj) :
  apply_set (c :: cs) values r =
  match values !! name c with
  | Some v => <[name c := v]> (apply_set cs values r)
  | None => apply_set cs values r
  end.
Proof. reflexivity. Qed.

Lemma apply_set_lookup cols (values r : Obj) key :
  apply_set cols values r !! key =
  if decide (key ∈ name <$> cols)
  then match values !! key with Some v => Some v | None => r !! key end
  else r !! key.
Proof.
  induction cols as [|c cs IH].
  { rewrite decide_False; [done|]. apply not_elem_of_nil. }
  rewrite apply_set_cons, fmap_cons.
  destruct (decide (key = name c)) as [->|Hne].
  - rewrite (decide_True (P := name c ∈ name c :: (name <$> cs))) by left.
    destruct (values !! name c) as [v|] eqn:E.
    + by rewrite lookup_insert_eq.
    + rewrite IH, ?E. by case_decide.
  - assert (Hiff : key ∈ name c :: (name <$> cs) ↔ key ∈ name <$> cs).
    { rewrite elem_of_cons. split; [by intros [?|?]|by right]. }
    assert (Hrest : apply_set (c :: cs) values r !! key = apply_set cs values r !! key).
    { rewrite apply_set_cons. destruct (values !! name c); [|done].
      by rewrite lookup_insert_ne. }
    rewrite <- apply_set_cons, Hrest, IH.
    destruct (decide (key ∈ name <$> cs)) as [Hin|Hnin].
    + by rewrite decide_True by (by apply Hiff).
    + by rewrite decide_False by (by rewrite Hiff).
Qed.

Lemma stamped_row_lookup pg cols values c :
  NoDup (name <$> cols) → c ∈ cols →
  stamped_row pg cols values !! name c = Some (stamped_cell pg c values).
Proof.
  intros Hnd Hc. induction cols as [|c' cs IH]; [by apply not_elem_of_nil in Hc|].
  cbn [stamped_row foldr]. rewrite fmap_cons in Hnd. apply NoDup_cons in Hnd as [Hc' Hnd].
  apply elem_of_cons in Hc as [->|Hc].
  - by rewrite lookup_insert_eq.
  - rewrite lookup_insert_ne; [by apply IH|].
    intros Heq. apply Hc'. rewrite Heq. by apply list_elem_of_fmap_2.
Qed.

Lemma users_names_NoDup : NoDup (name <$> users).
Proof. apply (columns_names_NoDup Users). Qed.

(** A user row built from well-typed data is well formed. *)
Lemma stamped_row_ok pg userData :
  user_data_ok userData = true →
  is_Some (userData !! "id") →
  row_ok users (stamped_row pg users userData).
Proof.
  intros Hd Hid. unfold row_ok. apply Forall_forall. intros c Hc.
  rewrite stamped_row_lookup by (done || apply users_names_NoDup).
  unfold user_data_ok in Hd. rewrite forallb_forall in Hd.
  specialize (Hd c (proj1 (list_elem_of_In _ _) Hc)).
  unfold stamped_cell, field_ok, cell_ok in *.
  destruct (userData !! name c) as [v|] eqn:Hv; [done|].
  unfold users in Hc. 
  repeat (apply elem_of_cons in Hc as [->|Hc]); try (by apply not_elem_of_nil in Hc);
    try done.
  cbn in Hv. rewrite Hv in Hid. by destruct Hid.
Qed.

Lemma db_ok_set_users d rows :
  db_ok d → user_rows_ok rows →
  (∀ v, v ∈ ids Users d → v ∈ column_values "id" rows) →
  db_ok (set_table Users rows d).
Proof.
  intros [_ He]%db_ok_iff Hrows Hsub. apply db_ok_iff. split; [done|].
  intros k. destruct (He k) as (H1 & H2 & H3). unfold entity_rows_ok, ids.
  rewrite table_set_table, table_set_table_ne by (by destruct k).
  split; [done|]. split; [done|].
  rewrite Forall_forall in H3 |- *. intros v Hv. by apply Hsub, H3.
Qed.

Lemma column_values_elem_inv k (rows : list Obj) v :
  v ∈ column_values k rows → ∃ r, r ∈ rows ∧ r !! k = Some v.
Proof.
  unfold column_values. intros [_ Hin]%list_elem_of_filter.
  by apply list_elem_of_omap in Hin.
Qed.

Lemma column_values_null k (r : Obj) :
  r !! k = Some VNull ∨ r !! k = None → column_values k [r] = [].
Proof.
  intros H. rewrite column_values_cons.
  destruct H as [-> | ->]; [by rewrite decide_False by (by intros ?)|done].
Qed.

Lemma column_values_one k (r : Obj) v :
  r !! k = Some v → v ≠ VNull → column_values k [r] = [v].
Proof. intros Hr Hv. rewrite column_values_cons, Hr. by rewrite decide_True. Qed.

Lemma column_values_middle k (l1 l2 : list Obj) r :
  column_values k (l1 ++ r :: l2) =
  column_values k l1 ++ column_values k [r] ++ column_values k l2.
Proof.
  rewrite (column_values_app k l1 (r :: l2)). f_equal.
  change (r :: l2) with ([r] ++ l2). apply column_values_app.
Qed.

Lemma existsb_id_false (rows : list Obj) i :
  existsb (λ r : Obj, bool_decide (r !! "id" = Some (VStr i))) rows = false →
  VStr i ∉ column_values "id" rows.
Proof.
  intros Hex (r & Hr & Hid)%column_values_elem_inv.
  assert (existsb (λ r : Obj, bool_decide (r !! "id" = Some (VStr i))) rows = true); [|congruence].
  apply existsb_exists. exists r. split; [by apply list_elem_of_In|].
  by apply bool_decide_eq_true.
Qed.

Lemma existsb_id_true (rows : list Obj) i :
  existsb (λ r : Obj, bool_decide (r !! "id" = Some (VStr i))) rows = true →
  ∃ idx r, rows !! idx = Some r ∧ r !! "id" = Some (VStr i).
Proof.
  intros (r & Hr%list_elem_of_In & Hid%bool_decide_eq_true)%existsb_exists.
  apply list_elem_of_lookup in Hr as [idx Hidx]. eauto.
Qed.

(** With distinct identifiers, an update on an identifier touches the
    one row that carries it. *)
Lemma column_values_perm k (l l' : list Obj) :
  l ≡ₚ l' → column_values k l ≡ₚ column_values k l'.
Proof. intros H. unfold column_values. by rewrite H. Qed.

Lemma user_rows_ok_perm (rows rows' : list Obj) :
  rows ≡ₚ rows' → user_rows_ok rows → user_rows_ok rows'.
Proof.
  intros H (Hrows & Hids & Hemails). split; [|split].
  - by rewrite <- H.
  - by rewrite <- (column_values_perm "id" _ _ H).
  - by rewrite <- (column_values_perm "email" _ _ H).
Qed.

Lemma filter_delete_same {A} (P : A → Prop) `{!∀ x, Decision (P x)} (l : list A) idx x :
  l !! idx = Some x → ¬ P x → filter P (base.delete idx l) = filter P l.
Proof.
  revert idx. induction l as [|a l IH]; intros idx Hidx Hx; [done|].
  destruct idx as [|n]; cbn in Hidx.
  - injection Hidx as ->. cbn [base.delete list_delete]. by rewrite filter_cons_False.
  - change (base.delete (S n) (a :: l)) with (a :: base.delete n l).
    rewrite !filter_cons. by rewrite (IH n).
Qed.

(** The [set] object of an upsert passes the builder and the backend's
    type check, for well-typed data. *)
Lemma upsert_set_settable date userData c v :
  user_data_ok userData = true → c ∈ users →
  upsert_set date userData !! name c = Some v →
  v = VNull ∨ has_type (ctype c) v = true.
Proof.
  intros Hd Hc. unfold upsert_set.
  unfold user_data_ok in Hd. rewrite forallb_forall in Hd.
  specialize (Hd c (proj1 (list_elem_of_In _ _) Hc)).
  destruct (decide (name c = "updatedAt")) as [Heq|Hne].
  - rewrite Heq, lookup_insert_eq. intros [= <-]. right.
    unfold users in Hc.
    repeat (apply elem_of_cons in Hc as [->|Hc]); try (by apply not_elem_of_nil in Hc);
      try done.
  - rewrite lookup_insert_ne by done. intros Hv. rewrite Hv in Hd.
    unfold field_ok in Hd. destruct v; auto.
Qed.

Lemma set_columns_upsert date userData w :
  user_data_ok userData = true →
  set_columns Users (upsert_set date userData) w =
    (Ok (filter (λ c, is_Some (upsert_set date userData !! name c)) users), w).
Proof.
  intros Hd. unfold set_columns.
  rewrite decide_False by apply insert_non_empty.
  cbn [columns].
  rewrite decide_False.
  2:{ intros Hnil.
      assert (withDefault DefaultNow (timestamp "updatedAt") ∈
                filter (λ c, is_Some (upsert_set date userData !! name c)) users) as Hin.
      { apply list_elem_of_filter. split.
        - unfold upsert_set. cbn [name withDefault timestamp]. rewrite lookup_insert_eq. eauto.
        - unfold users. set_solver. }
      rewrite Hnil in Hin. by apply not_elem_of_nil in Hin. }
  replace (forallb _ _) with true; [done|].
  symmetry. apply forallb_forall. intros c [_ Hc]%list_elem_of_In%list_elem_of_filter.
  destruct (upsert_set date userData !! name c) as [v|] eqn:Hv; [|done].
  apply bool_decide_eq_true. rewrite coerce_settable; [eauto|].
  by eapply upsert_set_settable.
Qed.

Lemma as_read_upsert date userData w :
  user_data_ok userData = true →
  as_read w Users (upsert_set date userData) = upsert_set date userData.
Proof.
  intros Hd. apply as_read_id. intros c v Hc Hv.
  apply coerce_settable. by eapply upsert_set_settable.
Qed.

Lemma stamped_row_id pg userData v :
  userData !! "id" = Some v → stamped_row pg users userData !! "id" = Some v.
Proof.
  intros H. change "id" with (name idColumn) at 1.
  rewrite stamped_row_lookup by (apply users_names_NoDup || left).
  unfold stamped_cell. cbn [name idColumn withDefault withPrimaryKey varchar]. by rewrite H.
Qed.

(** What [upsertUser] does, in one step, for well-typed data that carry
    an identifier. *)
Lemma upsertUser_run userData w i :
  user_data_ok userData = true →
  userData !! "id" = Some (VStr i) →
  DatabaseStorage.upsertUser userData w =
    let set := upsert_set (wall_clock w) userData in
    let row := stamped_row (pg_clock w) users userData in
    let rows := table Users (db w) in
    let conflicts := λ r : Obj, bool_decide (r !! "id" = Some (VStr i)) in
    if existsb conflicts rows
    then
      let upd := apply_set users set in
      let d := set_table Users (rewritten conflicts upd rows) (db w) in
      if decide (db_ok d)
      then (Ok (head (upd <$> filter (λ r, conflicts r = true) rows)), set_db d w)
      else (Throw ConstraintViolation, w)
    else
      let d := set_table Users (rows ++ [row]) (db w) in
      if decide (db_ok d) then (Ok (Some row), set_db d w)
      else (Throw ConstraintViolation, w).
Proof.
  intros Hd Hid. unfold DatabaseStorage.upsertUser.
  erewrite bind_ok by reflexivity.
  fold (upsert_set (wall_clock w) userData).
  unfold insert_values_onConflictDoUpdate_returning.
  unfold mbind at 1, M_bind at 1.
  erewrite bind_ok by (by apply set_columns_upsert).
  erewrite bind_ok by reflexivity. rewrite as_read_upsert by done.
  erewrite bind_ok.
  2:{ apply build_row_stamped. apply Forall_forall. intros c Hc Hdef.
      unfold columns, users in Hc.
      repeat (apply elem_of_cons in Hc as [->|Hc]); try (by apply not_elem_of_nil in Hc);
        try done; try (cbn; rewrite Hid; eauto). }
  erewrite bind_ok by reflexivity.
  rewrite (stamped_row_id _ _ _ Hid). cbn zeta.
  destruct (existsb _ _).
  - unfold mbind, M_bind, commit.
    set (cols := filter (λ c, is_Some (upsert_set (wall_clock w) userData !! name c))
                   (columns Users)).
    set (upd' := apply_set cols (upsert_set (wall_clock w) userData)).
    set (upd := apply_set users (upsert_set (wall_clock w) userData)).
    assert (Hupd : ∀ r, upd' r = upd r) by (intros r; apply apply_set_filter).
    assert (Heq2 : ∀ l : list Obj, upd' <$> l = upd <$> l).
    { intros l. apply list_fmap_ext. intros ? r _. apply Hupd. }
    unfold rewritten. rewrite !Heq2. destruct (decide _); reflexivity.
  - unfold mbind, M_bind, commit. destruct (decide _); reflexivity.
Qed.

Lemma NoDup_middle_replace {A} (l1 l2 X X' : list A) :
  NoDup (l1 ++ X ++ l2) →
  X' = X ∨ X' = [] ∨ (∃ v, X' = [v] ∧ (v ∉ l1) ∧ (v ∉ l2)) →
  NoDup (l1 ++ X' ++ l2).
Proof.
  intros Hnd [->|[->|(v & -> & H1 & H2)]]; [done| |].
  - cbn. eapply sublist_NoDup; [exact Hnd|].
    apply sublist_app; [done|]. by apply sublist_inserts_l.
  - assert (Hnd' : NoDup (l1 ++ l2)).
    { eapply sublist_NoDup; [exact Hnd|].
      apply sublist_app; [done|]. by apply sublist_inserts_l. }
    apply NoDup_app in Hnd' as (Ha & Hab & Hb).
    apply NoDup_app. split; [done|]. split.
    + intros x Hx [->%list_elem_of_singleton|Hx2]%elem_of_app; [done|by eapply Hab].
    + cbn. apply NoDup_cons. done.
Qed.

(** Replacing the row of a user keeps the e-mail addresses distinct when
    the new address is the old one, none, or one no other user has. *)
Lemma emails_NoDup_insert rows idx (r0 r' : Obj) i :
  NoDup (column_values "id" rows) →
  NoDup (column_values "email" rows) →
  rows !! idx = Some r0 →
  r0 !! "id" = Some (VStr i) →
  r' !! "email" = r0 !! "email" ∨ r' !! "email" = Some VNull ∨ r' !! "email" = None ∨
    (∃ e, r' !! "email" = Some (VStr e) ∧
          Forall (λ r : Obj, r !! "email" = Some (VStr e) → r !! "id" = Some (VStr i)) rows) →
  NoDup (column_values "email" (<[idx := r']> rows)).
Proof.
  intros Hids Hemails Hidx Hid Hcases.
  pose proof (lookup_lt_Some _ _ _ Hidx) as Hlt.
  rewrite insert_take_drop by done.
  rewrite <- (take_drop_middle _ _ _ Hidx) in Hids, Hemails.
  rewrite column_values_middle in Hids, Hemails |- *.
  rewrite (column_values_one "id" r0 (VStr i)) in Hids by done.
  apply (NoDup_middle_replace _ _ _ _ Hemails).
  destruct Hcases as [Heq|[Hnull|[Hnone|(e & He & Hfree)]]].
  - left. by rewrite !column_values_cons, Heq.
  - right. left. apply column_values_null. auto.
  - right. left. apply column_values_null. auto.
  - right. right. exists (VStr e). split; [by apply column_values_one|].
    assert (Hother : ∀ r : Obj, r ∈ take idx rows ++ drop (S idx) rows →
                       r !! "email" ≠ Some (VStr e)).
    { intros r Hr Hre.
      assert (Hrin : r ∈ rows).
      { rewrite <- (take_drop_middle _ _ _ Hidx).
        apply elem_of_app in Hr as [?|?]; apply elem_of_app; [by left|right; by right]. }
      rewrite Forall_forall in Hfree. pose proof (Hfree r Hrin Hre) as Hri.
      apply NoDup_app in Hids as (_ & Hdisj & Hr2).
      apply NoDup_cons in Hr2 as [Hnot2 _]. cbn in Hdisj.
      apply elem_of_app in Hr as [Hr|Hr].
      - apply (Hdisj (VStr i)); [by eapply column_values_elem|by left].
      - apply Hnot2. by eapply column_values_elem. }
    split; intros (r & Hr & Hre)%column_values_elem_inv;
      (eapply Hother; [|exact Hre]); apply elem_of_app; auto.
Qed.

Lemma user_data_email userData :
  user_data_ok userData = true →
  userData !! "email" = None ∨ userData !! "email" = Some VNull ∨
  ∃ e, userData !! "email" = Some (VStr e).
Proof.
  unfold user_data_ok, users. cbn -[lookup]. rewrite !andb_true_iff.
  intros (_ & H & _). destruct (userData !! "email") as [[]|]; try done; eauto.
Qed.

Lemma upsert_row_ok date userData (r0 : Obj) :
  user_data_ok userData = true →
  is_Some (userData !! "id") →
  row_ok users r0 →
  row_ok users (apply_set users (upsert_set date userData) r0).
Proof.
  intros Hd Hid Hr0. unfold row_ok in *. rewrite Forall_forall in Hr0 |- *.
  intros c Hc. rewrite apply_set_lookup.
  rewrite decide_True by (by apply list_elem_of_fmap_2).
  unfold upsert_set.
  destruct (decide (name c = "updatedAt")) as [Heq|Hne].
  - rewrite Heq, lookup_insert_eq. unfold users in Hc.
    repeat (apply elem_of_cons in Hc as [->|Hc]); try (by apply not_elem_of_nil in Hc);
      try done.
  - rewrite lookup_insert_ne by done.
    unfold user_data_ok in Hd. rewrite forallb_forall in Hd.
    specialize (Hd c (proj1 (list_elem_of_In _ _) Hc)).
    destruct (userData !! name c) as [v|] eqn:Hv; [|by apply Hr0].
    unfold field_ok in Hd. unfold cell_ok. done.
Qed.

(** An upsert of well-typed data with an identifier succeeds when the
    e-mail address is free: afterwards exactly one row carries the
    identifier, the rows of the other users are as they were, and the row
    is the prior row overwritten with the [set] object, or a new row when
    there was none. *)
Lemma upsertUser_spec userData w i :
  db_ok (db w) →
  user_data_ok userData = true →
  userData !! "id" = Some (VStr i) →
  email_free i userData (db w) →
  ∃ r' rows',
    DatabaseStorage.upsertUser userData w
      = (Ok (Some r'), set_db (set_table Users rows' (db w)) w) ∧
    db_ok (set_table Users rows' (db w)) ∧
    filter (λ r : Obj, r !! "id" = Some (VStr i)) rows' = [r'] ∧
    filter (λ r : Obj, r !! "id" ≠ Some (VStr i)) rows'
      = filter (λ r : Obj, r !! "id" ≠ Some (VStr i)) (table Users (db w)) ∧
    match filter (λ r : Obj, r !! "id" = Some (VStr i)) (table Users (db w)) with
    | [] => r' = stamped_row (pg_clock w) users userData
    | r0 :: _ => r' = apply_set users (upsert_set (wall_clock w) userData) r0
    end.
Proof.
  intros Hok Hd Hid Hfree.
  pose proof Hok as [(Hrows & Hids & Hemails) _]%db_ok_iff.
  rewrite (upsertUser_run _ _ i) by done. cbn zeta.
  destruct (existsb _ _) eqn:Hex.
  - apply existsb_id_true in Hex as (idx & r0 & Hidx & Hr0).
    assert (Hin : r0 ∈ table Users (db w)) by (by eapply list_elem_of_lookup_2).
    assert (Hsel : filter (λ r : Obj, r !! "id" = Some (VStr i)) (table Users (db w)) = [r0])
      by (by apply filter_key_unique).
    assert (Hsel' : filter (λ r : Obj, bool_decide (r !! "id" = Some (VStr i)) = true)
                      (table Users (db w)) = [r0]).
    { rewrite <- Hsel. apply list_filter_iff. intros r. apply bool_decide_eq_true. }
    rewrite (rewritten_single _ _ _ idx r0) by done. rewrite Hsel', Hsel.
    set (r' := apply_set users (upsert_set (wall_clock w) userData) r0).
    assert (Hr'id : r' !! "id" = Some (VStr i)).
    { subst r'. rewrite apply_set_lookup, decide_True by (unfold users; set_solver).
      unfold upsert_set. rewrite lookup_insert_ne by done. by rewrite Hid. }
    assert (Hidcol : column_values "id" (<[idx := r']> (table Users (db w)))
                     = column_values "id" (table Users (db w))).
    { apply (column_values_insert _ _ _ r0); [done|congruence]. }
    pose proof (delete_snoc_insert (table Users (db w)) idx r0 r' Hidx) as Hperm.
    assert (Hnew : db_ok (set_table Users (base.delete idx (table Users (db w)) ++ [r']) (db w))).
    { apply db_ok_set_users; [done| |].
      2:{ intros v Hv. rewrite (column_values_perm "id" _ _ Hperm). by rewrite Hidcol. }
      apply (user_rows_ok_perm (<[idx := r']> (table Users (db w)))); [done|].
      split; [|split].
      - apply Forall_insert; [done|]. apply upsert_row_ok; [done|by rewrite Hid|].
        rewrite Forall_forall in Hrows. by apply Hrows.
      - by rewrite Hidcol.
      - apply (emails_NoDup_insert _ _ r0 r' i); try done.
        subst r'. rewrite apply_set_lookup, decide_True by (unfold users; set_solver).
        unfold upsert_set. rewrite lookup_insert_ne by done.
        unfold email_free in Hfree.
        destruct (user_data_email _ Hd) as [Hn|[Hn|(e & He)]].
        + rewrite Hn. auto.
        + rewrite Hn. auto.
        + rewrite He in Hfree |- *. right. right. right. eauto. }
    exists r', (base.delete idx (table Users (db w)) ++ [r']).
    rewrite decide_True by done. cbn [head fmap list_fmap].
    split; [done|]. split; [done|]. split; [|split; [|done]].
    + apply filter_key_unique; [|apply elem_of_app; right; by left|done].
      rewrite (column_values_perm "id" _ _ Hperm). by rewrite Hidcol.
    + rewrite filter_app, (filter_delete_same _ _ idx r0) by (done || (intros Hne; by apply Hne)).
      rewrite (filter_cons_False _ r'); [by rewrite app_nil_r|].
      intros Hne. by apply Hne.
  - pose proof (existsb_id_false _ _ Hex) as Hnone.
    assert (Hsel : filter (λ r : Obj, r !! "id" = Some (VStr i)) (table Users (db w)) = []).
    { apply filter_none. intros r Hr Hri. apply Hnone. by eapply column_values_elem. }
    set (row := stamped_row (pg_clock w) users userData).
    pose proof (stamped_row_id (pg_clock w) _ _ Hid) as Hrowid. fold row in Hrowid.
    assert (Hnew : db_ok (set_table Users (table Users (db w) ++ [row]) (db w))).
    { apply db_ok_set_users; [done| |].
      2:{ intros v Hv. rewrite column_values_app. apply elem_of_app. by left. }
      split; [|split].
      - apply Forall_app. split; [done|]. apply Forall_singleton.
        apply stamped_row_ok; [done|by rewrite Hid].
      - rewrite (column_values_snoc "id" _ _ (VStr i)) by done.
        apply NoDup_app. split; [done|]. split; [|apply NoDup_singleton].
        by intros x Hx ->%list_elem_of_singleton.
      - assert (Hrowemail : row !! "email" =
                  Some (match userData !! "email" with Some v => v | None => VNull end)).
        { subst row. change "email" with (name (withUnique (varchar "email"))) at 1.
          rewrite stamped_row_lookup by (apply users_names_NoDup || (unfold users; set_solver)).
          unfold stamped_cell. cbn [name default withUnique varchar].
          by destruct (userData !! "email"). }
        rewrite column_values_app.
        unfold email_free in Hfree.
        destruct (user_data_email _ Hd) as [Hn|[Hn|(e & He)]].
        + rewrite Hn in Hrowemail. rewrite column_values_null by auto. by rewrite app_nil_r.
        + rewrite Hn in Hrowemail. rewrite column_values_null by auto. by rewrite app_nil_r.
        + rewrite He in Hfree, Hrowemail. cbn in Hrowemail.
          rewrite (column_values_one "email" row (VStr e)) by done.
          apply NoDup_app. split; [done|]. split; [|apply NoDup_singleton].
          intros x Hx ->%list_elem_of_singleton.
          apply column_values_elem_inv in Hx as (r & Hr & Hre).
          rewrite Forall_forall in Hfree. apply Hnone.
          eapply column_values_elem; [exact Hr|]. by apply Hfree. }
    exists row, (table Users (db w) ++ [row]).
    rewrite decide_True by done. rewrite Hsel.
    split; [done|]. split; [done|]. split; [|split; [|done]].
    + rewrite filter_app, Hsel. cbn [app]. by rewrite filter_cons_True.
    + rewrite filter_app. rewrite (filter_cons_False _ row); [by rewrite app_nil_r|].
      intros Hne. by apply Hne.
Qed.

(** C7, as the code has it.  Two upserts of well-typed data with the
    same identifier, with e-mail addresses no other user has, both
    succeed and leave exactly one row with that identifier.  In that row
    every field the second call supplies has the second call's value and
    every other field, the update time apart, is as the first call left
    it.  The update time is the application clock's reading at the second
    call; what the first call stored is the backend clock's reading (or
    the supplied time) when it inserted and the application clock's
    reading when it updated, so the second time is strictly later only
    when the application clock at the second call is past that. *)
Theorem upsertUser_twice_one_row (w : World) (u1 u2 : Obj) (i : string)
    (date2 : JsDate) (pg2 : Z) :
  db_ok (db w) →
  user_data_ok u1 = true →
  user_data_ok u2 = true →
  u1 !! "id" = Some (VStr i) →
  u2 !! "id" = Some (VStr i) →
  email_free i u1 (db w) →
  email_free i u2 (db w) →
  ∃ r1 w1 r2 w2,
    DatabaseStorage.upsertUser u1 w = (Ok (Some r1), w1) ∧
    DatabaseStorage.upsertUser u2 (set_clocks date2 pg2 w1) = (Ok (Some r2), w2) ∧
    filter (λ r : Obj, r !! "id" = Some (VStr i)) (table Users (db w2)) = [r2] ∧
    (∀ c, c ∈ users → name c ≠ "updatedAt" →
       r2 !! name c = match u2 !! name c with Some v => Some v | None => r1 !! name c end) ∧
    r2 !! "updatedAt" = Some (VDate (getTime date2)) ∧
    r1 !! "updatedAt" =
      Some (match filter (λ r : Obj, r !! "id" = Some (VStr i)) (table Users (db w)) with
            | [] => match u1 !! "updatedAt" with
                    | Some v => v
                    | None => VDate (pg_clock w)
                    end
            | _ :: _ => VDate (getTime (wall_clock w))
            end) ∧
    (∀ t1, r1 !! "updatedAt" = Some (VDate t1) → t1 < getTime date2 →
       ∃ t2, r2 !! "updatedAt" = Some (VDate t2) ∧ t1 < t2).
Proof.
  intros Hok Hd1 Hd2 Hid1 Hid2 Hfree1 Hfree2.
  destruct (upsertUser_spec u1 w i) as (r1 & rows1 & Hrun1 & Hok1 & Hone1 & Hrest1 & Hr1);
    [done..|].
  set (w1 := set_db (set_table Users rows1 (db w)) w) in *.
  assert (Hfree2' : email_free i u2 (db (set_clocks date2 pg2 w1))).
  { unfold email_free in *. destruct (u2 !! "email") as [[| | |e|]|]; try done.
    cbn [set_clocks db]. subst w1. rewrite db_set_db, table_set_table.
    rewrite Forall_forall in Hfree2 |- *. intros r Hr He.
    destruct (decide (r !! "id" = Some (VStr i))) as [|Hne]; [done|].
    apply Hfree2; [|done].
    assert (r ∈ filter (λ r : Obj, r !! "id" ≠ Some (VStr i)) rows1) as Hin
      by (by apply list_elem_of_filter).
    rewrite Hrest1 in Hin. by apply list_elem_of_filter in Hin as [_ ?]. }
  destruct (upsertUser_spec u2 (set_clocks date2 pg2 w1) i)
    as (r2 & rows2 & Hrun2 & Hok2 & Hone2 & Hrest2 & Hr2); [done..|].
  change (db (set_clocks date2 pg2 w1)) with (db w1) in *.
  change (wall_clock (set_clocks date2 pg2 w1)) with date2 in *.
  assert (Htab1 : table Users (db w1) = rows1) by (subst w1; by rewrite db_set_db, table_set_table).
  rewrite Htab1, Hone1 in Hr2. subst r2.
  assert (Hup2 : apply_set users (upsert_set date2 u2) r1 !! "updatedAt"
                 = Some (VDate (getTime date2))).
  { rewrite apply_set_lookup, decide_True by (unfold users; set_solver).
    unfold upsert_set. by rewrite lookup_insert_eq. }
  exists r1, w1. eexists. eexists. split; [done|]. split; [exact Hrun2|].
  split; [by rewrite db_set_db, table_set_table|].
  split; [|split; [done|split]].
  - intros c Hc Hne. rewrite apply_set_lookup.
    rewrite decide_True by (by apply list_elem_of_fmap_2).
    unfold upsert_set. by rewrite lookup_insert_ne.
  - clear Hrun1 Hrun2 Hone1 Hone2 Hup2 Hrest1 Hrest2. revert Hr1.
    destruct (filter _ (table Users (db w))) as [|r0 ?]; intros ->.
    + change "updatedAt" with (name (withDefault DefaultNow (timestamp "updatedAt"))) at 1.
      rewrite stamped_row_lookup by (apply users_names_NoDup || (unfold users; set_solver)).
      unfold stamped_cell. cbn [name default withDefault timestamp].
      by destruct (u1 !! "updatedAt").
    + rewrite apply_set_lookup, decide_True by (unfold users; set_solver).
      unfold upsert_set. by rewrite lookup_insert_eq.
  - intros t1 _ Hlt. eauto.
Qed.

(** The specification's sentence, that the update time after the second
    call is strictly later, fails when both calls read the same time off
    the application clock: Alice exists, both upserts update her row, and
    both store the same update time. *)
Lemma upsertUser_same_reading_not_later :
  ¬ (∀ r1 w1 r2 w2 t1 t2,
       DatabaseStorage.upsertUser {[ "id" := VStr "alice"; "firstName" := VStr "Al" ]} two_users
         = (Ok (Some r1), w1) →
       DatabaseStorage.upsertUser {[ "id" := VStr "alice"; "firstName" := VStr "Alice" ]} w1
         = (Ok (Some r2), w2) →
       r1 !! "updatedAt" = Some (VDate t1) →
       r2 !! "updatedAt" = Some (VDate t2) →
       t1 < t2).
Proof.
  intros H.
  pose (w1 := (DatabaseStorage.upsertUser
                 {[ "id" := VStr "alice"; "firstName" := VStr "Al" ]} two_users).2).
  pose (r1 := <["firstName" := VStr "Al"]>
                (<["updatedAt" := VDate 1709030000000]>
                   (user_row "alice" "alice@example.com" "Alice" 1709000000000))).
  pose (r2 := <["firstName" := VStr "Alice"]> r1).
  pose (w2 := (DatabaseStorage.upsertUser
                 {[ "id" := VStr "alice"; "firstName" := VStr "Alice" ]} w1).2).
  specialize (H r1 w1 r2 w2 1709030000000 1709030000000).
  assert (1709030000000 < 1709030000000); [|lia].
  apply H; vm_compute; reflexivity.
Qed.

(** ** Unvalidated update bodies *)

Lemma set_columns_field t c f v w :
  c ∈ columns t → name c = f →
  v = VNull ∨ has_type (ctype c) v = true →
  set_columns t {[f := v]} w = (Ok [c], w).
Proof. intros Hc <- Hv. by apply set_columns_singleton. Qed.

Lemma apply_set_field c f v (r : Obj) :
  name c = f → apply_set [c] {[f := v]} r = <[f := v]> r.
Proof. intros <-. apply apply_set_singleton. Qed.

Lemma as_read_field w t c f v :
  c ∈ columns t → name c = f →
  v = VNull ∨ has_type (ctype c) v = true →
  as_read w t {[f := v]} = {[f := v]}.
Proof. intros Hc <- Hv. apply as_read_singleton; [done|by apply coerce_settable]. Qed.

(** The update routes hand the body to the store as it comes.  A body
    that names another existing user as [userId] gives the caller's row
    to that user, for every kind and in every consistent state. *)
Lemma patch_userId_reassigns k w idx (E : Obj) id A B :
  db_ok (db w) →
  table (entity_table k) (db w) !! idx = Some E →
  E !! "id" = Some (VStr id) →
  E !! "userId" = Some (VStr A) →
  VStr B ∈ ids Users (db w) →
  patch k (Routes.mkRequest A id {[ "userId" := VStr B ]}) w =
    (Routes.mkResponse 200 (Routes.JsonRow (Some (<["userId" := VStr B]> E))),
     set_db (set_table (entity_table k)
               (base.delete idx (table (entity_table k) (db w)) ++ [<["userId" := VStr B]> E])
               (db w)) w).
Proof.
  intros Hok Hidx Hid Hown HB.
  pose proof (db_ok_ids_NoDup _ (entity_table k) Hok) as Hnd. unfold ids in Hnd.
  assert (Hin : E ∈ table (entity_table k) (db w)) by (by eapply list_elem_of_lookup_2).
  assert (Hcol : userIdColumn ∈ columns (entity_table k)).
  { rewrite columns_entity. right. apply userIdColumn_insertSchema. }
  rewrite patch_run. cbn [Routes.params_id Routes.sub Routes.body].
  rewrite update_run. cbn zeta.
  rewrite (set_columns_field _ userIdColumn) by auto.
  rewrite (as_read_field _ _ userIdColumn) by auto.
  rewrite (select_scoped_row _ _ E id A A), (decide_True (P := A = A)) by done.
  rewrite (rewritten_single _ _ _ idx E).
  2: done.
  2:{ rewrite (select_scoped_row _ _ E id A A) by done. by rewrite decide_True. }
  cbn [head fmap list_fmap]. rewrite apply_set_field by done.
  rewrite decide_True; [done|].
  apply db_ok_set_entity; [done|].
  apply db_ok_iff in Hok as [_ He]. pose proof (He k) as Hk. destruct Hk as (Hrows & _ & _).
  apply (entity_rows_ok_snoc _ _ _ _ id B).
  - by rewrite lookup_insert_ne.
  - apply lookup_insert_eq.
  - eapply entity_rows_ok_sublist; [apply sublist_delete|apply He].
  - split; [|split; [by eapply column_values_delete_notin|done]].
    apply (row_ok_insert _ userIdColumn); [apply columns_names_NoDup|done|done|].
    rewrite Forall_forall in Hrows. by apply Hrows.
Qed.

(** A body that carries an [id] not in use renames the caller's row. *)
Lemma patch_id_renames k w idx (E : Obj) id A id' :
  db_ok (db w) →
  table (entity_table k) (db w) !! idx = Some E →
  E !! "id" = Some (VStr id) →
  E !! "userId" = Some (VStr A) →
  VStr id' ∉ ids (entity_table k) (db w) →
  patch k (Routes.mkRequest A id {[ "id" := VStr id' ]}) w =
    (Routes.mkResponse 200 (Routes.JsonRow (Some (<["id" := VStr id']> E))),
     set_db (set_table (entity_table k)
               (base.delete idx (table (entity_table k) (db w)) ++ [<["id" := VStr id']> E])
               (db w)) w).
Proof.
  intros Hok Hidx Hid Hown Hfresh.
  pose proof (db_ok_ids_NoDup _ (entity_table k) Hok) as Hnd. unfold ids in Hnd, Hfresh.
  assert (Hin : E ∈ table (entity_table k) (db w)) by (by eapply list_elem_of_lookup_2).
  assert (Hcol : idColumn ∈ columns (entity_table k)).
  { rewrite columns_entity. left. }
  rewrite patch_run. cbn [Routes.params_id Routes.sub Routes.body].
  rewrite update_run. cbn zeta.
  rewrite (set_columns_field _ idColumn) by auto.
  rewrite (as_read_field _ _ idColumn) by auto.
  rewrite (select_scoped_row _ _ E id A A), (decide_True (P := A = A)) by done.
  rewrite (rewritten_single _ _ _ idx E).
  2: done.
  2:{ rewrite (select_scoped_row _ _ E id A A) by done. by rewrite decide_True. }
  cbn [head fmap list_fmap]. rewrite apply_set_field by done.
  rewrite decide_True; [done|].
  apply db_ok_set_entity; [done|].
  apply db_ok_iff in Hok as [_ He]. pose proof (He k) as Hk. destruct Hk as (Hrows & _ & Hfk).
  apply (entity_rows_ok_snoc _ _ _ _ id' A).
  - apply lookup_insert_eq.
  - by rewrite lookup_insert_ne.
  - eapply entity_rows_ok_sublist; [apply sublist_delete|apply He].
  - split; [|split].
    + apply (row_ok_insert _ idColumn); [apply columns_names_NoDup|done|done|].
      rewrite Forall_forall in Hrows. by apply Hrows.
    + intros Hx. apply Hfresh. eapply elem_of_sublist; [exact Hx|].
      apply column_values_sublist, sublist_delete.
    + rewrite Forall_forall in Hfk. apply Hfk.
      apply (column_values_elem "userId" E _ A); done.
Qed.

(** C2, at the failing input.  Alice sends PATCH /api/todos/t1 with the
    body { userId: "bob" }: the route answers 200 and the stored row is
    now owned by Bob. *)
Theorem patch_body_userId_changes_owner :
  Routes.patch_todos (Routes.mkRequest "alice" "t1" {[ "userId" := VStr "bob" ]}) two_users =
    (Routes.mkResponse 200
       (Routes.JsonRow (Some (<["userId" := VStr "bob"]> (todo_row "t1" "alice" "Read")))),
     set_db (set_table Todos [ <["userId" := VStr "bob"]> (todo_row "t1" "alice" "Read") ]
               (db two_users)) two_users) ∧
  DatabaseStorage.getTodo "t1" "bob"
    (Routes.patch_todos (Routes.mkRequest "alice" "t1" {[ "userId" := VStr "bob" ]}) two_users).2
  = (Ok (Some (todo_row "t1" "bob" "Read")),
     (Routes.patch_todos (Routes.mkRequest "alice" "t1" {[ "userId" := VStr "bob" ]}) two_users).2).
Proof. split; vm_compute; reflexivity. Qed.

(** C8, at the failing input.  Alice sends PATCH /api/todos/t1 with the
    body { id: "t2" }: the route answers 200 and the stored row now
    carries the identifier t2. *)
Theorem patch_body_id_changes_identifier :
  Routes.patch_todos (Routes.mkRequest "alice" "t1" {[ "id" := VStr "t2" ]}) two_users =
    (Routes.mkResponse 200
       (Routes.JsonRow (Some (todo_row "t2" "alice" "Read"))),
     set_db (set_table Todos [ todo_row "t2" "alice" "Read" ] (db two_users)) two_users) ∧
  ids Todos (db two_users) = [ VStr "t1" ] ∧
  ids Todos (db (Routes.patch_todos
                   (Routes.mkRequest "alice" "t1" {[ "id" := VStr "t2" ]}) two_users).2)
    = [ VStr "t2" ].
Proof. repeat split; vm_compute; reflexivity. Qed.

(** ** What the typed update interface guarantees *)

Lemma column_values_fmap_same k (g : Obj → Obj) (rows : list Obj) :
  (∀ r, g r !! k = r !! k) → column_values k (g <$> rows) = column_values k rows.
Proof.
  intros Hg. induction rows as [|x xs IH]; [done|].
  rewrite fmap_cons, !column_values_cons, Hg, IH. done.
Qed.

Lemma as_read_absent w t (values : Obj) key :
  values !! key = None → as_read w t values !! key = None.
Proof.
  intros Hkey. unfold as_read. induction (columns t) as [|c cs IH]; [done|].
  cbn [foldr]. destruct (values !! name c) as [v|] eqn:Hv; [|done].
  cbn. destruct (coerce w (ctype c) v); [|done].
  rewrite lookup_insert_ne; [done|]. intros Heq. congruence.
Qed.

(** An update whose [set] object has no property for a column leaves
    that column as it is in every row: through updates that carry neither
    [id] nor [userId], identifiers and owners never change. *)
Lemma update_keeps_absent_column k id userId updates key w ro w' :
  updates !! key = None →
  update k id userId updates w = (Ok ro, w') →
  column_values key (table (entity_table k) (db w'))
    ≡ₚ column_values key (table (entity_table k) (db w)) ∧
  ∀ r, ro = Some r → ∃ r0, r0 ∈ table (entity_table k) (db w) ∧ r !! key = r0 !! key.
Proof.
  intros Hkey. rewrite update_run. cbn zeta.
  destruct (set_columns _ _ w) as [[cols|e] w1]; [|discriminate].
  set (upd := apply_set cols (as_read w (entity_table k) updates)).
  assert (Hsame : ∀ r : Obj, upd r !! key = r !! key).
  { intros r. subst upd. rewrite apply_set_lookup, as_read_absent by done. by case_decide. }
  set (sel := filter (λ r, holds (scoped id userId) r = true) (table (entity_table k) (db w))).
  assert (Hsel : ∀ r, r ∈ sel → r ∈ table (entity_table k) (db w)).
  { intros r Hr. by apply list_elem_of_filter in Hr as [_ ?]. }
  assert (Hrows' : column_values key
                     (rewritten (holds (scoped id userId)) upd (table (entity_table k) (db w)))
                   ≡ₚ column_values key (table (entity_table k) (db w))).
  { unfold rewritten. rewrite column_values_app, column_values_fmap_same by done.
    rewrite <- column_values_app. apply column_values_perm.
    rewrite Permutation_app_comm. apply filter_app_complement. }
  clearbody sel upd.
  case_decide; [|discriminate]. intros Heq. injection Heq as <- <-.
  split.
  - by rewrite db_set_db, table_set_table.
  - intros r Hr. destruct sel as [|r0 rs]; [done|].
    cbn in Hr. injection Hr as <-. exists r0. split; [|done].
    apply Hsel. by left.
Qed.

(** ** The specification's example *)

(** Creating the todo { title: "Read", dayOfWeek: 1 } as Alice: the row
    has the defaults, a drawn identifier, and Alice as its owner. *)
Example post_todo_read :
  (Routes.post_todos
     (Routes.mkRequest "alice" "" {[ "title" := VStr "Read"; "dayOfWeek" := VNum 1 ]})
     new_users).1
  = Routes.mkResponse 201 (Routes.JsonRow (Some (todo_row "uuid-0" "alice" "Read"))).
Proof. vm_compute. reflexivity. Qed.

(** A [userId] or an [id] in the body of a create request changes
    neither the owner nor the identifier of the created row. *)
Example post_todo_ignores_userId_and_id :
  (Routes.post_todos
     (Routes.mkRequest "alice" ""
        {[ "title" := VStr "Read"; "dayOfWeek" := VNum 1;
           "userId" := VStr "bob"; "id" := VStr "t9" ]})
     new_users).1
  = Routes.mkResponse 201 (Routes.JsonRow (Some (todo_row "uuid-0" "alice" "Read"))).
Proof. vm_compute. reflexivity. Qed.

(** The due dates of the seeded assignments roll over the end of
    February in a leap year. *)
Example getDateString_leap :
  DatabaseStorage.getDateString (mkDate 1709030000000 2024 1 27) 5 = "2024-03-03" ∧
  DatabaseStorage.getDateString (mkDate 1709030000000 2024 1 27) 10 = "2024-03-08" ∧
  DatabaseStorage.getDateString (mkDate 1709030000000 2024 1 27) 3 = "2024-03-01" ∧
  DatabaseStorage.getDateString (mkDate 0 2023 11 29) 5 = "2024-01-03".
Proof. repeat split; vm_compute; reflexivity. Qed.

(** ** The theorems at concrete inputs *)

Lemma getOne_owner_only_witness :
  getOne Todo "t1" "bob" two_users = (Ok None, two_users) ∧
  getOne Todo "t1" "alice" two_users = (Ok (Some (todo_row "t1" "alice" "Read")), two_users).
Proof.
  destruct (getOne_owner_only Todo two_users (todo_row "t1" "alice" "Read") "t1" "alice")
    as (Hother & Hown & _).
  - apply (bool_decide_unpack _). vm_compute. exact I.
  - apply (bool_decide_unpack _). vm_compute. exact I.
  - vm_compute. reflexivity.
  - vm_compute. reflexivity.
  - split; [apply Hother; discriminate | exact Hown].
Defined.

Lemma create_fresh_id_then_getOne_witness :
  ∃ r w',
    create Todo {[ "userId" := VStr "alice"; "title" := VStr "Write"; "dayOfWeek" := VNum 2 ]}
      two_users = (Ok (Some r), w') ∧
    r !! "id" = Some (VStr "uuid-0") ∧
    drawn w' = 1%nat ∧
    getOne Todo "uuid-0" "alice" w' = (Ok (Some r), w').
Proof.
  destruct (create_fresh_id_then_getOne Todo
              {[ "userId" := VStr "alice"; "title" := VStr "Write"; "dayOfWeek" := VNum 2 ]}
              two_users) as (Hinv & Hex & _).
  - apply (bool_decide_unpack _). vm_compute. exact I.
  - vm_compute. reflexivity.
  - destruct (proj2 (Hex "alice" eq_refl)) as (r & w' & Hcreate).
    + split; apply (bool_decide_unpack _); vm_compute; exact I.
    + destruct (Hinv _ _ Hcreate)
        as (r' & id & userId & Hr & Hid & Hdrawn & _ & Hu & _ & _ & Hnext & _ & _ & Hget).
      injection Hr as <-. vm_compute in Hu. injection Hu as <-.
      vm_compute in Hdrawn. subst id.
      exists r, w'. split; [exact Hcreate|]. split; [exact Hid|].
      split; [exact Hnext|exact Hget].
Defined.

Lemma update_changes_only_field_witness :
  (∃ w', update Todo "t1" "alice" {[ "title" := VStr "Write" ]} two_users
           = (Ok (Some (<["title" := VStr "Write"]> (todo_row "t1" "alice" "Read"))), w')) ∧
  (∃ w', update Todo "t1" "alice" {[ "dayOfWeek" := VStr "3" ]} two_users
           = (Ok (Some (<["dayOfWeek" := VNum 3]> (todo_row "t1" "alice" "Read"))), w')) ∧
  update Todo "t1" "bob" {[ "title" := VStr "Write" ]} two_users = (Ok None, two_users).
Proof.
  split; [|split].
  - destruct (update_changes_only_field Todo two_users 0 (todo_row "t1" "alice" "Read")
                "t1" "alice" "title" (VStr "Write")) as (_ & Hown & _).
    + apply (bool_decide_unpack _). vm_compute. exact I.
    + vm_compute. reflexivity.
    + vm_compute. reflexivity.
    + vm_compute. reflexivity.
    + apply Hown. vm_compute. reflexivity.
  - destruct (update_changes_only_field Todo two_users 0 (todo_row "t1" "alice" "Read")
                "t1" "alice" "dayOfWeek" (VStr "3")) as (_ & _ & Hread & _).
    + apply (bool_decide_unpack _). vm_compute. exact I.
    + vm_compute. reflexivity.
    + vm_compute. reflexivity.
    + vm_compute. reflexivity.
    + apply Hread; [discriminate|discriminate|discriminate|]. vm_compute. reflexivity.
  - destruct (update_changes_only_field Todo two_users 0 (todo_row "t1" "alice" "Read")
                "t1" "alice" "title" (VStr "Write")) as (_ & _ & _ & _ & Hother).
    + apply (bool_decide_unpack _). vm_compute. exact I.
    + vm_compute. reflexivity.
    + vm_compute. reflexivity.
    + vm_compute. reflexivity.
    + apply (Hother "bob" (VStr "Write")); [discriminate|]. vm_compute. reflexivity.
Defined.

Lemma delete_true_exactly_once_witness :
  ∃ w1, delete Todo "t1" "alice" two_users = (Ok true, w1) ∧
        delete Todo "t1" "alice" w1 = (Ok false, w1).
Proof.
  destruct (delete_true_exactly_once Todo two_users (todo_row "t1" "alice" "Read")
              "t1" "alice") as [(w1 & Hfirst & _ & _ & Hsecond) _].
  - apply (bool_decide_unpack _). vm_compute. exact I.
  - apply (bool_decide_unpack _). vm_compute. exact I.
  - vm_compute. reflexivity.
  - vm_compute. reflexivity.
  - exists w1. split; [exact Hfirst|exact Hsecond].
Defined.


Lemma upsertUser_twice_one_row_witness :
  ∃ r1 w1 r2 w2,
    DatabaseStorage.upsertUser {[ "id" := VStr "alice"; "firstName" := VStr "Al" ]} two_users
      = (Ok (Some r1), w1) ∧
    DatabaseStorage.upsertUser {[ "id" := VStr "alice"; "firstName" := VStr "Alice" ]}
      (set_clocks (mkDate 1709030009000 2024 1 27) 1709030009000 w1) = (Ok (Some r2), w2) ∧
    filter (λ r : Obj, r !! "id" = Some (VStr "alice")) (table Users (db w2)) = [r2] ∧
    r2 !! "firstName" = Some (VStr "Alice") ∧
    r2 !! "updatedAt" = Some (VDate 1709030009000).
Proof.
  destruct (upsertUser_twice_one_row two_users
              {[ "id" := VStr "alice"; "firstName" := VStr "Al" ]}
              {[ "id" := VStr "alice"; "firstName" := VStr "Alice" ]}
              "alice" (mkDate 1709030009000 2024 1 27) 1709030009000)
    as (r1 & w1 & r2 & w2 & H1 & H2 & Hone & Hfields & Hup & _).
  - apply (bool_decide_unpack _). vm_compute. exact I.
  - vm_compute. reflexivity.
  - vm_compute. reflexivity.
  - vm_compute. reflexivity.
  - vm_compute. reflexivity.
  - apply (bool_decide_unpack _). vm_compute. exact I.
  - apply (bool_decide_unpack _). vm_compute. exact I.
  - exists r1, w1, r2, w2. do 3 (split; [assumption|]). split; [|exact Hup].
    specialize (Hfields (varchar "firstName")). cbn [name varchar] in Hfields.
    rewrite Hfields; [vm_compute; reflexivity| |discriminate].
    unfold users. do 2 right. left.
Defined.

Lemma todo_category_is_free_text_witness :
  (∃ r w',
     Routes.post_todos
       (Routes.mkRequest "alice" ""
          (<["category" := VStr "errands"]>
             {[ "title" := VStr "Read"; "dayOfWeek" := VNum 1 ]})) new_users
       = (Routes.mkResponse 201 (Routes.JsonRow (Some r)), w') ∧
     r ∈ table Todos (db w') ∧
     r !! "category" = Some (VStr "errands")) ∧
  ("errands" ∉ TaskCategory) ∧
  Forall (λ r : Obj, r !! "category" = Some (VStr "daily") ∨
                     r !! "category" = Some (VStr "monthly"))
    (owned Todo "alice" (db (DatabaseStorage.seedUserData "alice" new_users).2)).
Proof.
  destruct (todo_category_is_free_text new_users) as (_ & _ & Hroute & Hseed & _).
  - apply (bool_decide_unpack _). vm_compute. exact I.
  - split; [|split].
    + destruct (Hroute (Routes.mkRequest "alice" ""
                          {[ "title" := VStr "Read"; "dayOfWeek" := VNum 1 ]}) "errands")
        as (r & w' & Hpost & Hin & Hcat).
      * vm_compute. eauto.
      * apply (bool_decide_unpack _). vm_compute. exact I.
      * apply (bool_decide_unpack _). vm_compute. exact I.
      * exists r, w'. split; [exact Hpost|]. split; [exact Hin|exact Hcat].
    + apply (bool_decide_unpack _). vm_compute. exact I.
    + apply Forall_forall. intros r. apply (Hseed "alice" r).
      * apply (bool_decide_unpack _). vm_compute. exact I.
      * vm_compute. reflexivity.
      * apply (bool_decide_unpack _). vm_compute. exact I.
      * apply (bool_decide_unpack _). vm_compute. exact I.
      * apply (bool_decide_unpack _). vm_compute. exact I.
Defined.
(** * Further properties of the storage class and the routes *)

(** ** Lists after a write *)

Lemma owned_set_table_ne k k' u rows d :
  k' ≠ k → owned k' u (set_table (entity_table k) rows d) = owned k' u d.
Proof.
  intros H. unfold owned. rewrite table_set_table_ne; [done|]. by destruct k, k'.
Qed.

Lemma owned_set_table k u rows d :
  owned k u (set_table (entity_table k) rows d)
  = filter (λ r : Obj, r !! "userId" = Some (VStr u)) rows.
Proof. unfold owned. by rewrite table_set_table. Qed.

(** X1. A created row shows up in its owner's list and nowhere else:
    the owner's list after the create has the rows it had before and
    the new row, which it did not have; the lists of the other users,
    and the lists of the other kinds, have the rows they had. *)
Theorem create_then_getAll (k : Entity) (record : Obj) (w : World) (owner : string)
    (r : Obj) (w' : World) :
  conforms k record →
  record !! "userId" = Some (VStr owner) →
  create k record w = (Ok (Some r), w') →
  (∃ before after,
     getAll k owner w = (Ok before, w) ∧
     getAll k owner w' = (Ok after, w') ∧
     after ≡ₚ r :: before ∧ (r ∉ before)) ∧
  (∀ u, u ≠ owner →
     ∃ before after,
       getAll k u w = (Ok before, w) ∧ getAll k u w' = (Ok after, w') ∧
       after ≡ₚ before ∧ (r ∉ after)) ∧
  (∀ k' u, k' ≠ k →
     ∃ before after,
       getAll k' u w = (Ok before, w) ∧ getAll k' u w' = (Ok after, w') ∧
       after ≡ₚ before).
Proof.
  intros Hrec Hown. rewrite create_run by (by eapply conforms_no_id). cbn zeta.
  case_decide as Hd; [|discriminate]. intros Heq. injection Heq as <- <-.
  pose proof (new_row_userId k (uuids w (drawn w)) record _ Hown) as Hrow.
  pose proof (new_row_id k (uuids w (drawn w)) record) as Hrid.
  set (r := new_row k (uuids w (drawn w)) record) in *.
  assert (Hnew : r ∉ table (entity_table k) (db w)).
  { intros Hin. apply (db_ok_ids_NoDup _ (entity_table k)) in Hd. unfold ids in Hd.
    rewrite table_set_table in Hd.
    rewrite (column_values_snoc "id" _ r (VStr (uuids w (drawn w)))) in Hd by done.
    apply NoDup_app in Hd as (_ & Hdisj & _).
    apply (Hdisj (VStr (uuids w (drawn w)))); [|by left].
    by apply (column_values_elem "id" r). }
  split; [|split].
  - eexists _, _. rewrite !getAll_run. split; [done|]. split; [done|].
    rewrite db_set_db, owned_set_table, filter_app, filter_cons_True by done.
    split; [by rewrite <- Permutation_cons_append|].
    by intros [_ ?]%list_elem_of_filter.
  - intros u Hu. eexists _, _. rewrite !getAll_run. split; [done|]. split; [done|].
    rewrite db_set_db, owned_set_table, filter_app.
    rewrite filter_cons_False, app_nil_r by (rewrite Hrow; intros [= ->]; done).
    split; [done|]. by intros [_ ?]%list_elem_of_filter.
  - intros k' u Hk. eexists _, _. rewrite !getAll_run. split; [done|]. split; [done|].
    by rewrite db_set_db, owned_set_table_ne.
Qed.

Lemma filter_filter_comm {A} (P Q : A → Prop) `{!∀ x, Decision (P x)} `{!∀ x, Decision (Q x)}
    (l : list A) :
  filter P (filter Q l) = filter Q (filter P l).
Proof.
  rewrite !list_filter_filter. apply list_filter_iff. intros x. tauto.
Qed.

(** X2. A delete never throws on a consistent state; afterwards a lookup
    of that identifier by that user finds nothing, the user's list has
    lost the rows with that identifier and no other, and the lists of the
    other users, the other kinds and the users table are what they
    were. *)
Theorem delete_then_gone (k : Entity) (id u : string) (w : World) :
  db_ok (db w) →
  ∃ b w',
    delete k id u w = (Ok b, w') ∧
    getOne k id u w' = (Ok None, w') ∧
    owned k u (db w') = filter (λ r : Obj, r !! "id" ≠ Some (VStr id)) (owned k u (db w)) ∧
    (∀ u', u' ≠ u → owned k u' (db w') = owned k u' (db w)) ∧
    (∀ k' u', k' ≠ k → owned k' u' (db w') = owned k' u' (db w)) ∧
    table Users (db w') = table Users (db w).
Proof.
  intros Hok. eexists _, _. rewrite delete_run by done. cbn zeta.
  split; [done|]. rewrite db_set_db.
  split; [|split; [|split; [|split]]].
  - rewrite getOne_run, db_set_db, table_set_table.
    rewrite (filter_none (λ r, holds (scoped id u) r = true)); [done|].
    by intros r [Hno _]%list_elem_of_filter.
  - rewrite owned_set_table. unfold owned.
    rewrite filter_filter_comm, !list_filter_filter. apply list_filter_iff.
    intros r. rewrite holds_scoped. tauto.
  - intros u' Hu'. rewrite owned_set_table. unfold owned.
    rewrite filter_filter_comm. apply filter_all.
    intros r [Hr _]%list_elem_of_filter [_ Hown]%holds_scoped. congruence.
  - intros k' u' Hk. by rewrite owned_set_table_ne.
  - rewrite table_set_table_ne; [done|]. by destruct k.
Qed.

(** X3. An update, whatever its [set] object, touches only rows that
    carry the given identifier and belong to the given user: every other
    row of the table is still in the table, as it was, the table has as
    many rows as before, the other tables are unchanged, and an update
    that throws changes nothing at all. *)
Theorem update_frame (k : Entity) (id u : string) (updates : Obj) (w : World)
    (res : Res (option Obj)) (w' : World) :
  update k id u updates w = (res, w') →
  (∀ e, res = Throw e → w' = w) ∧
  length (table (entity_table k) (db w')) = length (table (entity_table k) (db w)) ∧
  (∀ r, r ∈ table (entity_table k) (db w) →
        ¬ (r !! "id" = Some (VStr id) ∧ r !! "userId" = Some (VStr u)) →
        r ∈ table (entity_table k) (db w')) ∧
  (∀ t, t ≠ entity_table k → table t (db w') = table t (db w)).
Proof.
  rewrite update_run. cbn zeta.
  destruct (set_columns _ _ w) as [[cols|e] w1].
  2:{ intros Heq. injection Heq as <- <-.
      split; [done|]. split; [done|]. split; [|done]. by intros. }
  set (upd := apply_set cols _).
  pose proof (rewritten_length (holds (scoped id u)) upd (table (entity_table k) (db w)))
    as Hlen.
  assert (Hkeep : ∀ r, r ∈ table (entity_table k) (db w) →
            ¬ (r !! "id" = Some (VStr id) ∧ r !! "userId" = Some (VStr u)) →
            r ∈ rewritten (holds (scoped id u)) upd (table (entity_table k) (db w))).
  { intros r Hr Hno. apply rewritten_keeps; [done|]. by intros ?%holds_scoped. }
  set (sel := filter (λ r, holds (scoped id u) r = true) (table (entity_table k) (db w))).
  clearbody sel upd.
  case_decide.
  - intros Heq. injection Heq as <- <-. rewrite db_set_db, table_set_table.
    split; [done|]. split; [done|]. split; [done|].
    intros t Ht. by rewrite table_set_table_ne.
  - intros Heq. injection Heq as <- <-.
    split; [done|]. split; [done|]. split; [|done]. by intros.
Qed.

(** ** Updates by the owner, and lookups after them *)

(** The owner's rows: the row taken out of the table is taken out of
    the owner's list. *)
Lemma owned_replace k (w : World) idx (E E' : Obj) A :
  table (entity_table k) (db w) !! idx = Some E →
  E !! "userId" = Some (VStr A) →
  E' !! "userId" = Some (VStr A) →
  ∃ rest,
    owned k A (db w) ≡ₚ E :: rest ∧
    owned k A (set_table (entity_table k)
                 (base.delete idx (table (entity_table k) (db w)) ++ [E']) (db w))
      ≡ₚ E' :: rest.
Proof.
  intros Hidx Hown Hown'.
  exists (filter (λ r : Obj, r !! "userId" = Some (VStr A))
            (base.delete idx (table (entity_table k) (db w)))).
  split.
  - unfold owned. rewrite (delete_Permutation _ _ _ Hidx) at 1.
    by rewrite filter_cons_True.
  - rewrite owned_set_table, filter_app, filter_cons_True by done.
    by rewrite <- Permutation_cons_append.
Qed.

(** X4. After the owner updates a field of a row, other than its
    identifier and its owner, with a value that the backend reads as a
    value [v'] that is not [null], a lookup of the row by the owner
    returns the row with the field set to [v'], a lookup by anyone else
    still finds nothing, and the owner's list has the updated row
    instead of the old one and otherwise the rows it had. *)
Theorem update_then_getOne (k : Entity) (w : World) (idx : nat) (E : Obj)
    (id A f : string) (v v' : Val) :
  db_ok (db w) →
  table (entity_table k) (db w) !! idx = Some E →
  E !! "id" = Some (VStr id) →
  E !! "userId" = Some (VStr A) →
  f ≠ "id" → f ≠ "userId" → v' ≠ VNull →
  reads_as w (entity_table k) f v v' = true →
  ∃ w' before after rest,
    update k id A {[f := v]} w = (Ok (Some (<[f := v']> E)), w') ∧
    getOne k id A w' = (Ok (Some (<[f := v']> E)), w') ∧
    (∀ B, B ≠ A → getOne k id B w' = (Ok None, w')) ∧
    getAll k A w = (Ok before, w) ∧
    getAll k A w' = (Ok after, w') ∧
    before ≡ₚ E :: rest ∧
    after ≡ₚ <[f := v']> E :: rest.
Proof.
  intros Hok Hidx Hid Hown Hnid Hnown Hv' (c & Hc & <- & Hv)%reads_as_column.
  destruct (update_field_run k w idx E id A c v v') as [Hd Hrun]; [done..|].
  set (E' := <[name c := v']> E) in *.
  set (d := set_table _ _ (db w)) in *.
  assert (HE'id : E' !! "id" = Some (VStr id)) by (subst E'; by rewrite lookup_insert_ne).
  assert (HE'own : E' !! "userId" = Some (VStr A)) by (subst E'; by rewrite lookup_insert_ne).
  assert (HE'in : E' ∈ table (entity_table k) d).
  { subst d. rewrite table_set_table. apply elem_of_app. right. by left. }
  destruct (owned_replace k w idx E E' A Hidx Hown HE'own) as (rest & Hbefore & Hafter).
  exists (set_db d w), (owned k A (db w)), (owned k A d), rest.
  split; [done|]. split; [|split; [|split; [|split]]].
  - rewrite getOne_run, db_set_db.
    rewrite (select_scoped_row _ _ E' id A A) by done. by rewrite decide_True.
  - intros B HB. rewrite getOne_run, db_set_db.
    rewrite (select_scoped_row _ _ E' id A B) by done. by rewrite decide_False.
  - by rewrite getAll_run.
  - by rewrite getAll_run, db_set_db.
  - done.
Qed.

(** ** The routes *)

Lemma list_route_run k req w :
  list_route k req w =
    (Routes.mkResponse 200 (Routes.JsonRows (owned k (Routes.sub req) (db w))), w).
Proof.
  pose proof (getAll_run k (Routes.sub req) w) as H.
  destruct k; cbn [list_route getAll] in *;
    unfold Routes.get_todos, Routes.get_schedule, Routes.get_assignments,
      Routes.get_quick_tasks, Routes.try_catch;
    erewrite bind_ok by exact H; reflexivity.
Qed.

Lemma delete_route_run k req w :
  delete_route k req w =
    match delete k (Routes.params_id req) (Routes.sub req) w with
    | (Ok true, w') => (Routes.mkResponse 204 Routes.NoPayload, w')
    | (Ok false, w') => (Routes.mkResponse 404 (Routes.JsonError (not_found k)), w')
    | (Throw _, w') => (Routes.mkResponse 500 (Routes.JsonError (delete_failure k)), w')
    end.
Proof.
  destruct k; cbn [delete_route delete];
    unfold Routes.delete_todos, Routes.delete_schedule, Routes.delete_assignments,
      Routes.delete_quick_tasks, Routes.try_catch;
    unfold mbind at 1, M_bind at 1;
    match goal with |- context [?f (Routes.params_id req) (Routes.sub req) w] =>
      destruct (f (Routes.params_id req) (Routes.sub req) w) as [[[|]|e] w']
    end; done.
Qed.

Lemma plain_row_lookup cols values c :
  NoDup (name <$> cols) → c ∈ cols →
  plain_row cols values !! name c = Some (plain_cell c values).
Proof.
  intros Hnd Hc. induction cols as [|c' cs IH]; [by apply not_elem_of_nil in Hc|].
  cbn [plain_row foldr]. rewrite fmap_cons in Hnd. apply NoDup_cons in Hnd as [Hc' Hnd].
  apply elem_of_cons in Hc as [->|Hc].
  - by rewrite lookup_insert_eq.
  - rewrite lookup_insert_ne; [by apply IH|].
    intros Heq. apply Hc'. rewrite Heq. by apply list_elem_of_fmap_2.
Qed.

Lemma insertSchema_names_NoDup k : NoDup (name <$> insertSchema k).
Proof. destruct k; apply (bool_decide_unpack _); vm_compute; exact I. Qed.

Lemma insertSchema_no_id k c : c ∈ insertSchema k → name c ≠ "id".
Proof.
  intros Hc Hid.
  assert ("id" ∈ name <$> insertSchema k) as Hin.
  { rewrite <- Hid. by apply list_elem_of_fmap_2. }
  revert Hin. destruct k; apply (bool_decide_unpack _); vm_compute; exact I.
Qed.

(** X5. A create request whose body passes the insert schema, from a
    caller who exists, with a fresh identifier to draw, answers 201 with
    the stored row: the identifier is the drawn one, the owner is the
    caller, every other field is the body's value or, where the body has
    none, the column's default.  The caller's list route then shows the
    row along with the rows it showed before, and a lookup finds it. *)
Theorem post_then_list (k : Entity) (req : Routes.Request) (w : World) (data : Obj) :
  db_ok (db w) →
  VStr (Routes.sub req) ∈ ids Users (db w) →
  VStr (uuids w (drawn w)) ∉ ids (entity_table k) (db w) →
  safeParse (insertSchema k) (<["userId" := VStr (Routes.sub req)]> (Routes.body req))
    = Some data →
  ∃ r w',
    post k req w = (Routes.mkResponse 201 (Routes.JsonRow (Some r)), w') ∧
    r !! "id" = Some (VStr (uuids w (drawn w))) ∧
    r !! "userId" = Some (VStr (Routes.sub req)) ∧
    (∀ c, c ∈ insertSchema k → name c ≠ "userId" →
       r !! name c = Some (match Routes.body req !! name c with
                           | Some v => v
                           | None => match default c with
                                     | DefaultValue v => v
                                     | _ => VNull
                                     end
                           end)) ∧
    (∃ before after,
       list_route k req w = (Routes.mkResponse 200 (Routes.JsonRows before), w) ∧
       list_route k req w' = (Routes.mkResponse 200 (Routes.JsonRows after), w') ∧
       after ≡ₚ r :: before) ∧
    getOne k (uuids w (drawn w)) (Routes.sub req) w' = (Ok (Some r), w').
Proof.
  intros Hok Hu Hfresh Hparse.
  pose proof (safeParse_data _ _ _ Hparse) as [Hconf Hagree].
  assert (Hown : data !! "userId" = Some (VStr (Routes.sub req))).
  { pose proof (Hagree userIdColumn (userIdColumn_insertSchema k)) as H.
    cbn [name userIdColumn withReferences withNotNull varchar] in H.
    by rewrite lookup_insert_eq in H. }
  destruct (create_ok k data w (Routes.sub req)) as [Hd Hcreate]; [done..|].
  set (r := new_row k (uuids w (drawn w)) data) in *.
  set (d := set_table _ _ (db w)) in *.
  pose proof (new_row_id k (uuids w (drawn w)) data) as Hrid. fold r in Hrid.
  pose proof (new_row_userId k (uuids w (drawn w)) data _ Hown) as Hrown. fold r in Hrown.
  exists r, (set_db d (draw w)).
  split; [by rewrite post_run, Hparse, Hcreate|].
  split; [done|]. split; [done|]. split; [|split].
  - intros c Hc Hne. subst r. unfold new_row.
    rewrite lookup_insert_ne by (by apply not_eq_sym, (insertSchema_no_id k)).
    rewrite plain_row_lookup by (done || apply insertSchema_names_NoDup).
    unfold plain_cell. rewrite Hagree by done. by rewrite lookup_insert_ne.
  - eexists _, _. rewrite !list_route_run. split; [done|]. split; [done|].
    rewrite db_set_db. subst d. rewrite owned_set_table, filter_app.
    rewrite filter_cons_True by done. by rewrite <- Permutation_cons_append.
  - rewrite getOne_run, db_set_db.
    rewrite (select_scoped_row _ _ r (uuids w (drawn w)) (Routes.sub req) (Routes.sub req));
      try done.
    + by rewrite decide_True.
    + subst d. rewrite table_set_table. apply elem_of_app. right. by left.
Qed.

(** X6. A create request is answered 400 only without a write, and it is
    answered 400 whenever the body has no string [title]: the store is
    not touched. *)
Theorem post_rejected_no_write (k : Entity) (req : Routes.Request) (w : World) :
  (∀ resp w', post k req w = (resp, w') → Routes.status resp = 400%nat →
     w' = w ∧ resp = Routes.mkResponse 400 Routes.JsonParseError) ∧
  ((∀ s, Routes.body req !! "title" ≠ Some (VStr s)) →
     post k req w = (Routes.mkResponse 400 Routes.JsonParseError, w)).
Proof.
  split.
  - intros resp w'. rewrite post_run.
    destruct (safeParse _ _) as [data|]; [|by intros [= <- <-]].
    destruct (create k data w) as [[ro|e] w1]; intros [= <- <-]; discriminate.
  - intros Htitle. rewrite post_run.
    destruct (safeParse _ _) as [data|] eqn:Hparse; [|done].
    exfalso. unfold safeParse in Hparse.
    destruct (forallb _ _) eqn:Hall; [|done].
    rewrite forallb_forall in Hall.
    specialize (Hall (withNotNull (text "title"))).
    cbn [name withNotNull text] in Hall.
    rewrite lookup_insert_ne in Hall by done.
    assert (field_ok (withNotNull (text "title")) (Routes.body req !! "title") = true) as Hf.
    { apply Hall. apply list_elem_of_In. rewrite insertSchema_tail.
      destruct k; cbn; set_solver. }
    destruct (Routes.body req !! "title") as [[| | |s|]|] eqn:Ht; try done.
    by apply (Htitle s).
Qed.

(** When the builder and the backend accept a [set] object: it has a
    property, one of its properties is a column of the table, and the
    backend can read the value of every property that is a column. *)
Lemma set_columns_accepts t values w :
  (∃ cols, set_columns t values w = (Ok cols, w)) ↔
  values ≠ ∅ ∧
  (∃ c, c ∈ columns t ∧ is_Some (values !! name c)) ∧
  (∀ c v, c ∈ columns t → values !! name c = Some v → is_Some (coerce w (ctype c) v)).
Proof.
  unfold set_columns. split.
  - intros [cols H]. case_decide as Hne; [done|]. case_decide as Hcols; [done|].
    destruct (forallb _ _) eqn:Hall; [|done].
    split; [done|]. split.
    + destruct (filter _ (columns t)) as [|c cs] eqn:Hf; [done|].
      assert (c ∈ filter (λ c, is_Some (values !! name c)) (columns t)) as Hin
        by (rewrite Hf; by left).
      apply list_elem_of_filter in Hin as [? ?]. eauto.
    + intros c v Hc Hv. rewrite forallb_forall in Hall.
      specialize (Hall c). rewrite Hv in Hall.
      eapply bool_decide_eq_true_1, Hall.
      apply list_elem_of_In, list_elem_of_filter. rewrite Hv. eauto.
  - intros (Hne & (c & Hc & Hsome) & Hall).
    rewrite decide_False by done. rewrite decide_False.
    2:{ intros Hnil.
        assert (c ∈ filter (λ c, is_Some (values !! name c)) (columns t)) as Hin
          by (by apply list_elem_of_filter).
        rewrite Hnil in Hin. by apply not_elem_of_nil in Hin. }
    replace (forallb _ _) with true; [eauto|].
    symmetry. apply forallb_forall.
    intros c0 [_ Hc0]%list_elem_of_In%list_elem_of_filter.
    destruct (values !! name c0) as [v|] eqn:Hv; [|done].
    apply bool_decide_eq_true. by eapply Hall.
Qed.

(** X7. An update request for an identifier that the caller does not own
    (another user's row, or no row at all) never reaches a row: the
    world is unchanged and the answer is 404 or 500.  It is 404 exactly
    when the body has a property that is a column of the table and the
    backend can read every value it carries for a column; otherwise the
    statement fails and the answer is 500.  The answer depends on the
    body alone, so it is the same whether the identifier exists under
    another owner or not at all. *)
Theorem patch_not_owned (k : Entity) (req : Routes.Request) (w : World) :
  db_ok (db w) →
  (∀ r : Obj, r ∈ table (entity_table k) (db w) →
     r !! "id" = Some (VStr (Routes.params_id req)) →
     r !! "userId" ≠ Some (VStr (Routes.sub req))) →
  ∃ resp,
    patch k req w = (resp, w) ∧
    (resp = Routes.mkResponse 404 (Routes.JsonError (not_found k)) ∨
     resp = Routes.mkResponse 500 (Routes.JsonError (patch_failure k))) ∧
    (resp = Routes.mkResponse 404 (Routes.JsonError (not_found k)) ↔
     Routes.body req ≠ ∅ ∧
     (∃ c, c ∈ columns (entity_table k) ∧ is_Some (Routes.body req !! name c)) ∧
     (∀ c v, c ∈ columns (entity_table k) → Routes.body req !! name c = Some v →
             is_Some (coerce w (ctype c) v))).
Proof.
  intros Hok Hnone.
  pose proof (set_columns_accepts (entity_table k) (Routes.body req) w) as Hacc.
  rewrite patch_run, update_run. cbn zeta.
  pose proof (set_columns_world (entity_table k) (Routes.body req) w) as Hw.
  destruct (set_columns _ _ w) as [[cols|e] w1]; cbn [snd] in Hw; subst w1.
  - assert (Hsel : filter (λ r, holds (scoped (Routes.params_id req) (Routes.sub req)) r = true)
                     (table (entity_table k) (db w)) = []).
    { apply filter_none. intros r Hr [Hid Hown]%holds_scoped. by eapply Hnone. }
    rewrite Hsel, rewritten_none.
    2:{ intros r Hr [Hid Hown]%holds_scoped. by eapply Hnone. }
    rewrite set_table_same, decide_True by done. rewrite set_db_same.
    eexists. split; [done|]. split; [by left|]. split; [|done].
    intros _. apply Hacc. eauto.
  - eexists. split; [done|]. split; [by right|]. split.
    + intros [=].
    + intros [cols [=]]%Hacc.
Qed.

(** X8. The delete route answers 404 and changes nothing when the caller
    is not the owner, exactly as for an identifier that does not exist;
    for the owner it answers 204 and removes the row, and the same
    request again is answered 404. *)
Theorem delete_route_status (k : Entity) (w : World) (E : Obj) (id A : string) (body : Obj) :
  db_ok (db w) →
  E ∈ table (entity_table k) (db w) →
  E !! "id" = Some (VStr id) →
  E !! "userId" = Some (VStr A) →
  (∀ B body', B ≠ A →
     delete_route k (Routes.mkRequest B id body') w =
       (Routes.mkResponse 404 (Routes.JsonError (not_found k)), w)) ∧
  (∀ u id' body',
     (∀ r : Obj, r ∈ table (entity_table k) (db w) → r !! "id" ≠ Some (VStr id')) →
     delete_route k (Routes.mkRequest u id' body') w =
       (Routes.mkResponse 404 (Routes.JsonError (not_found k)), w)) ∧
  ∃ w1,
    delete_route k (Routes.mkRequest A id body) w
      = (Routes.mkResponse 204 Routes.NoPayload, w1) ∧
    (E ∉ table (entity_table k) (db w1)) ∧
    delete_route k (Routes.mkRequest A id body) w1
      = (Routes.mkResponse 404 (Routes.JsonError (not_found k)), w1).
Proof.
  intros Hok Hin Hid Hown.
  assert (Hmiss : ∀ u i w0, db_ok (db w0) →
            filter (λ r, holds (scoped i u) r = true) (table (entity_table k) (db w0)) = [] →
            ∀ body', delete_route k (Routes.mkRequest u i body') w0 =
              (Routes.mkResponse 404 (Routes.JsonError (not_found k)), w0)).
  { intros u i w0 Hok0 Hsel body'. rewrite delete_route_run.
    cbn [Routes.params_id Routes.sub]. rewrite delete_run by done. cbn zeta.
    rewrite Hsel. cbn [length]. rewrite bool_decide_eq_false_2 by lia.
    rewrite filter_all.
    - by rewrite set_table_same, set_db_same.
    - intros r Hr Hh.
      assert (r ∈ filter (λ r, holds (scoped i u) r = true) (table (entity_table k) (db w0)))
        as Hf by (by apply list_elem_of_filter).
      rewrite Hsel in Hf. by apply not_elem_of_nil in Hf. }
  split; [|split].
  - intros B body' HB. apply Hmiss; [done|].
    rewrite (select_scoped_row _ _ E id A B) by done. by rewrite decide_False.
  - intros u id' body' Hno. apply Hmiss; [done|].
    apply filter_none. intros r Hr [Hrid _]%holds_scoped. by eapply Hno.
  - set (d1 := set_table (entity_table k)
                 (filter (λ r, holds (scoped id A) r ≠ true) (table (entity_table k) (db w)))
                 (db w)).
    assert (Hok1 : db_ok d1).
    { apply db_ok_set_entity; [done|].
      eapply entity_rows_ok_sublist; [apply sublist_filter|].
      apply db_ok_iff in Hok as [_ H]. apply H. }
    exists (set_db d1 w). split; [|split].
    + rewrite delete_route_run. cbn [Routes.params_id Routes.sub].
      rewrite delete_run by done. cbn zeta.
      rewrite (select_scoped_row _ _ E id A A), (decide_True (P := A = A)) by done.
      cbn [length]. by rewrite bool_decide_eq_true_2 by lia.
    + rewrite db_set_db. subst d1. rewrite table_set_table.
      intros [Hno _]%list_elem_of_filter. apply Hno. by apply holds_scoped.
    + apply Hmiss; [by rewrite db_set_db|].
      rewrite db_set_db. subst d1. rewrite table_set_table.
      apply filter_none. by intros r [Hno _]%list_elem_of_filter.
Qed.

(** ** Users *)

Lemma getUser_run id w :
  DatabaseStorage.getUser id w =
    (Ok (head (filter (λ r : Obj, r !! "id" = Some (VStr id)) (table Users (db w)))), w).
Proof.
  unfold DatabaseStorage.getUser, select_from_where, mbind, M_bind, get_db, mret, M_ret.
  do 3 f_equal. apply list_filter_iff. intros r. cbn. apply bool_decide_eq_true.
Qed.

Lemma filter_through {A} (P Q : A → Prop) `{!∀ x, Decision (P x)} `{!∀ x, Decision (Q x)}
    (l : list A) :
  (∀ x, P x → Q x) → filter P l = filter P (filter Q l).
Proof.
  intros HPQ. rewrite list_filter_filter. apply list_filter_iff. intros x. split; [|tauto].
  intros HP. split; [done|]. by apply HPQ.
Qed.

(** X9. An upsert of well-typed data with an identifier, whose e-mail
    address no other user holds, succeeds; afterwards [getUser] with
    that identifier returns the row the upsert returned, [getUser] with
    any other identifier returns what it did before, and the entity
    tables are unchanged. *)
Theorem upsertUser_then_getUser (userData : Obj) (w : World) (i : string) :
  db_ok (db w) →
  user_data_ok userData = true →
  userData !! "id" = Some (VStr i) →
  email_free i userData (db w) →
  ∃ r w1,
    DatabaseStorage.upsertUser userData w = (Ok (Some r), w1) ∧
    DatabaseStorage.getUser i w1 = (Ok (Some r), w1) ∧
    (∀ j, j ≠ i → (DatabaseStorage.getUser j w1).1 = (DatabaseStorage.getUser j w).1) ∧
    (∀ k, table (entity_table k) (db w1) = table (entity_table k) (db w)).
Proof.
  intros Hok Hd Hid Hfree.
  destruct (upsertUser_spec userData w i) as (r & rows' & Hrun & _ & Hone & Hrest & _);
    [done..|].
  exists r, (set_db (set_table Users rows' (db w)) w). split; [done|].
  split; [|split].
  - by rewrite getUser_run, db_set_db, table_set_table, Hone.
  - intros j Hj. rewrite !getUser_run, db_set_db, table_set_table. cbn [fst]. do 2 f_equal.
    rewrite (filter_through (λ r : Obj, r !! "id" = Some (VStr j))
               (λ r : Obj, r !! "id" ≠ Some (VStr i)) rows') by (intros ? -> [=]; done).
    rewrite Hrest. symmetry. apply filter_through. by intros ? -> [=].
  - intros k. rewrite db_set_db, table_set_table_ne; [done|]. by destruct k.
Qed.

Lemma column_values_lookup_inj k (l : list Obj) a b (x y : Obj) s :
  NoDup (column_values k l) →
  l !! a = Some x → l !! b = Some y →
  x !! k = Some (VStr s) → y !! k = Some (VStr s) → a = b.
Proof.
  revert a b. induction l as [|z l IH]; intros a b Hnd Ha Hb Hx Hy; [done|].
  rewrite column_values_cons in Hnd.
  destruct a as [|a], b as [|b]; cbn in Ha, Hb.
  - done.
  - injection Ha as ->. rewrite Hx, decide_True in Hnd by done.
    apply NoDup_cons in Hnd as [Hnot _]. destruct Hnot.
    apply (column_values_elem k y l s); [by eapply list_elem_of_lookup_2|done].
  - injection Hb as ->. rewrite Hy, decide_True in Hnd by done.
    apply NoDup_cons in Hnd as [Hnot _]. destruct Hnot.
    apply (column_values_elem k x l s); [by eapply list_elem_of_lookup_2|done].
  - f_equal. apply IH; try done.
    destruct (z !! k) as [v|]; [|done]. case_decide; [|done].
    by apply NoDup_cons in Hnd as [_ ?].
Qed.

Lemma email_in_users : withUnique (varchar "email") ∈ users.
Proof. unfold users. right. left. Qed.

Lemma email_name_in_users : "email" ∈ name <$> users.
Proof. apply (list_elem_of_fmap_2 name _ _ email_in_users). Qed.

(** X10. An upsert whose e-mail address another user already holds
    throws, and changes nothing. *)
Theorem upsertUser_email_taken (userData : Obj) (w : World) (i e : string) (other : Obj) :
  user_data_ok userData = true →
  userData !! "id" = Some (VStr i) →
  userData !! "email" = Some (VStr e) →
  other ∈ table Users (db w) →
  other !! "email" = Some (VStr e) →
  other !! "id" ≠ Some (VStr i) →
  DatabaseStorage.upsertUser userData w = (Throw ConstraintViolation, w).
Proof.
  intros Hd Hid Hemail Hother Hoe Hoi.
  rewrite (upsertUser_run _ _ i) by done. cbn zeta.
  assert (Hclash : ∀ rows a b (x : Obj),
            rows !! a = Some x → rows !! b = Some other → a ≠ b →
            x !! "email" = Some (VStr e) →
            ¬ db_ok (set_table Users rows (db w))).
  { intros rows a b x Ha Hb Hne Hx [(_ & _ & Hnd) _]%db_ok_iff.
    rewrite table_set_table in Hnd. apply Hne.
    by eapply (column_values_lookup_inj "email" rows a b x other e). }
  destruct (existsb _ _) eqn:Hex.
  - apply existsb_id_true in Hex as (idx & r0 & Hidx & Hr0).
    rewrite decide_False; [done|].
    set (upd := apply_set users (upsert_set (wall_clock w) userData)).
    set (conf := λ r : Obj, bool_decide (r !! "id" = Some (VStr i))).
    assert (H1 : other ∈ filter (λ r, conf r ≠ true) (table Users (db w))).
    { apply list_elem_of_filter. split; [|done].
      subst conf. cbn. by intros ?%bool_decide_eq_true. }
    assert (H2 : upd r0 ∈ upd <$> filter (λ r, conf r = true) (table Users (db w))).
    { apply list_elem_of_fmap_2, list_elem_of_filter.
      split; [by apply bool_decide_eq_true|by eapply list_elem_of_lookup_2]. }
    apply list_elem_of_lookup in H1 as [a Ha]. apply list_elem_of_lookup in H2 as [b Hb].
    pose proof (lookup_lt_Some _ _ _ Ha) as Hlt.
    apply (Hclash _ (length (filter (λ r, conf r ≠ true) (table Users (db w))) + b)%nat a
             (upd r0)).
    + unfold rewritten. rewrite lookup_app_r by lia.
      by replace (_ + b - _)%nat with b by lia.
    + unfold rewritten. by rewrite lookup_app_l.
    + lia.
    + subst upd. rewrite apply_set_lookup, decide_True by apply email_name_in_users.
      unfold upsert_set. rewrite lookup_insert_ne by done. by rewrite Hemail.
  - rewrite decide_False; [done|].
    apply list_elem_of_lookup in Hother as [j Hj].
    pose proof (lookup_lt_Some _ _ _ Hj) as Hlt.
    apply (Hclash _ (length (table Users (db w))) j
             (stamped_row (pg_clock w) users userData)).
    + rewrite lookup_app_r by lia. by rewrite Nat.sub_diag.
    + by rewrite lookup_app_l.
    + lia.
    + change "email" with (name (withUnique (varchar "email"))) at 1.
      rewrite stamped_row_lookup by (apply users_names_NoDup || apply email_in_users).
      unfold stamped_cell. cbn [name withUnique varchar]. by rewrite Hemail.
Qed.

(** ** Owners that do not exist *)

Lemma bind_throw {A B} (m : M A) (f : A → M B) w e w1 :
  m w = (Throw e, w1) → (m ≫= f) w = (Throw e, w1).
Proof. intros H. unfold mbind, M_bind. by rewrite H. Qed.

Lemma create_unknown_owner_run k record w u :
  conforms k record →
  record !! "userId" = Some (VStr u) →
  VStr u ∉ ids Users (db w) →
  create k record w = (Throw ConstraintViolation, draw w).
Proof.
  intros Hrec Hown Hu. rewrite create_run by (by eapply conforms_no_id). cbn zeta.
  rewrite decide_False; [done|].
  intros [_ He]%db_ok_iff. destruct (He k) as (_ & _ & Hfk).
  rewrite table_set_table in Hfk. unfold ids in Hfk, Hu.
  rewrite table_set_table_ne in Hfk by (by destruct k).
  rewrite Forall_forall in Hfk. apply Hu, Hfk.
  apply (column_values_elem "userId" (new_row k (uuids w (drawn w)) record)).
  - apply elem_of_app. right. by left.
  - by apply new_row_userId.
Qed.

Lemma owned_unknown_owner k u d :
  db_ok d → VStr u ∉ ids Users d → owned k u d = [].
Proof.
  intros [_ He]%db_ok_iff Hu. destruct (He k) as (_ & _ & Hfk).
  apply filter_none. intros r Hr Hown. apply Hu.
  rewrite Forall_forall in Hfk. apply Hfk. by eapply column_values_elem.
Qed.

(** X11. Nothing is stored for an owner who has no row in the users
    table: [create] throws, seeding throws on its first insert, and the
    user route answers 500; the database is as it was. *)
Theorem unknown_owner_nothing_stored (k : Entity) (record : Obj) (req : Routes.Request)
    (w : World) :
  db_ok (db w) →
  VStr (Routes.sub req) ∉ ids Users (db w) →
  (conforms k record → record !! "userId" = Some (VStr (Routes.sub req)) →
     create k record w = (Throw ConstraintViolation, draw w)) ∧
  DatabaseStorage.seedUserData (Routes.sub req) w = (Throw ConstraintViolation, draw w) ∧
  Routes.get_auth_user req w =
    (Routes.mkResponse 500 (Routes.JsonMessage "Failed to fetch user"), draw w) ∧
  db (draw w) = db w.
Proof.
  intros Hok Hu.
  assert (Hseed : DatabaseStorage.seedUserData (Routes.sub req) w
                  = (Throw ConstraintViolation, draw w)).
  { unfold DatabaseStorage.seedUserData.
    erewrite bind_ok by apply (getAll_run Todo).
    rewrite (owned_unknown_owner Todo) by done. cbn [length].
    rewrite bool_decide_eq_false_2 by lia.
    apply bind_throw. unfold DatabaseStorage.defaultTodos. cbn [for_of].
    apply bind_throw, bind_throw.
    apply (create_unknown_owner_run Todo _ w (Routes.sub req)); [|apply lookup_insert_eq|done].
    pose proof (defaultTodos_conform (Routes.sub req)) as Hall.
    unfold DatabaseStorage.defaultTodos in Hall. by apply Forall_cons in Hall as [? _]. }
  split; [|split; [done|split; [|done]]].
  - intros Hrec Hown. by apply create_unknown_owner_run with (Routes.sub req).
  - unfold Routes.get_auth_user, Routes.try_catch. cbn zeta.
    erewrite bind_ok by apply getUser_run.
    erewrite bind_throw by exact Hseed. done.
Qed.

(** ** The seeding guard *)

Lemma rows_for_not_owned k userId u uu n items :
  u ≠ userId →
  filter (λ r : Obj, r !! "userId" = Some (VStr u)) (rows_for k userId uu n items) = [].
Proof.
  intros Hne. apply filter_none. revert n.
  induction items as [|i rest IH]; intros n r Hr; [by apply not_elem_of_nil in Hr|].
  cbn [rows_for] in Hr. apply elem_of_cons in Hr as [->|Hr]; [|by eapply IH].
  rewrite (new_row_userId _ _ _ (VStr userId)) by apply lookup_insert_eq.
  intros [= ->]. done.
Qed.

Lemma owned_after_loop_other k k' userId u items w :
  u ≠ userId → owned k' u (db (after_loop k userId items w)) = owned k' u (db w).
Proof.
  intros Hne. destruct (decide (k' = k)) as [->|Hk]; [|by apply owned_after_loop_ne].
  unfold owned, after_loop. cbn [db]. rewrite table_set_table, filter_app.
  by rewrite rows_for_not_owned, app_nil_r.
Qed.

(** X12. The seeding guard looks at the user's todos and at nothing
    else.  A user with a todo is never seeded, whatever else is missing.
    A user without one is seeded in full, on top of the schedule items
    and assignments already there: the three lists grow by 11, 20 and 3
    rows.  The lists of every other user are unchanged. *)
Theorem seedUserData_guard_is_todos_only (w : World) (userId : string) :
  db_ok (db w) →
  VStr userId ∈ ids Users (db w) →
  fresh_at w Todos (drawn w) 11 →
  fresh_at w ScheduleItems (drawn w + 11) 20 →
  fresh_at w Assignments (drawn w + 31) 3 →
  (owned Todo userId (db w) ≠ [] →
     DatabaseStorage.seedUserData userId w = (Ok tt, w)) ∧
  (owned Todo userId (db w) = [] →
     ∃ w1,
       DatabaseStorage.seedUserData userId w = (Ok tt, w1) ∧
       length (owned Todo userId (db w1)) = 11%nat ∧
       (length (owned ScheduleItem userId (db w1))
        = length (owned ScheduleItem userId (db w)) + 20)%nat ∧
       (length (owned Assignment userId (db w1))
        = length (owned Assignment userId (db w)) + 3)%nat ∧
       owned QuickTask userId (db w1) = owned QuickTask userId (db w) ∧
       (∀ k u, u ≠ userId → owned k u (db w1) = owned k u (db w))).
Proof.
  intros Hok Hu Hf1 Hf2 Hf3. split; [apply seedUserData_guard|].
  intros Ht. exists (seeded userId w). split; [by apply seedUserData_run|].
  unfold seeded. cbn zeta.
  split; [|split; [|split; [|split]]].
  - rewrite !owned_after_loop_ne by done. rewrite owned_after_loop, Ht. cbn [app].
    by rewrite rows_for_length.
  - rewrite owned_after_loop_ne by done. rewrite owned_after_loop.
    rewrite owned_after_loop_ne by done. by rewrite length_app, rows_for_length.
  - rewrite owned_after_loop. rewrite !owned_after_loop_ne by done.
    by rewrite length_app, rows_for_length.
  - by rewrite !owned_after_loop_ne.
  - intros k u Hne. by rewrite !owned_after_loop_other.
Qed.

(** ** The user route *)

(** X13. The user route answers 200 with the caller's row.  For a caller
    without a todo it seeds first; the same request again answers the
    same and writes nothing.  For a caller who has a todo it writes
    nothing. *)
Theorem get_auth_user_seeds_once (req : Routes.Request) (w : World) (U : Obj) :
  db_ok (db w) →
  U ∈ table Users (db w) →
  U !! "id" = Some (VStr (Routes.sub req)) →
  fresh_at w Todos (drawn w) 11 →
  fresh_at w ScheduleItems (drawn w + 11) 20 →
  fresh_at w Assignments (drawn w + 31) 3 →
  (owned Todo (Routes.sub req) (db w) ≠ [] →
     Routes.get_auth_user req w = (Routes.mkResponse 200 (Routes.JsonRow (Some U)), w)) ∧
  (owned Todo (Routes.sub req) (db w) = [] →
     Routes.get_auth_user req w =
       (Routes.mkResponse 200 (Routes.JsonRow (Some U)), seeded (Routes.sub req) w) ∧
     Routes.get_auth_user req (seeded (Routes.sub req) w) =
       (Routes.mkResponse 200 (Routes.JsonRow (Some U)), seeded (Routes.sub req) w)).
Proof.
  intros Hok HU Hid Hf1 Hf2 Hf3.
  pose proof (db_ok_ids_NoDup _ Users Hok) as Hnd. unfold ids in Hnd.
  assert (Huser : ∀ w0, table Users (db w0) = table Users (db w) →
            DatabaseStorage.getUser (Routes.sub req) w0 = (Ok (Some U), w0)).
  { intros w0 Htab. rewrite getUser_run, Htab.
    by rewrite (filter_key_unique "id" _ U (Routes.sub req)). }
  assert (Hroute : ∀ w0 w1, table Users (db w0) = table Users (db w) →
            DatabaseStorage.seedUserData (Routes.sub req) w0 = (Ok tt, w1) →
            Routes.get_auth_user req w0
              = (Routes.mkResponse 200 (Routes.JsonRow (Some U)), w1)).
  { intros w0 w1 Htab Hseed. unfold Routes.get_auth_user, Routes.try_catch. cbn zeta.
    erewrite bind_ok by (by apply Huser). erewrite bind_ok by exact Hseed. done. }
  split.
  - intros Ht. apply Hroute; [done|]. by apply seedUserData_guard.
  - intros Ht. split.
    + apply Hroute; [done|]. apply seedUserData_run; try done.
      by eapply column_values_elem.
    + apply Hroute.
      * unfold seeded. cbn zeta. by rewrite !table_after_loop_ne.
      * apply seedUserData_guard. unfold seeded. cbn zeta.
        rewrite !owned_after_loop_ne by done. by rewrite owned_after_loop, Ht.
Qed.

(** ** Due dates *)

Lemma daysInMonth_bounds y m : 28 ≤ daysInMonth y m ≤ 31.
Proof.
  unfold daysInMonth. destruct (m =? 1); [destruct (isLeapYear y); lia|].
  destruct (_ || _); lia.
Qed.

Lemma roll_small fuel y m d : d ≤ daysInMonth y m → roll fuel y m d = (y, m, d).
Proof.
  intros H. destruct fuel; [done|]. cbn [roll].
  by rewrite (proj2 (Z.ltb_ge _ _)) by done.
Qed.

Lemma next_day_valid ymd : valid_date ymd → valid_date (next_day ymd).
Proof.
  destruct ymd as [[y m] d]. unfold valid_date, next_day. intros [Hm Hd].
  destruct (d <? daysInMonth y m) eqn:E1.
  - apply Z.ltb_lt in E1. lia.
  - destruct (m <? 11) eqn:E2.
    + apply Z.ltb_lt in E2. pose proof (daysInMonth_bounds y (m + 1)). lia.
    + pose proof (daysInMonth_bounds (y + 1) 0). lia.
Qed.

(** One more day on the day value is the next calendar day of the
    result. *)
Lemma roll_succ fuel1 : ∀ fuel2 y m d,
  0 ≤ m ≤ 11 → 1 ≤ d → d ≤ Z.of_nat fuel1 → d + 1 ≤ Z.of_nat fuel2 →
  roll fuel2 y m (d + 1) = next_day (roll fuel1 y m d).
Proof.
  induction fuel1 as [|f1 IH]; intros fuel2 y m d Hm Hd Hf1 Hf2; [lia|].
  destruct fuel2 as [|f2]; [lia|].
  pose proof (daysInMonth_bounds y m) as Hdim.
  cbn [roll].
  destruct (daysInMonth y m <? d) eqn:E.
  - apply Z.ltb_lt in E.
    rewrite (proj2 (Z.ltb_lt _ _)) by lia.
    replace (d + 1 - daysInMonth y m) with (d - daysInMonth y m + 1) by lia.
    destruct (m <? 11) eqn:Em.
    + apply Z.ltb_lt in Em. apply IH; lia.
    + apply IH; lia.
  - apply Z.ltb_ge in E. unfold next_day.
    destruct (d <? daysInMonth y m) eqn:E2.
    + apply Z.ltb_lt in E2. by rewrite (proj2 (Z.ltb_ge _ _)) by lia.
    + apply Z.ltb_ge in E2. rewrite (proj2 (Z.ltb_lt _ _)) by lia.
      replace (d + 1 - daysInMonth y m) with 1 by lia.
      destruct (m <? 11).
      * apply roll_small. pose proof (daysInMonth_bounds y (m + 1)). lia.
      * apply roll_small. pose proof (daysInMonth_bounds (y + 1) 0). lia.
Qed.

Lemma roll_iter y m d (n : nat) :
  valid_date (y, m, d) →
  roll (Z.to_nat (d + Z.of_nat n)) y m (d + Z.of_nat n) = Nat.iter n next_day (y, m, d).
Proof.
  intros [Hm Hd]. induction n as [|n IH].
  - change (Nat.iter 0 next_day (y, m, d)) with (y, m, d).
    rewrite Z.add_0_r. apply roll_small. lia.
  - rewrite Nat.iter_succ, <- IH.
    replace (d + Z.of_nat (S n)) with (d + Z.of_nat n + 1) by lia.
    apply roll_succ; lia.
Qed.

Lemma iter_next_day_valid n ymd : valid_date ymd → valid_date (Nat.iter n next_day ymd).
Proof. intros H. induction n; [done|]. rewrite Nat.iter_succ. by apply next_day_valid. Qed.

Lemma getDateString_format today n :
  DatabaseStorage.getDateString today n
  = format_date (calendar (setDate today (getDate today + n))).
Proof.
  unfold DatabaseStorage.getDateString, setDate, calendar, format_date.
  by destruct (roll _ _ _ _) as [[y m] d].
Qed.

Lemma setDate_iter today n :
  valid_date (calendar today) →
  calendar (setDate today (getDate today + Z.of_nat n))
  = Nat.iter n next_day (calendar today).
Proof.
  intros Hv. unfold setDate, calendar in *. rewrite roll_iter by done.
  by destruct (Nat.iter n next_day _) as [[y m] d].
Qed.

(** X14. For a valid current date, the date [getDateString] writes for
    an offset of [n] days is the [n]-th calendar day after it, across
    month ends, leap days and year ends, and it is a valid date. *)
Theorem getDateString_days_later (today : JsDate) (n : nat) :
  valid_date (calendar today) →
  DatabaseStorage.getDateString today (Z.of_nat n)
    = format_date (Nat.iter n next_day (calendar today)) ∧
  calendar (setDate today (getDate today + Z.of_nat n))
    = Nat.iter n next_day (calendar today) ∧
  valid_date (Nat.iter n next_day (calendar today)).
Proof.
  intros Hv. split; [|split; [by apply setDate_iter|by apply iter_next_day_valid]].
  by rewrite getDateString_format, setDate_iter.
Qed.

Lemma string_length_app s1 s2 :
  String.length (s1 +:+ s2) = (String.length s1 + String.length s2)%nat.
Proof. induction s1 as [|a s1 IH]; [done|]. simpl. by f_equal. Qed.

Lemma string_get_app (k n : nat) s1 s2 :
  String.length s1 = k → String.get (k + n) (s1 +:+ s2) = String.get n s2.
Proof. intros <-. by rewrite Nat.add_comm, <- String.append_correct2. Qed.

Lemma forallb_seq_Z (P : Z → bool) (lo len z : Z) :
  forallb (λ i, P (Z.of_nat i)) (seq (Z.to_nat lo) (Z.to_nat len)) = true →
  0 ≤ lo → lo ≤ z < lo + len → P z = true.
Proof.
  intros Hall Hlo Hz. rewrite forallb_forall in Hall.
  rewrite <- (Z2Nat.id z) by lia. apply Hall. apply in_seq. lia.
Qed.

Lemma pad2_length z : 0 ≤ z ≤ 99 → String.length (padStart 2 "0" (pretty z)) = 2%nat.
Proof.
  intros Hz. apply Nat.eqb_eq.
  apply (forallb_seq_Z (λ z, String.length (padStart 2 "0" (pretty z)) =? 2)%nat 0 100);
    [vm_compute; reflexivity|lia|lia].
Qed.

Lemma year_length y : 1000 ≤ y ≤ 9999 → String.length (pretty y) = 4%nat.
Proof.
  intros Hy. apply Nat.eqb_eq.
  apply (forallb_seq_Z (λ z, String.length (pretty z) =? 4)%nat 1000 9000);
    [vm_compute; reflexivity|lia|lia].
Qed.

(** X15. For a valid current date and a resulting year of four digits,
    the due date [getDateString] writes has ten characters, with a dash
    after the year and a dash after the month: month and day are padded
    to two digits. *)
Theorem getDateString_shape (today : JsDate) (n : nat) :
  valid_date (calendar today) →
  1000 ≤ (Nat.iter n next_day (calendar today)).1.1 ≤ 9999 →
  String.length (DatabaseStorage.getDateString today (Z.of_nat n)) = 10%nat ∧
  String.get 4 (DatabaseStorage.getDateString today (Z.of_nat n)) = String.get 0 "-" ∧
  String.get 7 (DatabaseStorage.getDateString today (Z.of_nat n)) = String.get 0 "-".
Proof.
  intros Hv Hy.
  rewrite getDateString_format, setDate_iter by done.
  pose proof (iter_next_day_valid n (calendar today) Hv) as Hvalid.
  destruct (Nat.iter n next_day (calendar today)) as [[y m] d].
  cbn [fst] in Hy. destruct Hvalid as [Hm Hd].
  pose proof (daysInMonth_bounds y m) as Hdim.
  unfold format_date.
  pose proof (year_length y Hy) as Hly.
  assert (Hlm : String.length (padStart 2 "0" (pretty (m + 1))) = 2%nat)
    by (apply pad2_length; lia).
  assert (Hld : String.length (padStart 2 "0" (pretty d)) = 2%nat)
    by (apply pad2_length; lia).
  split; [|split].
  - rewrite !string_length_app, Hly, Hlm, Hld. reflexivity.
  - by rewrite (string_get_app 4 0).
  - rewrite (string_get_app 4 3) by done.
    rewrite (string_get_app 1 2 "-") by done.
    by rewrite (string_get_app 2 0).
Qed.

(** ** The insert schemas *)

(** X16. What an insert schema lets through: the parsed data have no
    [id] and no key outside the schema, agree with the input on every
    field of the schema, carry a string [userId] and a string [title],
    and parse to themselves. *)
Theorem safeParse_strips (k : Entity) (input data : Obj) :
  safeParse (insertSchema k) input = Some data →
  data !! "id" = None ∧
  (∀ key, key ∉ name <$> insertSchema k → data !! key = None) ∧
  (∀ c, c ∈ insertSchema k → data !! name c = input !! name c) ∧
  (∃ u, data !! "userId" = Some (VStr u)) ∧
  (∃ t, data !! "title" = Some (VStr t)) ∧
  safeParse (insertSchema k) data = Some data.
Proof.
  intros Hparse.
  pose proof (safeParse_data _ _ _ Hparse) as [Hconf Hagree].
  split; [by eapply conforms_no_id|]. split; [|split; [done|split; [|split; [|done]]]].
  - intros key Hkey. unfold safeParse in Hparse.
    destruct (forallb _ _); [|done]. injection Hparse as <-.
    by apply strip_lookup_None.
  - by eapply conforms_userId.
  - apply conforms_fields in Hconf. rewrite insertSchema_tail in Hconf.
    destruct k; cbn -[lookup] in Hconf; rewrite !andb_true_iff in Hconf;
      destruct Hconf as (_ & Ht & _);
      destruct (data !! "title") as [[]|]; try done; eauto.
Qed.

(** ** A seeding that stops half way *)

Lemma create_id_in_use_run k record w :
  record !! "id" = None →
  VStr (uuids w (drawn w)) ∈ ids (entity_table k) (db w) →
  create k record w = (Throw ConstraintViolation, draw w).
Proof.
  intros Hid Hin. rewrite create_run by done. cbn zeta.
  rewrite decide_False; [done|].
  intros [_ He]%db_ok_iff. destruct (He k) as (_ & Hnd & _).
  rewrite table_set_table in Hnd.
  rewrite (column_values_snoc _ _ _ (VStr (uuids w (drawn w)))) in Hnd
    by (apply new_row_id || done).
  apply NoDup_app in Hnd as (_ & Hdisj & _).
  apply (Hdisj _ Hin). by left.
Qed.

(** X17. A seeding that fails on its first schedule item, because the
    identifier drawn for it is in use, has stored the eleven todos and
    nothing else.  The next call finds a todo and returns without a
    write: the schedule items and assignments are never supplied. *)
Theorem seedUserData_partial_not_repaired (w : World) (userId : string) :
  db_ok (db w) →
  VStr userId ∈ ids Users (db w) →
  owned Todo userId (db w) = [] →
  fresh_at w Todos (drawn w) 11 →
  VStr (uuids w (drawn w + 11)) ∈ ids ScheduleItems (db w) →
  let w1 := draw (after_loop Todo userId DatabaseStorage.defaultTodos w) in
  DatabaseStorage.seedUserData userId w = (Throw ConstraintViolation, w1) ∧
  length (owned Todo userId (db w1)) = 11%nat ∧
  owned ScheduleItem userId (db w1) = owned ScheduleItem userId (db w) ∧
  owned Assignment userId (db w1) = owned Assignment userId (db w) ∧
  DatabaseStorage.seedUserData userId w1 = (Ok tt, w1).
Proof.
  intros Hok Hu Ht Hf Hin w1.
  destruct (for_of_create Todo userId DatabaseStorage.defaultTodos w)
    as [Hl1 Hok1]; [done|done|apply defaultTodos_conform|done|].
  set (w0 := after_loop Todo userId DatabaseStorage.defaultTodos w) in *.
  assert (Hlen : length (owned Todo userId (db w1)) = 11%nat).
  { change (db w1) with (db w0). subst w0.
    rewrite owned_after_loop, Ht, app_nil_l, rows_for_length. reflexivity. }
  split; [|split; [done|split; [|split]]].
  - unfold DatabaseStorage.seedUserData.
    erewrite bind_ok by apply (getAll_run Todo).
    rewrite Ht. cbn [length]. rewrite bool_decide_eq_false_2 by lia.
    erewrite bind_ok by exact Hl1.
    apply bind_throw. unfold DatabaseStorage.defaultSchedule. cbn [for_of].
    apply bind_throw, bind_throw.
    apply (create_id_in_use_run ScheduleItem).
    + pose proof (defaultSchedule_conform userId) as Hall.
      unfold DatabaseStorage.defaultSchedule in Hall.
      apply Forall_cons in Hall as [Hc _]. by eapply conforms_no_id.
    + change (drawn w0) with (drawn w + 11)%nat. change (uuids w0) with (uuids w).
      unfold ids. subst w0. by rewrite table_after_loop_ne.
  - change (db w1) with (db w0). subst w0. by apply owned_after_loop_ne.
  - change (db w1) with (db w0). subst w0. by apply owned_after_loop_ne.
  - apply seedUserData_guard. intros Hnil. by rewrite Hnil in Hlen.
Qed.

(** ** An update request by the owner *)

Lemma delete_length_snoc {A} (l : list A) (x : A) : base.delete (length l) (l ++ [x]) = l.
Proof.
  induction l as [|a l IH]; [done|].
  change (base.delete (length (a :: l)) ((a :: l) ++ [x]))
    with (a :: base.delete (length l) (l ++ [x])).
  by rewrite IH.
Qed.

Lemma set_table_twice t rows rows' d :
  set_table t rows (set_table t rows' d) = set_table t rows d.
Proof. by destruct t. Qed.

(** X18. An update request by the owner with one field, other than the
    identifier and the owner, and a value that the backend reads as a
    value [v'] that is not [null], is answered 200 with the row as
    updated; the state stays consistent and has the updated row instead
    of the old one.  The same request again is answered the same way
    and leaves the state as it is. *)
Theorem patch_owner_idempotent (k : Entity) (w : World) (idx : nat) (E : Obj)
    (req : Routes.Request) (f : string) (v v' : Val) :
  db_ok (db w) →
  table (entity_table k) (db w) !! idx = Some E →
  E !! "id" = Some (VStr (Routes.params_id req)) →
  E !! "userId" = Some (VStr (Routes.sub req)) →
  Routes.body req = {[f := v]} →
  f ≠ "id" → f ≠ "userId" → v' ≠ VNull →
  reads_as w (entity_table k) f v v' = true →
  ∃ w',
    patch k req w = (Routes.mkResponse 200 (Routes.JsonRow (Some (<[f := v']> E))), w') ∧
    db_ok (db w') ∧
    table (entity_table k) (db w')
      ≡ₚ <[idx := <[f := v']> E]> (table (entity_table k) (db w)) ∧
    patch k req w' = (Routes.mkResponse 200 (Routes.JsonRow (Some (<[f := v']> E))), w').
Proof.
  intros Hok Hidx Hid Hown Hbody Hfid Hfown Hv' (c & Hc & <- & Hv)%reads_as_column.
  destruct (update_field_run k w idx E _ _ c v v' Hok Hidx Hid Hown Hc Hfid Hfown Hv Hv')
    as [Hd Hrun].
  set (rest := base.delete idx (table (entity_table k) (db w))) in *.
  set (E' := <[name c := v']> E) in *.
  set (d := set_table (entity_table k) (rest ++ [E']) (db w)) in *.
  assert (Hidx' : table (entity_table k) (db (set_db d w)) !! length rest = Some E').
  { rewrite db_set_db. subst d. rewrite table_set_table.
    rewrite lookup_app_r by lia. by rewrite Nat.sub_diag. }
  destruct (update_field_run k (set_db d w) (length rest) E' (Routes.params_id req)
              (Routes.sub req) c v v') as [_ Hrun'].
  { by rewrite db_set_db. }
  { done. }
  { subst E'. by rewrite lookup_insert_ne. }
  { subst E'. by rewrite lookup_insert_ne. }
  { done. }
  { done. }
  { done. }
  { done. }
  { done. }
  cbn zeta in Hrun'.
  assert (Hsame : set_db
            (set_table (entity_table k)
               (base.delete (length rest) (table (entity_table k) (db (set_db d w)))
                  ++ [<[name c := v']> E'])
               (db (set_db d w))) (set_db d w) = set_db d w).
  { rewrite db_set_db. subst d E'.
    by rewrite table_set_table, delete_length_snoc, insert_insert_eq, set_table_twice. }
  rewrite Hsame in Hrun'. subst E'. rewrite insert_insert_eq in Hrun'.
  exists (set_db d w). split; [|split; [|split]].
  - rewrite patch_run, Hbody, Hrun. done.
  - by rewrite db_set_db.
  - rewrite db_set_db. subst d. rewrite table_set_table.
    by apply (delete_snoc_insert _ _ E).
  - rewrite patch_run, Hbody, Hrun'. done.
Qed.

(** ** A first upsert *)

(** X19. The upsert of a user whose identifier is not in the table adds
    one row.  The row has the supplied properties, [null] for the names,
    the e-mail address and the picture that are not supplied, and the
    backend's clock for the creation and update times that are not
    supplied: the application's clock is not looked at. *)
Theorem upsertUser_new_user (userData : Obj) (w : World) (i : string) :
  db_ok (db w) →
  user_data_ok userData = true →
  userData !! "id" = Some (VStr i) →
  email_free i userData (db w) →
  VStr i ∉ ids Users (db w) →
  ∃ r,
    DatabaseStorage.upsertUser userData w =
      (Ok (Some r), set_db (set_table Users (table Users (db w) ++ [r]) (db w)) w) ∧
    r !! "id" = Some (VStr i) ∧
    (∀ f, f ∈ ["email"; "firstName"; "lastName"; "profileImageUrl"] →
       r !! f = Some (match userData !! f with Some v => v | None => VNull end)) ∧
    (∀ f, f ∈ ["createdAt"; "updatedAt"] →
       r !! f = Some (match userData !! f with Some v => v | None => VDate (pg_clock w) end)).
Proof.
  intros Hok Hd Hid Hfree Hnew.
  destruct (upsertUser_spec userData w i) as (r & rows' & Hrun & _ & _ & _ & Hr); [done..|].
  rewrite (upsertUser_run _ _ i) in Hrun |- * by done. cbn zeta in Hrun |- *.
  assert (Hsel : filter (λ r : Obj, r !! "id" = Some (VStr i)) (table Users (db w)) = []).
  { apply filter_none. intros x Hx Hxi. apply Hnew. by eapply column_values_elem. }
  rewrite Hsel in Hr. subst r.
  assert (Hex : existsb (λ r : Obj, bool_decide (r !! "id" = Some (VStr i)))
                  (table Users (db w)) = false).
  { apply not_true_is_false. intros (idx & r0 & Hidx & Hr0)%existsb_id_true.
    apply Hnew. apply (column_values_elem "id" r0); [by eapply list_elem_of_lookup_2|done]. }
  rewrite Hex in Hrun |- *.
  exists (stamped_row (pg_clock w) users userData).
  split; [|split; [by apply stamped_row_id|split]].
  - by case_decide.
  - intros f Hf.
    repeat (apply elem_of_cons in Hf as [->|Hf]); try (by apply not_elem_of_nil in Hf).
    + change "email" with (name (withUnique (varchar "email"))) at 1.
      rewrite stamped_row_lookup; [done|apply users_names_NoDup|apply email_in_users].
    + change "firstName" with (name (varchar "firstName")) at 1.
      rewrite stamped_row_lookup; [done|apply users_names_NoDup|].
      unfold users. do 2 right. left.
    + change "lastName" with (name (varchar "lastName")) at 1.
      rewrite stamped_row_lookup; [done|apply users_names_NoDup|].
      unfold users. do 3 right. left.
    + change "profileImageUrl" with (name (varchar "profileImageUrl")) at 1.
      rewrite stamped_row_lookup; [done|apply users_names_NoDup|].
      unfold users. do 4 right. left.
  - intros f Hf.
    repeat (apply elem_of_cons in Hf as [->|Hf]); try (by apply not_elem_of_nil in Hf).
    + change "createdAt" with (name (withDefault DefaultNow (timestamp "createdAt"))) at 1.
      rewrite stamped_row_lookup; [done|apply users_names_NoDup|].
      unfold users. do 5 right. left.
    + change "updatedAt" with (name (withDefault DefaultNow (timestamp "updatedAt"))) at 1.
      rewrite stamped_row_lookup; [done|apply users_names_NoDup|].
      unfold users. do 6 right. left.
Qed.

(** ** The further properties at concrete inputs *)

Lemma create_then_getAll_witness :
  ∃ r w' before after,
    create Todo {[ "userId" := VStr "alice"; "title" := VStr "Write"; "dayOfWeek" := VNum 2 ]}
      two_users = (Ok (Some r), w') ∧
    getAll Todo "alice" two_users = (Ok before, two_users) ∧
    getAll Todo "alice" w' = (Ok after, w') ∧
    after ≡ₚ r :: before.
Proof.
  assert (Hc : ∃ r w',
             create Todo {[ "userId" := VStr "alice"; "title" := VStr "Write";
                            "dayOfWeek" := VNum 2 ]} two_users = (Ok (Some r), w'))
    by (eexists _, _; vm_compute; reflexivity).
  destruct Hc as (r & w' & Hc).
  destruct (create_then_getAll Todo
              {[ "userId" := VStr "alice"; "title" := VStr "Write"; "dayOfWeek" := VNum 2 ]}
              two_users "alice" r w') as ((before & after & Hb & Ha & Hperm & _) & _).
  - vm_compute. reflexivity.
  - vm_compute. reflexivity.
  - exact Hc.
  - exists r, w', before, after. split; [exact Hc|]. split; [exact Hb|].
    split; [exact Ha|exact Hperm].
Defined.

Lemma delete_then_gone_witness :
  ∃ b w',
    delete Todo "t1" "alice" two_users = (Ok b, w') ∧
    getOne Todo "t1" "alice" w' = (Ok None, w') ∧
    table Users (db w') = table Users (db two_users).
Proof.
  destruct (delete_then_gone Todo "t1" "alice" two_users)
    as (b & w' & Hdel & Hget & _ & _ & _ & Husers).
  - apply (bool_decide_unpack _). vm_compute. exact I.
  - exists b, w'. split; [exact Hdel|]. split; [exact Hget|exact Husers].
Defined.

Lemma update_frame_witness :
  ∃ res w',
    update Todo "t1" "bob" {[ "title" := VStr "Mine"; "colour" := VStr "red" ]} two_users
      = (res, w') ∧
    todo_row "t1" "alice" "Read" ∈ table Todos (db w') ∧
    length (table Todos (db w')) = length (table Todos (db two_users)) ∧
    table Users (db w') = table Users (db two_users).
Proof.
  assert (Hrun : ∃ res w',
             update Todo "t1" "bob" {[ "title" := VStr "Mine"; "colour" := VStr "red" ]}
               two_users = (res, w'))
    by (eexists _, _; vm_compute; reflexivity).
  destruct Hrun as (res & w' & Hrun).
  destruct (update_frame Todo "t1" "bob" _ two_users res w' Hrun)
    as (_ & Hlen & Hkeep & Hother).
  exists res, w'. split; [exact Hrun|]. split; [|split; [exact Hlen|]].
  - apply Hkeep.
    + apply (bool_decide_unpack _). vm_compute. exact I.
    + intros [_ H]. vm_compute in H. discriminate H.
  - apply Hother. discriminate.
Defined.

Lemma update_then_getOne_witness :
  ∃ w',
    update Todo "t1" "alice" {[ "dayOfWeek" := VStr "3" ]} two_users
      = (Ok (Some (<["dayOfWeek" := VNum 3]> (todo_row "t1" "alice" "Read"))), w') ∧
    getOne Todo "t1" "alice" w'
      = (Ok (Some (<["dayOfWeek" := VNum 3]> (todo_row "t1" "alice" "Read"))), w') ∧
    getOne Todo "t1" "bob" w' = (Ok None, w').
Proof.
  destruct (update_then_getOne Todo two_users 0 (todo_row "t1" "alice" "Read")
              "t1" "alice" "dayOfWeek" (VStr "3") (VNum 3))
    as (w' & _ & _ & _ & Hup & Hget & Hother & _).
  - apply (bool_decide_unpack _). vm_compute. exact I.
  - vm_compute. reflexivity.
  - vm_compute. reflexivity.
  - vm_compute. reflexivity.
  - discriminate.
  - discriminate.
  - discriminate.
  - vm_compute. reflexivity.
  - exists w'. split; [exact Hup|]. split; [exact Hget|]. apply Hother. discriminate.
Defined.

Lemma post_then_list_witness :
  ∃ r w',
    post Todo (Routes.mkRequest "alice" ""
                 {[ "title" := VStr "Write"; "dayOfWeek" := VNum 2 ]}) two_users
      = (Routes.mkResponse 201 (Routes.JsonRow (Some r)), w') ∧
    r !! "id" = Some (VStr "uuid-0") ∧
    r !! "userId" = Some (VStr "alice") ∧
    getOne Todo "uuid-0" "alice" w' = (Ok (Some r), w').
Proof.
  assert (Hp : ∃ data,
             safeParse (insertSchema Todo)
               (<["userId" := VStr "alice"]>
                  {[ "title" := VStr "Write"; "dayOfWeek" := VNum 2 ]}) = Some data)
    by (eexists; vm_compute; reflexivity).
  destruct Hp as (data & Hp).
  destruct (post_then_list Todo
              (Routes.mkRequest "alice" "" {[ "title" := VStr "Write"; "dayOfWeek" := VNum 2 ]})
              two_users data) as (r & w' & Hpost & Hid & Hown & _ & _ & Hget).
  - apply (bool_decide_unpack _). vm_compute. exact I.
  - apply (bool_decide_unpack _). vm_compute. exact I.
  - apply (bool_decide_unpack _). vm_compute. exact I.
  - exact Hp.
  - exists r, w'. split; [exact Hpost|]. split; [exact Hid|]. split; [exact Hown|exact Hget].
Defined.

Lemma post_rejected_no_write_witness :
  post Todo (Routes.mkRequest "alice" "" {[ "dayOfWeek" := VNum 2 ]}) two_users
    = (Routes.mkResponse 400 Routes.JsonParseError, two_users).
Proof.
  apply (post_rejected_no_write Todo
           (Routes.mkRequest "alice" "" {[ "dayOfWeek" := VNum 2 ]}) two_users).
  intros s H. vm_compute in H. discriminate H.
Defined.

Lemma patch_not_owned_witness :
  patch Todo (Routes.mkRequest "bob" "t1" {[ "dayOfWeek" := VStr "3" ]}) two_users
    = (Routes.mkResponse 404 (Routes.JsonError "Todo not found"), two_users).
Proof.
  destruct (patch_not_owned Todo
              (Routes.mkRequest "bob" "t1" {[ "dayOfWeek" := VStr "3" ]}) two_users)
    as (resp & Hrun & _ & Hiff).
  - apply (bool_decide_unpack _). vm_compute. exact I.
  - apply (proj1 (Forall_forall
                    (λ r : Obj, r !! "id" = Some (VStr "t1") → r !! "userId" ≠ Some (VStr "bob"))
                    (table Todos (db two_users)))).
    apply (bool_decide_unpack _). vm_compute. exact I.
  - rewrite Hrun. f_equal. apply Hiff. split; [|split].
    + intros H. vm_compute in H. discriminate H.
    + exists (withNotNull (integer "dayOfWeek")). split; [|vm_compute; eauto].
      cbn [entity_table columns]. unfold todos. do 4 right. left.
    + intros c v Hc.
      cbn [entity_table columns todos] in Hc.
      repeat (apply elem_of_cons in Hc as [->|Hc]); try (by apply not_elem_of_nil in Hc);
        intros Hv; vm_compute in Hv; try discriminate Hv.
      injection Hv as <-. vm_compute. eauto.
Defined.

Lemma delete_route_status_witness :
  delete_route Todo (Routes.mkRequest "bob" "t1" ∅) two_users
    = (Routes.mkResponse 404 (Routes.JsonError "Todo not found"), two_users) ∧
  ∃ w1,
    delete_route Todo (Routes.mkRequest "alice" "t1" ∅) two_users
      = (Routes.mkResponse 204 Routes.NoPayload, w1) ∧
    delete_route Todo (Routes.mkRequest "alice" "t1" ∅) w1
      = (Routes.mkResponse 404 (Routes.JsonError "Todo not found"), w1).
Proof.
  destruct (delete_route_status Todo two_users (todo_row "t1" "alice" "Read")
              "t1" "alice" ∅) as (Hother & _ & w1 & Hfirst & _ & Hsecond).
  - apply (bool_decide_unpack _). vm_compute. exact I.
  - apply (bool_decide_unpack _). vm_compute. exact I.
  - vm_compute. reflexivity.
  - vm_compute. reflexivity.
  - split; [apply Hother; discriminate|].
    exists w1. split; [exact Hfirst|exact Hsecond].
Defined.

Lemma upsertUser_then_getUser_witness :
  ∃ r w1,
    DatabaseStorage.upsertUser {[ "id" := VStr "alice"; "firstName" := VStr "Al" ]} two_users
      = (Ok (Some r), w1) ∧
    DatabaseStorage.getUser "alice" w1 = (Ok (Some r), w1) ∧
    (DatabaseStorage.getUser "bob" w1).1 = (DatabaseStorage.getUser "bob" two_users).1.
Proof.
  destruct (upsertUser_then_getUser {[ "id" := VStr "alice"; "firstName" := VStr "Al" ]}
              two_users "alice") as (r & w1 & Hup & Hget & Hothers & _).
  - apply (bool_decide_unpack _). vm_compute. exact I.
  - vm_compute. reflexivity.
  - vm_compute. reflexivity.
  - apply (bool_decide_unpack _). vm_compute. exact I.
  - exists r, w1. split; [exact Hup|]. split; [exact Hget|]. apply Hothers. discriminate.
Defined.

Lemma upsertUser_email_taken_witness :
  DatabaseStorage.upsertUser
    {[ "id" := VStr "carol"; "email" := VStr "bob@example.com" ]} two_users
    = (Throw ConstraintViolation, two_users).
Proof.
  apply (upsertUser_email_taken
           {[ "id" := VStr "carol"; "email" := VStr "bob@example.com" ]} two_users
           "carol" "bob@example.com" (user_row "bob" "bob@example.com" "Bob" 1709000000000)).
  - vm_compute. reflexivity.
  - vm_compute. reflexivity.
  - vm_compute. reflexivity.
  - apply (bool_decide_unpack _). vm_compute. exact I.
  - vm_compute. reflexivity.
  - intros H. vm_compute in H. discriminate H.
Defined.

Lemma unknown_owner_nothing_stored_witness :
  create Todo {[ "userId" := VStr "carol"; "title" := VStr "Read"; "dayOfWeek" := VNum 1 ]}
    two_users = (Throw ConstraintViolation, draw two_users) ∧
  Routes.get_auth_user (Routes.mkRequest "carol" "" ∅) two_users
    = (Routes.mkResponse 500 (Routes.JsonMessage "Failed to fetch user"), draw two_users).
Proof.
  destruct (unknown_owner_nothing_stored Todo
              {[ "userId" := VStr "carol"; "title" := VStr "Read"; "dayOfWeek" := VNum 1 ]}
              (Routes.mkRequest "carol" "" ∅) two_users) as (Hcreate & _ & Hroute & _).
  - apply (bool_decide_unpack _). vm_compute. exact I.
  - apply (bool_decide_unpack _). vm_compute. exact I.
  - split; [|exact Hroute]. apply Hcreate; vm_compute; reflexivity.
Defined.

Lemma seedUserData_guard_is_todos_only_witness :
  DatabaseStorage.seedUserData "alice" two_users = (Ok tt, two_users) ∧
  ∃ w1,
    DatabaseStorage.seedUserData "bob" two_users = (Ok tt, w1) ∧
    length (owned Todo "bob" (db w1)) = 11%nat ∧
    owned Todo "alice" (db w1) = owned Todo "alice" (db two_users).
Proof.
  destruct (seedUserData_guard_is_todos_only two_users "alice") as [Hnoop _].
  - apply (bool_decide_unpack _). vm_compute. exact I.
  - apply (bool_decide_unpack _). vm_compute. exact I.
  - apply (bool_decide_unpack _). vm_compute. exact I.
  - apply (bool_decide_unpack _). vm_compute. exact I.
  - apply (bool_decide_unpack _). vm_compute. exact I.
  - split; [apply Hnoop; intros H; vm_compute in H; discriminate H|].
    destruct (seedUserData_guard_is_todos_only two_users "bob") as [_ Hseed].
    + apply (bool_decide_unpack _). vm_compute. exact I.
    + apply (bool_decide_unpack _). vm_compute. exact I.
    + apply (bool_decide_unpack _). vm_compute. exact I.
    + apply (bool_decide_unpack _). vm_compute. exact I.
    + apply (bool_decide_unpack _). vm_compute. exact I.
    + destruct Hseed as (w1 & Hrun & Hlen & _ & _ & _ & Hothers); [vm_compute; reflexivity|].
      exists w1. split; [exact Hrun|]. split; [exact Hlen|]. apply Hothers. discriminate.
Defined.

Lemma get_auth_user_seeds_once_witness :
  Routes.get_auth_user (Routes.mkRequest "bob" "" ∅) two_users =
    (Routes.mkResponse 200
       (Routes.JsonRow (Some (user_row "bob" "bob@example.com" "Bob" 1709000000000))),
     seeded "bob" two_users) ∧
  Routes.get_auth_user (Routes.mkRequest "bob" "" ∅) (seeded "bob" two_users) =
    (Routes.mkResponse 200
       (Routes.JsonRow (Some (user_row "bob" "bob@example.com" "Bob" 1709000000000))),
     seeded "bob" two_users).
Proof.
  destruct (get_auth_user_seeds_once (Routes.mkRequest "bob" "" ∅) two_users
              (user_row "bob" "bob@example.com" "Bob" 1709000000000)) as [_ Hfirst].
  - apply (bool_decide_unpack _). vm_compute. exact I.
  - apply (bool_decide_unpack _). vm_compute. exact I.
  - vm_compute. reflexivity.
  - apply (bool_decide_unpack _). vm_compute. exact I.
  - apply (bool_decide_unpack _). vm_compute. exact I.
  - apply (bool_decide_unpack _). vm_compute. exact I.
  - apply Hfirst. vm_compute. reflexivity.
Defined.

Lemma getDateString_days_later_witness :
  DatabaseStorage.getDateString (mkDate 1709030000000 2024 1 27) (Z.of_nat 5)
    = format_date (Nat.iter 5 next_day (2024, 1, 27)) ∧
  valid_date (Nat.iter 5 next_day (2024, 1, 27)).
Proof.
  destruct (getDateString_days_later (mkDate 1709030000000 2024 1 27) 5) as (Hs & _ & Hv).
  - apply (bool_decide_unpack _). vm_compute. exact I.
  - split; [exact Hs|exact Hv].
Defined.

Lemma getDateString_shape_witness :
  String.length (DatabaseStorage.getDateString (mkDate 1709030000000 2024 1 27) (Z.of_nat 5))
    = 10%nat.
Proof.
  destruct (getDateString_shape (mkDate 1709030000000 2024 1 27) 5) as (Hlen & _).
  - apply (bool_decide_unpack _). vm_compute. exact I.
  - vm_compute. split; discriminate.
  - exact Hlen.
Defined.

Lemma safeParse_strips_witness :
  ∃ data,
    safeParse (insertSchema Todo)
      {[ "id" := VStr "t9"; "userId" := VStr "alice"; "title" := VStr "Read";
         "dayOfWeek" := VNum 1; "colour" := VStr "red" ]} = Some data ∧
    data !! "id" = None ∧
    data !! "colour" = None ∧
    safeParse (insertSchema Todo) data = Some data.
Proof.
  assert (Hp : ∃ data,
             safeParse (insertSchema Todo)
               {[ "id" := VStr "t9"; "userId" := VStr "alice"; "title" := VStr "Read";
                  "dayOfWeek" := VNum 1; "colour" := VStr "red" ]} = Some data)
    by (eexists; vm_compute; reflexivity).
  destruct Hp as (data & Hp).
  destruct (safeParse_strips Todo _ data Hp) as (Hid & Hout & _ & _ & _ & Hidem).
  exists data. split; [exact Hp|]. split; [exact Hid|]. split; [|exact Hidem].
  apply Hout. apply (bool_decide_unpack _). vm_compute. exact I.
Defined.

Lemma seedUserData_partial_not_repaired_witness :
  ∃ w1,
    DatabaseStorage.seedUserData "alice" taken_uuid = (Throw ConstraintViolation, w1) ∧
    length (owned Todo "alice" (db w1)) = 11%nat ∧
    owned ScheduleItem "alice" (db w1) = owned ScheduleItem "alice" (db taken_uuid) ∧
    DatabaseStorage.seedUserData "alice" w1 = (Ok tt, w1).
Proof.
  destruct (seedUserData_partial_not_repaired taken_uuid "alice")
    as (Hrun & Hlen & Hsched & _ & Hagain).
  - apply (bool_decide_unpack _). vm_compute. exact I.
  - apply (bool_decide_unpack _). vm_compute. exact I.
  - vm_compute. reflexivity.
  - apply (bool_decide_unpack _). vm_compute. exact I.
  - apply (bool_decide_unpack _). vm_compute. exact I.
  - eexists. split; [exact Hrun|]. split; [exact Hlen|]. split; [exact Hsched|exact Hagain].
Defined.

Lemma patch_owner_idempotent_witness :
  ∃ w',
    patch Todo (Routes.mkRequest "alice" "t1" {[ "completed" := VStr "true" ]}) two_users
      = (Routes.mkResponse 200
           (Routes.JsonRow (Some (<["completed" := VBool true]> (todo_row "t1" "alice" "Read")))),
         w') ∧
    patch Todo (Routes.mkRequest "alice" "t1" {[ "completed" := VStr "true" ]}) w'
      = (Routes.mkResponse 200
           (Routes.JsonRow (Some (<["completed" := VBool true]> (todo_row "t1" "alice" "Read")))),
         w').
Proof.
  destruct (patch_owner_idempotent Todo two_users 0 (todo_row "t1" "alice" "Read")
              (Routes.mkRequest "alice" "t1" {[ "completed" := VStr "true" ]})
              "completed" (VStr "true") (VBool true)) as (w' & Hfirst & _ & _ & Hsecond).
  - apply (bool_decide_unpack _). vm_compute. exact I.
  - vm_compute. reflexivity.
  - vm_compute. reflexivity.
  - vm_compute. reflexivity.
  - reflexivity.
  - discriminate.
  - discriminate.
  - discriminate.
  - vm_compute. reflexivity.
  - exists w'. split; [exact Hfirst|exact Hsecond].
Defined.

Lemma upsertUser_new_user_witness :
  ∃ r,
    DatabaseStorage.upsertUser {[ "id" := VStr "carol"; "firstName" := VStr "Carol" ]} two_users
      = (Ok (Some r),
         set_db (set_table Users (table Users (db two_users) ++ [r]) (db two_users)) two_users) ∧
    r !! "email" = Some VNull ∧
    r !! "createdAt" = Some (VDate 1709030000000).
Proof.
  destruct (upsertUser_new_user {[ "id" := VStr "carol"; "firstName" := VStr "Carol" ]}
              two_users "carol") as (r & Hrun & _ & Hnull & Hclock).
  - apply (bool_decide_unpack _). vm_compute. exact I.
  - vm_compute. reflexivity.
  - vm_compute. reflexivity.
  - apply (bool_decide_unpack _). vm_compute. exact I.
  - apply (bool_decide_unpack _). vm_compute. exact I.
  - exists r. split; [exact Hrun|]. split.
    + rewrite (Hnull "email") by (left). vm_compute. reflexivity.
    + rewrite (Hclock "createdAt") by (left). vm_compute. reflexivity.
Defined.

